(** * unrealircd-s2s-client: the protocol engine of [src/s2s.ts]

    A shallow embedding of the [ServerToServerClient] class: the line framer
    ([_dataHandler]), the command dispatcher ([_lineHandler]) with its
    burst-join and channel-mode handling, and the public [sjoinToChannel]
    operation, together with the properties the specification states about
    them.

    The other operations of the class are embedded as well ([registerUser],
    [registerServer], [sendMessage], [sendNotice], [sendNumeric],
    [endOfSync], the loop of the writer, [connect] and [disconnect]), with
    properties read off the code: what a peer reads back from the lines
    they queue, which commands keep the tables of the client coherent, and
    what an exception leaves behind.

    Conventions of the embedding.
    - A JavaScript string is a [string] of 8-bit characters; a character of
      the model stands for one code unit.
    - A JavaScript object used as a dictionary is a [gmap] keyed by strings.
      It has the keys of the object's own and nothing else: the code reads
      a property that the object inherits from [Object.prototype]
      ([constructor], [toString], ...) where the model finds no key, and
      takes an assignment under [__proto__] as a change of the prototype
      where the model adds a key.  The model is the code on all other
      keys; a property that depends on it says so in its hypotheses
      ([Object_prototype], [ordinary], [prototypes_intact]).  Where the
      enumeration order of the keys is observed ([Object.keys(newModes)])
      the object is an insertion-ordered list.
    - A number is [NaN] or an integer, printed in plain decimal and read
      back exactly.  The numbers of the code are doubles: the model is the
      code on the integers below 2^53 in absolute value ([safe_integer]).
    - [User], [Channel] and [Member] objects are shared by reference in the
      source, so they live in three heaps and the dictionaries hold
      references.  A heap is a list, a reference is an index, allocation
      appends; objects are never reclaimed.
    - A method is a function [Client -> Res A * Client]: an exception leaves
      the mutations made before it in place, exactly as in the source.
    - Application callbacks ([onRaw], [onUID], ...) are no-ops by default;
      each call is recorded in the [events] log of the client. *)

From Stdlib Require Import ZArith Ascii String DecimalString DecimalPos DecimalZ Decimal.
From stdpp Require Import base option list gmap strings.

Local Open Scope Z_scope.

(** ** JavaScript strings *)

Module Js.

Definition chars : string -> list ascii := list_ascii_of_string.
Definition of_chars : list ascii -> string := string_of_list_ascii.

(** A token read from an array out of range is [undefined]: [None]. *)
Definition val := option string.

(** String coercion of a possibly undefined value, as in a template literal
    or a [+] concatenation. *)
Definition show (v : val) : string := default "undefined" v.

(** [Array.prototype.join] turns [undefined] elements into empty strings. *)
Definition join_vals (sep : string) (l : list val) : string :=
  String.concat sep (default EmptyString <$> l).

Definition join (sep : string) (l : list string) : string :=
  String.concat sep l.

Definition startsWith (p s : string) : bool := String.prefix p s.

(** [s.slice(n)] for a non-negative [n]. *)
Fixpoint slice (n : nat) (s : string) : string :=
  match n, s with
  | O, _ => s
  | S k, String _ s' => slice k s'
  | S _, EmptyString => EmptyString
  end.

(** [s.split(sep)] for a non-empty separator.  [skip] counts the characters
    of a separator just recognised that are still to be passed over. *)
Fixpoint split_go (sep : string) (skip : nat) (s : string) : list string :=
  match s with
  | EmptyString => [EmptyString]
  | String c s' =>
      match skip with
      | S k => split_go sep k s'
      | O =>
          if String.prefix sep s
          then EmptyString :: split_go sep (Nat.pred (String.length sep)) s'
          else match split_go sep O s' with
               | p :: ps => String c p :: ps
               | [] => [String c EmptyString]
               end
      end
  end.

(** [s.split(sep)]; with the empty separator the source would get the list
    of the characters of [s]. *)
Definition split (sep s : string) : list string :=
  match sep with
  | EmptyString => (fun c => String c EmptyString) <$> chars s
  | _ => split_go sep O s
  end.

(** White space of [String.prototype.trim] among 8-bit characters. *)
Definition is_space (c : ascii) : bool :=
  match c with
  | "009" | "010" | "011" | "012" | "013" | " " | "160" => true
  | _ => false
  end%char.

Fixpoint trimStart (s : string) : string :=
  match s with
  | String c s' => if is_space c then trimStart s' else s
  | EmptyString => EmptyString
  end.

Definition trim (s : string) : string :=
  String.rev (trimStart (String.rev (trimStart s))).

(** [s.includes(c)] for a one-character argument. *)
Definition includes (s : string) (c : ascii) : bool :=
  bool_decide (c ∈ chars s).

(** [s.replace(pat, rep)] with a string pattern: only the first occurrence
    is replaced. *)
Fixpoint replace (pat rep s : string) : string :=
  if String.prefix pat s then rep +:+ slice (String.length pat) s
  else match s with
       | EmptyString => EmptyString
       | String c s' => String c (replace pat rep s')
       end.

(** Numbers: the integers and [NaN] ([parseInt] never yields a fraction).
    Integers beyond 2^53 are kept exact here, where the code rounds them to
    a double, and every integer is printed in plain decimal, where the code
    prints an exponent from 10^21 on: below 2^53 in absolute value the
    model is the code. *)
Inductive num := NaN | Num (z : Z).

Definition num_eq (a b : num) : bool :=
  match a, b with
  | Num x, Num y => bool_decide (x = y)
  | _, _ => false
  end.

Definition num_lt (a b : num) : bool :=
  match a, b with
  | Num x, Num y => bool_decide (x < y)
  | _, _ => false
  end.

Definition digit_val (c : ascii) : option Z :=
  let n := Z.of_N (N_of_ascii c) in
  if bool_decide (48 <= n <= 57) then Some (n - 48)
  else if bool_decide (97 <= n <= 122) then Some (n - 87)
  else if bool_decide (65 <= n <= 90) then Some (n - 55)
  else None.

(** The longest prefix of digits of the radix, read as a number. *)
Fixpoint digits (radix : Z) (acc : option Z) (s : string) : option Z :=
  match s with
  | EmptyString => acc
  | String c s' =>
      match digit_val c with
      | Some d =>
          if bool_decide (d < radix)
          then digits radix (Some (default 0 acc * radix + d)) s'
          else acc
      | None => acc
      end
  end.

(** [parseInt(v)] without a radix argument. *)
Definition parseInt (v : val) : num :=
  let s := trimStart (show v) in
  let '(neg, s) :=
    match s with
    | String "-" r => (true, r)
    | String "+" r => (false, r)
    | _ => (false, s)
    end in
  let '(radix, s) :=
    match s with
    | String "0" (String "x" r) | String "0" (String "X" r) => (16, r)
    | _ => (10, s)
    end in
  match digits radix None s with
  | Some z => Num (if neg then - z else z)
  | None => NaN
  end.

Definition Z_to_string (z : Z) : string :=
  NilZero.string_of_int (Z.to_int z).

(** [n.toString()] and the coercion of a number in a template literal. *)
Definition num_to_string (n : num) : string :=
  match n with
  | NaN => "NaN"
  | Num z => Z_to_string z
  end.

End Js.

(** ** Data model *)

(** References into the three object heaps. *)
Definition ref := nat.

Module Member.
Record t := mk { uid : Js.val; prefix : string }.
Definition set_prefix (p : string) (m : t) : t := mk (uid m) p.
End Member.

Module User.
Record t := mk {
  nickname : Js.val;
  hopcount : Js.num;
  timestamp : Js.num;
  username : Js.val;
  hostname : Js.val;
  uid : Js.val;
  servicestamp : Js.val;
  usermodes : Js.val;
  virtualhost : Js.val;
  cloakedhost : Js.val;
  ip : Js.val;
  gecos : Js.val;
  local : option bool;
  away : option bool;
  moddata : option (gmap string string);
  memberships : gmap string ref  (* channel name -> Member object *)
}.
Definition set_nickname (v : Js.val) (u : t) : t :=
  mk v (hopcount u) (timestamp u) (username u) (hostname u) (uid u)
     (servicestamp u) (usermodes u) (virtualhost u) (cloakedhost u) (ip u)
     (gecos u) (local u) (away u) (moddata u) (memberships u).
Definition set_username (v : Js.val) (u : t) : t :=
  mk (nickname u) (hopcount u) (timestamp u) v (hostname u) (uid u)
     (servicestamp u) (usermodes u) (virtualhost u) (cloakedhost u) (ip u)
     (gecos u) (local u) (away u) (moddata u) (memberships u).
Definition set_usermodes (v : Js.val) (u : t) : t :=
  mk (nickname u) (hopcount u) (timestamp u) (username u) (hostname u) (uid u)
     (servicestamp u) v (virtualhost u) (cloakedhost u) (ip u)
     (gecos u) (local u) (away u) (moddata u) (memberships u).
Definition set_virtualhost (v : Js.val) (u : t) : t :=
  mk (nickname u) (hopcount u) (timestamp u) (username u) (hostname u) (uid u)
     (servicestamp u) (usermodes u) v (cloakedhost u) (ip u)
     (gecos u) (local u) (away u) (moddata u) (memberships u).
Definition set_gecos (v : Js.val) (u : t) : t :=
  mk (nickname u) (hopcount u) (timestamp u) (username u) (hostname u) (uid u)
     (servicestamp u) (usermodes u) (virtualhost u) (cloakedhost u) (ip u)
     v (local u) (away u) (moddata u) (memberships u).
Definition set_moddata (v : option (gmap string string)) (u : t) : t :=
  mk (nickname u) (hopcount u) (timestamp u) (username u) (hostname u) (uid u)
     (servicestamp u) (usermodes u) (virtualhost u) (cloakedhost u) (ip u)
     (gecos u) (local u) (away u) v (memberships u).
Definition set_memberships (v : gmap string ref) (u : t) : t :=
  mk (nickname u) (hopcount u) (timestamp u) (username u) (hostname u) (uid u)
     (servicestamp u) (usermodes u) (virtualhost u) (cloakedhost u) (ip u)
     (gecos u) (local u) (away u) (moddata u) v.
End User.

Module Server.
Record t := mk {
  source : string;
  servername : Js.val;
  hopcount : Js.num;
  sid : Js.val;
  info : string;
  moddata : option (gmap string string)
}.
Definition set_moddata (v : option (gmap string string)) (s : t) : t :=
  mk (source s) (servername s) (hopcount s) (sid s) (info s) v.
End Server.

Module Channel.
Record t := mk {
  name : Js.val;
  timestamp : Js.num;
  modes : string;
  users : gmap string ref;  (* nickname -> Member object *)
  bans : list string;
  excepts : list string;
  inviteExcepts : list string
}.
Definition set_modes (v : string) (c : t) : t :=
  mk (name c) (timestamp c) v (users c) (bans c) (excepts c) (inviteExcepts c).
Definition set_users (v : gmap string ref) (c : t) : t :=
  mk (name c) (timestamp c) (modes c) v (bans c) (excepts c) (inviteExcepts c).
Definition set_bans (v : list string) (c : t) : t :=
  mk (name c) (timestamp c) (modes c) (users c) v (excepts c) (inviteExcepts c).
Definition set_excepts (v : list string) (c : t) : t :=
  mk (name c) (timestamp c) (modes c) (users c) (bans c) v (inviteExcepts c).
Definition set_inviteExcepts (v : list string) (c : t) : t :=
  mk (name c) (timestamp c) (modes c) (users c) (bans c) (excepts c) v.
End Channel.

Record Topic := mkTopic {
  topic_source : Js.val;
  topic_channel : Js.val;
  topic_timestamp : Js.num;
  topic_topic : Js.val
}.

(** A value of [_linkinfo]. *)
Inductive LinkVal := LStr (s : string) | LBool (b : bool) | LUndef.

(** One entry of the log per callback invocation, with its arguments. *)
Inductive Event :=
| onRaw (raw : string)
| onRegistered
| onSync
| onServerSynced (source : string)
| onPing (source : Js.val)
| onUID (source : string) (user : ref)
| onSID (server : Server.t)
| onNick (source : string) (nickname : Js.val) (timestamp : Js.num)
| onQuit (source quitMessage : string)
| onKill (source : string) (target : Js.val) (killMessage : string)
| onModData (source : string) (type target key value : Js.val)
| onSJoin (source : Js.val) (channel : ref)
| onTopic (topic : Topic)
| onChgHost (source : string) (virtualhost target : Js.val)
| onChgIdent (source : string) (ident target : Js.val)
| onChgName (source : string) (name target : Js.val)
| onPart (source : string) (channel : Js.val) (reason : string)
| onKick (source : string) (channel target : Js.val) (reason : string)
| onMode (source : string) (target modes : Js.val) (args : list string)
| onUMode (source : string) (modes : Js.val)
| onMessage (source : string) (target : Js.val) (message : string)
| onNotice (source : string) (target : Js.val) (message : string)
| onCommand (source : string) (command : Js.val) (args : list string)
| onVersion (source : string) (args : list string).

(** The client object.  [sid] is [_options.sid]; [registered_defers] is what
    the application's [onRegistered] callback answers; [_socket] says
    whether [connect] has assigned the socket, of which the model keeps
    nothing else. *)
Record Client := mkClient {
  sid : string;
  registered_defers : bool;
  _linkinfo : gmap string LinkVal;
  _buffer : string;
  _writebuffer : list string;
  _blockEOS : bool;
  users : gmap string ref;        (* uid -> User object *)
  usersByNick : gmap string ref;  (* nickname -> User object *)
  servers : gmap string Server.t;
  channels : gmap string ref;     (* channel name -> Channel object *)
  destroyed : bool;
  uheap : list User.t;
  cheap : list Channel.t;
  mheap : list Member.t;
  events : list Event;
  _socket : bool                  (* [this._socket] holds a socket *)
}.

Definition newClient (sid : string) : Client :=
  mkClient sid false ∅ EmptyString [] false ∅ ∅ ∅ ∅ false [] [] [] [] false.

(** Field updates of the client. *)
Definition set_linkinfo (v : gmap string LinkVal) (c : Client) : Client :=
  mkClient (sid c) (registered_defers c) v (_buffer c) (_writebuffer c)
    (_blockEOS c) (users c) (usersByNick c) (servers c) (channels c)
    (destroyed c) (uheap c) (cheap c) (mheap c) (events c) (_socket c).
Definition set_buffer (v : string) (c : Client) : Client :=
  mkClient (sid c) (registered_defers c) (_linkinfo c) v (_writebuffer c)
    (_blockEOS c) (users c) (usersByNick c) (servers c) (channels c)
    (destroyed c) (uheap c) (cheap c) (mheap c) (events c) (_socket c).
Definition set_writebuffer (v : list string) (c : Client) : Client :=
  mkClient (sid c) (registered_defers c) (_linkinfo c) (_buffer c) v
    (_blockEOS c) (users c) (usersByNick c) (servers c) (channels c)
    (destroyed c) (uheap c) (cheap c) (mheap c) (events c) (_socket c).
Definition set_blockEOS (v : bool) (c : Client) : Client :=
  mkClient (sid c) (registered_defers c) (_linkinfo c) (_buffer c)
    (_writebuffer c) v (users c) (usersByNick c) (servers c) (channels c)
    (destroyed c) (uheap c) (cheap c) (mheap c) (events c) (_socket c).
Definition set_users (v : gmap string ref) (c : Client) : Client :=
  mkClient (sid c) (registered_defers c) (_linkinfo c) (_buffer c)
    (_writebuffer c) (_blockEOS c) v (usersByNick c) (servers c) (channels c)
    (destroyed c) (uheap c) (cheap c) (mheap c) (events c) (_socket c).
Definition set_usersByNick (v : gmap string ref) (c : Client) : Client :=
  mkClient (sid c) (registered_defers c) (_linkinfo c) (_buffer c)
    (_writebuffer c) (_blockEOS c) (users c) v (servers c) (channels c)
    (destroyed c) (uheap c) (cheap c) (mheap c) (events c) (_socket c).
Definition set_servers (v : gmap string Server.t) (c : Client) : Client :=
  mkClient (sid c) (registered_defers c) (_linkinfo c) (_buffer c)
    (_writebuffer c) (_blockEOS c) (users c) (usersByNick c) v (channels c)
    (destroyed c) (uheap c) (cheap c) (mheap c) (events c) (_socket c).
Definition set_channels (v : gmap string ref) (c : Client) : Client :=
  mkClient (sid c) (registered_defers c) (_linkinfo c) (_buffer c)
    (_writebuffer c) (_blockEOS c) (users c) (usersByNick c) (servers c) v
    (destroyed c) (uheap c) (cheap c) (mheap c) (events c) (_socket c).
Definition set_destroyed (v : bool) (c : Client) : Client :=
  mkClient (sid c) (registered_defers c) (_linkinfo c) (_buffer c)
    (_writebuffer c) (_blockEOS c) (users c) (usersByNick c) (servers c)
    (channels c) v (uheap c) (cheap c) (mheap c) (events c) (_socket c).
Definition set_uheap (v : list User.t) (c : Client) : Client :=
  mkClient (sid c) (registered_defers c) (_linkinfo c) (_buffer c)
    (_writebuffer c) (_blockEOS c) (users c) (usersByNick c) (servers c)
    (channels c) (destroyed c) v (cheap c) (mheap c) (events c) (_socket c).
Definition set_cheap (v : list Channel.t) (c : Client) : Client :=
  mkClient (sid c) (registered_defers c) (_linkinfo c) (_buffer c)
    (_writebuffer c) (_blockEOS c) (users c) (usersByNick c) (servers c)
    (channels c) (destroyed c) (uheap c) v (mheap c) (events c) (_socket c).
Definition set_mheap (v : list Member.t) (c : Client) : Client :=
  mkClient (sid c) (registered_defers c) (_linkinfo c) (_buffer c)
    (_writebuffer c) (_blockEOS c) (users c) (usersByNick c) (servers c)
    (channels c) (destroyed c) (uheap c) (cheap c) v (events c) (_socket c).
Definition set_events (v : list Event) (c : Client) : Client :=
  mkClient (sid c) (registered_defers c) (_linkinfo c) (_buffer c)
    (_writebuffer c) (_blockEOS c) (users c) (usersByNick c) (servers c)
    (channels c) (destroyed c) (uheap c) (cheap c) (mheap c) v (_socket c).
Definition set_socket (v : bool) (c : Client) : Client :=
  mkClient (sid c) (registered_defers c) (_linkinfo c) (_buffer c)
    (_writebuffer c) (_blockEOS c) (users c) (usersByNick c) (servers c)
    (channels c) (destroyed c) (uheap c) (cheap c) (mheap c) (events c) v.

(** ** Methods: state and exceptions *)

Inductive JSError :=
| TypeError              (* a property read from [undefined] *)
| Error (msg : string).  (* [throw new Error(msg)] *)

Inductive Res (A : Type) := Ok (a : A) | Throw (e : JSError).
Arguments Ok {A} a.
Arguments Throw {A} e.

Definition M (A : Type) : Type := Client -> Res A * Client.

Definition ret {A} (a : A) : M A := fun c => (Ok a, c).

Definition bind {A B} (m : M A) (k : A -> M B) : M B :=
  fun c =>
    match m c with
    | (Ok a, c') => k a c'
    | (Throw e, c') => (Throw e, c')
    end.

Definition throw {A} (e : JSError) : M A := fun c => (Throw e, c).
Definition get : M Client := fun c => (Ok c, c).
Definition modify (f : Client -> Client) : M unit := fun c => (Ok tt, f c).

Declare Scope js_scope.
Delimit Scope js_scope with js.
Notation "'let*' x := m 'in' k" := (bind m (fun x => k))
  (at level 10, x pattern, m at level 100, k at level 200) : js_scope.
Notation "m ;; k" := (bind m (fun _ => k))
  (at level 100, k at level 200, right associativity) : js_scope.
Local Open Scope js_scope.

(** Reading a property of a value that may be [undefined]. *)
Definition defined {A} (o : option A) : M A :=
  match o with
  | Some a => ret a
  | None => throw TypeError
  end.

Definition emit (e : Event) : M unit :=
  modify (fun c => set_events (events c ++ [e]) c).

(** Object heaps: [new_*] allocates, [read_*] follows a reference,
    [update_*] assigns to fields of the object behind a reference. *)
Definition new_user (u : User.t) : M ref :=
  fun c => (Ok (length (uheap c)), set_uheap (uheap c ++ [u]) c).
Definition new_channel (ch : Channel.t) : M ref :=
  fun c => (Ok (length (cheap c)), set_cheap (cheap c ++ [ch]) c).
Definition new_member (m : Member.t) : M ref :=
  fun c => (Ok (length (mheap c)), set_mheap (mheap c ++ [m]) c).

Definition read_user (r : ref) : M User.t :=
  let* c := get in defined (uheap c !! r).
Definition read_channel (r : ref) : M Channel.t :=
  let* c := get in defined (cheap c !! r).
Definition read_member (r : ref) : M Member.t :=
  let* c := get in defined (mheap c !! r).

Definition update_user (r : ref) (f : User.t -> User.t) : M unit :=
  let* u := read_user r in
  modify (fun c => set_uheap (<[r := f u]> (uheap c)) c).
Definition update_channel (r : ref) (f : Channel.t -> Channel.t) : M unit :=
  let* ch := read_channel r in
  modify (fun c => set_cheap (<[r := f ch]> (cheap c)) c).
Definition update_member (r : ref) (f : Member.t -> Member.t) : M unit :=
  let* m := read_member r in
  modify (fun c => set_mheap (<[r := f m]> (mheap c)) c).

(** ** Outbound queue *)

Definition CRLF : string := String "013" (String "010" EmptyString).

Definition writeRaw (raw : string) : M unit :=
  modify (fun c => set_writebuffer (_writebuffer c ++ [raw +:+ CRLF]) c).

Definition write (message : string) : M unit :=
  let* c := get in
  writeRaw (":" +:+ sid c +:+ " " +:+ message).

(** [timestamp()]: the wall clock in seconds, [now], is an input. *)
Definition endOfSync (now : Z) : M unit :=
  write "EOS";;
  let* c := get in
  let networkname :=
    match _linkinfo c !! "NETWORKNAME" with
    | Some (LStr s) => s
    | Some (LBool true) => "true"
    | _ => EmptyString
    end in
  writeRaw ("NETINFO 0 " +:+ Js.Z_to_string now +:+ " 6100 * 0 0 0 :" +:+ networkname).

Fixpoint padStart3 (fuel : nat) (numeric : string) : string :=
  match fuel with
  | O => numeric
  | S k => if bool_decide (String.length numeric < 3)%nat
           then padStart3 k ("0" +:+ numeric) else numeric
  end.

Definition sendNumeric (target numeric message : string) : M unit :=
  let numeric := String.substring 0 3 (padStart3 3 numeric) in
  write (numeric +:+ " " +:+ target +:+ " " +:+ message).

(** ** Mode flags *)

Definition ModeToPrefix (mode : ascii) : option string :=
  match mode with
  | "v"%char => Some "+"
  | "h"%char => Some "%"
  | "o"%char => Some "@"
  | "a"%char => Some "~"
  | "q"%char => Some "*"
  | _ => None
  end.

(** The object [newModes]: its own keys in the order they were first set. *)
Definition Flags := list ascii.

Definition flag_set (mode : ascii) (o : Flags) : Flags :=
  if bool_decide (mode ∈ o) then o else o ++ [mode].

Definition flag_delete (mode : ascii) (o : Flags) : Flags :=
  filter (fun k => k ≠ mode) o.

Definition index_keys : list ascii :=
  ["0"; "1"; "2"; "3"; "4"; "5"; "6"; "7"; "8"; "9"]%char.

(** [Object.keys(o)]: keys that are array indices come first, in ascending
    order, then the others in insertion order. *)
Definition Object_keys (o : Flags) : list ascii :=
  filter (fun k => k ∈ o) index_keys ++ filter (fun k => k ∉ index_keys) o.

(** [for (let mode of s) { if (mode == "+") continue; newModes[mode] = true }] *)
Definition collect_flags (s : string) (o : Flags) : Flags :=
  foldl (fun o mode => if bool_decide (mode = "+"%char) then o else flag_set mode o)
        o (Js.chars s).

(** ** The dispatcher *)

(** The local variables [parts], [consumed] and [partsConsumed]. *)
Record Cursor := mkCursor {
  parts : list string;
  consumed : list Js.val;
  partsConsumed : nat
}.

Definition consumePart (k : Cursor) : Js.val * Cursor :=
  let part := parts k !! partsConsumed k in
  (part, mkCursor (parts k) (consumed k ++ [part]) (S (partsConsumed k))).

Definition reconstruct (k : Cursor) : string := Js.join_vals " " (consumed k).

(** [line.slice(reconstruct().length + 2)] *)
Definition tail_of (line : string) (k : Cursor) : string :=
  Js.slice (String.length (reconstruct k) + 2) line.

(** [parts.slice(partsConsumed)] *)
Definition rest_of (k : Cursor) : list string := drop (partsConsumed k) (parts k).

(** [this.users[key]] followed by a property access, and the same for
    [this.channels[key]].  Under a key that is not the dictionary's own and
    is the name of a property of [Object.prototype], the code goes on with
    the inherited property; the model knows the keys of the dictionary's
    own only. *)
Definition the_user (key : string) : M ref :=
  let* c := get in defined (users c !! key).

Definition the_channel (key : string) : M ref :=
  let* c := get in defined (channels c !! key).

(** *** Commands without a source *)

Definition handle_PING (k : Cursor) : M unit :=
  modify (fun c => set_writebuffer (("PONG " +:+ Js.show (parts k !! 1%nat)) :: _writebuffer c) c);;
  emit (onPing (parts k !! 1%nat)).

(** [this._linkinfo[key] = value || true] for each [key=value] token. *)
Definition handle_PROTOCTL (k : Cursor) : M unit :=
  modify (fun c =>
    set_linkinfo
      (foldl (fun li part =>
                let kv := Js.split "=" part in
                let value :=
                  match kv !! 1%nat with
                  | Some (String a v) => LStr (String a v)
                  | _ => LBool true
                  end in
                <[default EmptyString (kv !! 0%nat) := value]> li)
             (_linkinfo c) (drop 1 (parts k)))
      c).

Definition handle_TOPIC (line : string) (k : Cursor) : M unit :=
  emit (onTopic (mkTopic (parts k !! 2%nat) (parts k !! 1%nat)
                         (Js.parseInt (parts k !! 3%nat))
                         (Js.split (Js.show (parts k !! 3%nat) +:+ " :") line !! 1%nat))).

Definition link_val (v : Js.val) : LinkVal :=
  match v with Some s => LStr s | None => LUndef end.

Definition handle_NETINFO (now : Z) (line : string) (k : Cursor) : M unit :=
  let '(_, k) := consumePart k in
  let '(maxusers, k) := consumePart k in
  let '(timestamp, k) := consumePart k in
  let '(version, k) := consumePart k in
  let '(cloakhash, k) := consumePart k in
  let '(_, k) := consumePart k in
  let '(_, k) := consumePart k in
  let '(_, k) := consumePart k in
  let networkname := tail_of line k in
  modify (fun c =>
    set_linkinfo (<["NETWORKNAME" := LStr networkname]>
                 (<["CLOAKHASH" := link_val cloakhash]>
                 (<["VERSION" := link_val version]>
                 (<["TIMESTAMP" := link_val timestamp]>
                 (<["MAXUSERS" := link_val maxusers]> (_linkinfo c)))))) c);;
  let* c := get in
  (if _blockEOS c then ret tt else endOfSync now);;
  emit onSync.

Definition handle_SERVER : M unit :=
  emit onRegistered;;
  modify (fun c => set_blockEOS (registered_defers c) c).

(** A handler of a sourced command hands back the cursor it leaves, which
    the dispatcher needs for [parts.slice(partsConsumed)]. *)

(** *** Users and servers *)

(** UID files the new user under its UID and its nickname.  Under the key
    [__proto__] the code replaces the prototype of the dictionary, where
    the model adds a key. *)
Definition handle_UID (line source : string) (k : Cursor) : M Cursor :=
  let '(nickname, k) := consumePart k in
  let '(hopcount, k) := consumePart k in
  let '(timestamp, k) := consumePart k in
  let '(username, k) := consumePart k in
  let '(hostname, k) := consumePart k in
  let '(uid, k) := consumePart k in
  let '(servicestamp, k) := consumePart k in
  let '(usermodes, k) := consumePart k in
  let '(virtualhost, k) := consumePart k in
  let '(cloakedhost, k) := consumePart k in
  let '(ip, k) := consumePart k in
  let* user :=
    new_user (User.mk nickname (Js.parseInt hopcount) (Js.parseInt timestamp)
                      username hostname uid servicestamp usermodes virtualhost
                      cloakedhost ip (Some (tail_of line k)) None None None ∅) in
  modify (fun c => set_users (<[Js.show uid := user]> (users c)) c);;
  modify (fun c => set_usersByNick (<[Js.show nickname := user]> (usersByNick c)) c);;
  emit (onUID source user);;
  ret k.

Definition handle_SID (line source : string) (k : Cursor) : M Cursor :=
  let '(servername, k) := consumePart k in
  let '(hopcount, k) := consumePart k in
  let '(sid, k) := consumePart k in
  let server := Server.mk source servername (Js.parseInt hopcount) sid (tail_of line k) None in
  modify (fun c => set_servers (<[Js.show sid := server]> (servers c)) c);;
  emit (onSID server);;
  ret k.

Definition handle_NICK (source : string) (k : Cursor) : M Cursor :=
  let* user := the_user source in
  let* u := read_user user in
  modify (fun c => set_usersByNick (delete (Js.show (User.nickname u)) (usersByNick c)) c);;
  update_user user (User.set_nickname (parts k !! 2%nat));;
  modify (fun c => set_usersByNick (<[Js.show (parts k !! 2%nat) := user]> (usersByNick c)) c);;
  emit (onNick source (parts k !! 2%nat) (Js.parseInt (parts k !! 3%nat)));;
  ret k.

Definition handle_QUIT (line source : string) (k : Cursor) : M Cursor :=
  let* user := the_user source in
  let* u := read_user user in
  modify (fun c => set_usersByNick (delete (Js.show (User.nickname u)) (usersByNick c)) c);;
  modify (fun c => set_users (delete source (users c)) c);;
  emit (onQuit source (tail_of line k));;
  ret k.

Definition handle_KILL (line source : string) (k : Cursor) : M Cursor :=
  emit (onKill source (parts k !! 2%nat) (tail_of line k));;
  ret k.

(** The two branches of MD on the [moddata] of the object found. *)
Definition md_update (k : Cursor) (moddata : option (gmap string string))
  : option (gmap string string) :=
  let key := Js.show (parts k !! 4%nat) in
  match parts k !! 5%nat with
  | None => delete key <$> moddata
  | Some v => Some (<[key := Js.slice 1 v]> (default ∅ moddata))
  end.

Definition handle_MD (source : string) (k : Cursor) : M Cursor :=
  let* c := get in
  let key := Js.show (parts k !! 3%nat) in
  match users c !! key with
  | Some user =>
      update_user user (fun u => User.set_moddata (md_update k (User.moddata u)) u)
  | None =>
      match servers c !! key with
      | Some s =>
          modify (fun c =>
            set_servers (<[key := Server.set_moddata (md_update k (Server.moddata s)) s]> (servers c)) c)
      | None => ret tt
      end
  end;;
  emit (onModData source (parts k !! 2%nat) (parts k !! 3%nat) (parts k !! 4%nat) (parts k !! 5%nat));;
  ret k.

Definition handle_SETHOST (source : string) (k : Cursor) : M Cursor :=
  let* user := the_user source in
  update_user user (User.set_virtualhost (parts k !! 2%nat));;
  emit (onChgHost source (parts k !! 2%nat) None);;
  ret k.

Definition handle_SETIDENT (source : string) (k : Cursor) : M Cursor :=
  let* user := the_user source in
  update_user user (User.set_username (parts k !! 2%nat));;
  emit (onChgIdent source (parts k !! 2%nat) None);;
  ret k.

Definition handle_SETNAME (line source : string) (k : Cursor) : M Cursor :=
  let name := Js.split (Js.show (parts k !! 2%nat) +:+ " :") line !! 1%nat in
  let* user := the_user source in
  update_user user (User.set_gecos name);;
  emit (onChgName source name None);;
  ret k.

Definition handle_CHGHOST (source : string) (k : Cursor) : M Cursor :=
  let* user := the_user (Js.show (parts k !! 2%nat)) in
  update_user user (User.set_virtualhost (parts k !! 3%nat));;
  emit (onChgHost source (parts k !! 3%nat) (parts k !! 2%nat));;
  ret k.

Definition handle_CHGIDENT (source : string) (k : Cursor) : M Cursor :=
  let* user := the_user (Js.show (parts k !! 2%nat)) in
  update_user user (User.set_username (parts k !! 3%nat));;
  emit (onChgIdent source (parts k !! 3%nat) (parts k !! 2%nat));;
  ret k.

Definition handle_CHGNAME (line source : string) (k : Cursor) : M Cursor :=
  let name := Js.split (Js.show (parts k !! 3%nat) +:+ " :") line !! 1%nat in
  let* user := the_user (Js.show (parts k !! 2%nat)) in
  update_user user (User.set_gecos name);;
  emit (onChgName source name (parts k !! 2%nat));;
  ret k.

(** *** SJOIN *)

(** [\w] *)
Definition is_word (c : ascii) : bool :=
  let n := N_of_ascii c in
  ((48 <=? n) && (n <=? 57) || (65 <=? n) && (n <=? 90)
   || (97 <=? n) && (n <=? 122) || (n =? 95))%N.

(** [[0-9A-Z]] *)
Definition is_id_char (c : ascii) : bool :=
  let n := N_of_ascii c in
  ((48 <=? n) && (n <=? 57) || (65 <=? n) && (n <=? 90))%N.

(** The longest run of non-word characters at the head, and the rest. *)
Fixpoint span_nonword (s : string) : string * string :=
  match s with
  | EmptyString => (EmptyString, EmptyString)
  | String c s' =>
      if is_word c then (EmptyString, s)
      else let '(p, r) := span_nonword s' in (String c p, r)
  end.

(** Groups 1 and 2 of the match of a member token against the pattern
    "a run of non-word characters, then three or more characters of 0-9A-Z
    up to the end of the token", with the fallback of the source when there
    is no match: empty prefix, whole token.  The two character classes are
    disjoint, so group 1 can only be the longest run of non-word
    characters. *)
Definition member_match (i : string) : string * string :=
  let '(p, r) := span_nonword i in
  if bool_decide (3 <= String.length r)%nat && forallb is_id_char (Js.chars r)
  then (p, r) else (EmptyString, i).

Definition QUOTE : string := String "034" EmptyString.

(** The body of [for (let i of sjoinbuffer)]. *)
Definition sjoin_token (name : string) (channel : ref) (unsafe : bool) (i : string) : M unit :=
  if bool_decide (i = EmptyString) then ret tt
  else if Js.startsWith "&" i then
    update_channel channel (fun ch => Channel.set_bans (Channel.bans ch ++ [Js.slice 1 i]) ch)
  else if Js.startsWith QUOTE i then
    update_channel channel (fun ch => Channel.set_excepts (Channel.excepts ch ++ [Js.slice 1 i]) ch)
  else if Js.startsWith "'" i then
    update_channel channel
      (fun ch => Channel.set_inviteExcepts (Channel.inviteExcepts ch ++ [Js.slice 1 i]) ch)
  else
    let '(p, uid) := member_match i in
    let prefix := if unsafe then EmptyString else p in
    let* user := the_user uid in
    let* u := read_user user in
    let* membership := new_member (Member.mk (User.uid u) prefix) in
    update_channel channel
      (fun ch => Channel.set_users (<[Js.show (User.nickname u) := membership]> (Channel.users ch)) ch);;
    update_user user
      (fun u => User.set_memberships (<[name := membership]> (User.memberships u)) u).

Fixpoint sjoin_tokens (name : string) (channel : ref) (unsafe : bool)
    (sjoinbuffer : list string) : M unit :=
  match sjoinbuffer with
  | [] => ret tt
  | i :: rest =>
      sjoin_token name channel unsafe i;;
      sjoin_tokens name channel unsafe rest
  end.

(** The timestamp rules on an existing channel; the result is [unsafe]. *)
Definition sjoin_resolve (channel incumbent : ref) (timestamp : Js.num) (modes : string) : M bool :=
  let* inc := read_channel incumbent in
  if Js.num_eq timestamp (Channel.timestamp inc) then
    let newModes := collect_flags (Channel.modes inc) (collect_flags modes []) in
    update_channel channel (Channel.set_modes (Js.of_chars (Object_keys newModes)));;
    ret false
  else if Js.num_lt timestamp (Channel.timestamp inc) then
    update_channel channel (Channel.set_modes modes);;
    ret false
  else ret true.

(** SJOIN once the timestamp, the name and the modes have been read off
    the line; [sjoinbuffer] is the token list after [" :"], undefined when
    the line has no such part. *)
Definition sjoin (source : string) (timestamp : Js.num) (name modes : string)
    (sjoinbuffer : option (list string)) : M unit :=
  let* c := get in
  let* channel :=
    match channels c !! name with
    | Some r => ret r
    | None => new_channel (Channel.mk (Some name) timestamp modes ∅ [] [] [])
    end in
  let* unsafe :=
    match channels c !! name with
    | Some incumbent => sjoin_resolve channel incumbent timestamp modes
    | None => ret false
    end in
  let* sjoinbuffer := defined sjoinbuffer in
  sjoin_tokens name channel unsafe sjoinbuffer;;
  modify (fun c => set_channels (<[name := channel]> (channels c)) c);;
  emit (onSJoin (Some source) channel).

(** The name is a defined token whenever the token after it is. *)
Definition handle_SJOIN (line source : string) (k : Cursor) : M Cursor :=
  let '(timestamp, k) := consumePart k in
  let '(name, k) := consumePart k in
  let* next := defined (parts k !! partsConsumed k) in
  let '(modes, k) :=
    if Js.startsWith "+" next
    then let '(m, k') := consumePart k in (Js.show m, k')
    else (EmptyString, k) in
  let tail := Js.split (reconstruct k +:+ " :") line !! 1%nat in
  sjoin source (Js.parseInt timestamp) (Js.show name) modes
        ((fun t => Js.split " " (Js.trim t)) <$> tail);;
  ret k.

(** *** PART, KICK, SAJOIN, SAPART *)

(** [delete user.memberships[channel]], then
    [delete this.channels[channel].users[user.nickname]], then the removal
    of a channel left without members. *)
Definition leave (user : ref) (channel : Js.val) : M unit :=
  let key := Js.show channel in
  update_user user (fun u => User.set_memberships (delete key (User.memberships u)) u);;
  let* u := read_user user in
  let* ch := the_channel key in
  update_channel ch
    (fun o => Channel.set_users (delete (Js.show (User.nickname u)) (Channel.users o)) o);;
  let* o := read_channel ch in
  if bool_decide (Channel.users o = ∅)
  then modify (fun c => set_channels (delete key (channels c)) c)
  else ret tt.

Definition handle_PART (line source : string) (k : Cursor) : M Cursor :=
  let '(channel, k) := consumePart k in
  let* user := the_user source in
  leave user channel;;
  emit (onPart source channel (tail_of line k));;
  ret k.

Definition handle_KICK (line source : string) (k : Cursor) : M Cursor :=
  let '(channel, k) := consumePart k in
  let '(target, k) := consumePart k in
  let* user := the_user (Js.show target) in
  leave user channel;;
  emit (onKick source channel target (tail_of line k));;
  ret k.

(** No cursor comes back when the handler returns from [_lineHandler], as
    it does for a user that is not local. *)
Definition handle_SAJOIN (now : Z) (k : Cursor) : M (option Cursor) :=
  let '(target, k) := consumePart k in
  let '(channel, k) := consumePart k in
  let key := Js.show channel in
  let* user := the_user (Js.show target) in
  let* u := read_user user in
  if negb (default false (User.local u)) then ret None
  else
    let* c := get in
    let prefix := match channels c !! key with Some _ => EmptyString | None => "@" end in
    let* membership := new_member (Member.mk (User.uid u) prefix) in
    let* channelObj :=
      match channels c !! key with
      | Some r => ret r
      | None => new_channel (Channel.mk channel (Js.Num now) "+nt" ∅ [] [] [])
      end in
    update_channel channelObj
      (fun o => Channel.set_users (<[Js.show (User.nickname u) := membership]> (Channel.users o)) o);;
    update_user user
      (fun u => User.set_memberships (<[key := membership]> (User.memberships u)) u);;
    let* o := read_channel channelObj in
    write ("SJOIN " +:+ Js.num_to_string (Channel.timestamp o) +:+ " "
           +:+ Js.show (Channel.name o) +:+ " " +:+ Channel.modes o +:+ " :"
           +:+ prefix +:+ Js.show (User.uid u));;
    emit (onSJoin target channelObj);;
    ret (Some k).

Definition handle_SAPART (line : string) (k : Cursor) : M Cursor :=
  let '(target, k) := consumePart k in
  let '(channel, k) := consumePart k in
  let* user := the_user (Js.show target) in
  leave user channel;;
  let reason := tail_of line k in
  let reason :=
    match reason with
    | EmptyString => EmptyString
    | _ => "SAPart:" +:+ reason
    end in
  writeRaw (":" +:+ Js.show target +:+ " PART " +:+ Js.show channel +:+ " :" +:+ reason);;
  ret k.

(** *** MODE *)

(** [args.shift()]: the first argument, if any, and the remaining ones. *)
Definition shift (args : list string) : Js.val * list string :=
  (head args, tail args).

(** [if (!arg)]: undefined or empty. *)
Definition falsy (arg : Js.val) : bool :=
  match arg with
  | None | Some EmptyString => true
  | _ => false
  end.

(** One step of [for (let mode of addModes)]. *)
Definition mode_add (channelObj : ref) (mode : ascii)
    (st : list string * Flags) : M (list string * Flags) :=
  let '(args, newModes) := st in
  if bool_decide (mode = "+"%char) then ret (args, newModes)
  else if Js.includes "vhoaq" mode then
    let '(arg, args) := shift args in
    if falsy arg then ret (args, newModes)
    else
      let* o := read_channel channelObj in
      let* member := defined (Channel.users o !! Js.show arg) in
      update_member member
        (fun m => Member.set_prefix (Member.prefix m +:+ Js.show (ModeToPrefix mode)) m);;
      ret (args, newModes)
  else if Js.includes "beI" mode then
    let '(arg, args) := shift args in
    if falsy arg then ret (args, newModes)
    else
      update_channel channelObj
        (fun o =>
           match mode with
           | "b"%char => Channel.set_bans (Channel.bans o ++ [Js.show arg]) o
           | "e"%char => Channel.set_excepts (Channel.excepts o ++ [Js.show arg]) o
           | "I"%char => Channel.set_inviteExcepts (Channel.inviteExcepts o ++ [Js.show arg]) o
           | _ => o
           end);;
      ret (args, newModes)
  else ret (args, flag_set mode newModes).

(** [list.filter((x) => x !== arg)] *)
Definition without (arg : Js.val) (l : list string) : list string :=
  filter (fun x => Some x ≠ arg) l.

(** One step of [for (let mode of removeModes)]. *)
Definition mode_remove (channelObj : ref) (mode : ascii)
    (st : list string * Flags) : M (list string * Flags) :=
  let '(args, newModes) := st in
  if bool_decide (mode = "+"%char) then ret (args, newModes)
  else if Js.includes "vhoaq" mode then
    let '(arg, args) := shift args in
    if falsy arg then ret (args, newModes)
    else
      let* o := read_channel channelObj in
      let* member := defined (Channel.users o !! Js.show arg) in
      update_member member
        (fun m => Member.set_prefix
                    (Js.replace (Js.show (ModeToPrefix mode)) EmptyString (Member.prefix m)) m);;
      ret (args, newModes)
  else if Js.includes "beI" mode then
    let '(arg, args) := shift args in
    update_channel channelObj
      (fun o =>
         match mode with
         | "b"%char => Channel.set_bans (without arg (Channel.bans o)) o
         | "e"%char => Channel.set_excepts (without arg (Channel.excepts o)) o
         | "I"%char => Channel.set_inviteExcepts (without arg (Channel.inviteExcepts o)) o
         | _ => o
         end);;
    ret (args, newModes)
  else ret (args, flag_delete mode newModes).

(** A [for ... of] loop over the characters of a mode string. *)
Fixpoint mode_loop (step : ascii -> list string * Flags -> M (list string * Flags))
    (modes : list ascii) (st : list string * Flags) : M (list string * Flags) :=
  match modes with
  | [] => ret st
  | mode :: rest => let* st := step mode st in mode_loop step rest st
  end.

(** [if (source.length == 3) { args.pop() }]: a server is the source, and
    the last argument is a timestamp. *)
Definition mode_args (source : string) (args : list string) : list string :=
  if bool_decide (String.length source = 3%nat) then removelast args else args.

(** [modes.split("-")[0].slice(1)] *)
Definition addModes_of (modes : string) : string :=
  Js.slice 1 (default EmptyString (Js.split "-" modes !! 0%nat)).

(** [modes.split("-")[1] || ""] *)
Definition removeModes_of (modes : string) : string :=
  default EmptyString (Js.split "-" modes !! 1%nat).

(** The last three statements of the handler. *)
Definition mode_finish (source : string) (target modes : Js.val) (all_args : list string)
    (channelObj : ref) (newModes : Flags) : M unit :=
  update_channel channelObj (Channel.set_modes ("+" +:+ Js.of_chars (Object_keys newModes)));;
  modify (fun c => set_channels (<[Js.show target := channelObj]> (channels c)) c);;
  emit (onMode source target modes all_args).

(** MODE on a channel, with the target, the mode token and the arguments
    as the dispatcher reads them. *)
Definition mode (source : string) (target modes : Js.val) (args : list string) : M unit :=
  let* channelObj := the_channel (Js.show target) in
  let* _ := read_channel channelObj in
  let* modes_s := defined modes in
  let newModes := collect_flags modes_s [] in
  let* st := mode_loop (mode_add channelObj) (Js.chars (addModes_of modes_s))
                       (mode_args source args, newModes) in
  let* st := mode_loop (mode_remove channelObj) (Js.chars (removeModes_of modes_s)) st in
  mode_finish source target modes args channelObj st.2.

Definition handle_MODE (source : string) (k : Cursor) : M Cursor :=
  let '(target, k) := consumePart k in
  let '(modes, k) := consumePart k in
  mode source target modes (rest_of k);;
  ret k.

(** *** UMODE2 and the rest *)

(** [for (let mode of modes)] of UMODE2, with its [add] flag. *)
Definition umode_step (st : bool * Flags) (mode : ascii) : bool * Flags :=
  let '(add, newModes) := st in
  if bool_decide (mode = "+"%char) then (true, newModes)
  else if bool_decide (mode = "-"%char) then (false, newModes)
  else if add then (add, flag_set mode newModes)
  else (add, flag_delete mode newModes).

Definition handle_UMODE2 (source : string) (k : Cursor) : M Cursor :=
  let* c := get in
  let candidate :=
    match users c !! source with
    | Some r => Some r
    | None => usersByNick c !! source
    end in
  let '(modes, k) := consumePart k in
  let* user := defined candidate in
  let* u := read_user user in
  let* usermodes := defined (User.usermodes u) in
  let newModes := collect_flags usermodes [] in
  let* modes_s := defined modes in
  let st := foldl umode_step (true, newModes) (Js.chars modes_s) in
  update_user user (User.set_usermodes (Some ("+" +:+ Js.of_chars (Object_keys st.2))));;
  modify (fun c => set_users (<[Js.show (User.uid u) := user]> (users c)) c);;
  emit (onUMode source modes);;
  ret k.

Definition handle_PRIVMSG (line source : string) (k : Cursor) : M Cursor :=
  let '(target, k) := consumePart k in
  emit (onMessage source target (tail_of line k));;
  ret k.

Definition handle_NOTICE (line source : string) (k : Cursor) : M Cursor :=
  let '(target, k) := consumePart k in
  emit (onNotice source target (tail_of line k));;
  ret k.

(** The default [onVersion] answers with numeric 351. *)
Definition handle_VERSION (source : string) (k : Cursor) : M Cursor :=
  emit (onVersion source (rest_of k));;
  sendNumeric source "351"
    "Unreal S2S Client - https://github.com/craftxbox/unrealircd-s2s-client";;
  ret k.

(** *** [_lineHandler] *)

Definition sourced (now : Z) (line : string) (k : Cursor) : M unit :=
  let '(src, k) := consumePart k in
  let source := Js.slice 1 (Js.show src) in
  let '(command, k) := consumePart k in
  let go (m : M Cursor) : M (option Cursor) := let* k := m in ret (Some k) in
  let* after :=
    match command with
    | Some "EOS" => emit (onServerSynced source);; ret (Some k)
    | Some "UID" => go (handle_UID line source k)
    | Some "SID" => go (handle_SID line source k)
    | Some "NICK" => go (handle_NICK source k)
    | Some "QUIT" => go (handle_QUIT line source k)
    | Some "KILL" => go (handle_KILL line source k)
    | Some "MD" => go (handle_MD source k)
    | Some "SETHOST" => go (handle_SETHOST source k)
    | Some "SETIDENT" => go (handle_SETIDENT source k)
    | Some "SETNAME" => go (handle_SETNAME line source k)
    | Some "CHGHOST" => go (handle_CHGHOST source k)
    | Some "CHGIDENT" => go (handle_CHGIDENT source k)
    | Some "CHGNAME" => go (handle_CHGNAME line source k)
    | Some "SJOIN" => go (handle_SJOIN line source k)
    | Some "PART" => go (handle_PART line source k)
    | Some "KICK" => go (handle_KICK line source k)
    | Some "SAJOIN" => handle_SAJOIN now k
    | Some "SAPART" => go (handle_SAPART line k)
    | Some "MODE" => go (handle_MODE source k)
    | Some "UMODE2" => go (handle_UMODE2 source k)
    | Some "PRIVMSG" => go (handle_PRIVMSG line source k)
    | Some "NOTICE" => go (handle_NOTICE line source k)
    | Some "VERSION" => go (handle_VERSION source k)
    | _ => ret (Some k)
    end in
  match after with
  | Some k => emit (onCommand source command (rest_of k))
  | None => ret tt
  end.

Definition _lineHandler (now : Z) (line : string) : M unit :=
  let* c := get in
  if destroyed c then ret tt
  else
    emit (onRaw line);;
    let k := mkCursor (Js.split " " line) [] 0 in
    let first := default EmptyString (parts k !! 0%nat) in
    (if bool_decide (first = "PING") then handle_PING k else ret tt);;
    (if bool_decide (first = "PROTOCTL") then handle_PROTOCTL k else ret tt);;
    (if bool_decide (first = "TOPIC") then handle_TOPIC line k else ret tt);;
    (if bool_decide (first = "NETINFO") then handle_NETINFO now line k else ret tt);;
    (if bool_decide (first = "SERVER") then handle_SERVER else ret tt);;
    (if Js.startsWith ":" first then sourced now line k else ret tt).

(** ** The framer: [_dataHandler] *)

(** The buffer after a chunk, and the lines handed to [_lineHandler]. *)
Definition frame (buffer data : string) : list string * string :=
  let buffer := buffer +:+ data in
  let lines := Js.split CRLF buffer in
  if bool_decide (1 < length lines)%nat then
    if bool_decide (last lines = Some EmptyString)
    then (lines, EmptyString)
    else (removelast lines, default EmptyString (last lines))
  else ([], buffer).

Fixpoint deliver (now : Z) (lines : list string) : M unit :=
  match lines with
  | [] => ret tt
  | line :: rest => _lineHandler now line;; deliver now rest
  end.

Definition _dataHandler (now : Z) (data : string) : M unit :=
  let* c := get in
  if destroyed c then ret tt
  else
    let '(lines, buffer) := frame (_buffer c) data in
    modify (set_buffer buffer);;
    deliver now lines.

(** ** [sjoinToChannel] *)

(** The callback of [members.forEach], threading the local [buffer].  The
    two guards are lookups among the keys of the dictionaries' own; the
    code finds an inherited property as well, under a UID or a channel name
    that is the name of one. *)
Definition sjoin_member (channel : ref) (buffer : string) (member : ref) : M string :=
  let* m := read_member member in
  let* o := read_channel channel in
  let name := Js.show (Channel.name o) in
  let* c := get in
  match users c !! Js.show (Member.uid m) with
  | None => throw (Error ("User " +:+ Js.show (Member.uid m) +:+ " not registered"))
  | Some user =>
      let* u := read_user user in
      match User.memberships u !! name with
      | Some _ =>
          throw (Error ("User " +:+ Js.show (Member.uid m) +:+ " is already in channel " +:+ name))
      | None =>
          update_channel channel
            (fun o => Channel.set_users (<[Js.show (User.nickname u) := member]> (Channel.users o)) o);;
          update_user user
            (fun u => User.set_memberships (<[name := member]> (User.memberships u)) u);;
          ret (buffer +:+ Member.prefix m +:+ Js.show (Member.uid m) +:+ " ")
      end
  end.

Fixpoint sjoin_members (channel : ref) (buffer : string) (members : list ref) : M string :=
  match members with
  | [] => ret buffer
  | member :: rest =>
      let* buffer := sjoin_member channel buffer member in
      sjoin_members channel buffer rest
  end.

Definition sjoinToChannel (now : Z) (channel : ref) (members : list ref) : M unit :=
  let* o := read_channel channel in
  let name := Js.show (Channel.name o) in
  let* c := get in
  match channels c !! name with
  | Some _ => ret tt
  | None => modify (fun c => set_channels (<[name := channel]> (channels c)) c)
  end;;
  let buffer := "SJOIN " +:+ Js.Z_to_string now +:+ " " +:+ name +:+ " " +:+ Channel.modes o +:+ " :" in
  let* buffer := sjoin_members channel buffer members in
  write buffer.

(** ** The other operations of the client *)

(** [registerUser]: the UID line.  [Array.prototype.join] prints an
    undefined element as the empty string, a template or a [+] prints it as
    [undefined]. *)
Definition uid_message (u : User.t) : string :=
  Js.join_vals " "
    [Some "UID"; User.nickname u;
     Some (Js.num_to_string (User.hopcount u));
     Some (Js.num_to_string (User.timestamp u));
     User.username u; User.hostname u; User.uid u; User.servicestamp u;
     User.usermodes u; User.virtualhost u; User.cloakedhost u; User.ip u;
     Some (":" +:+ Js.show (User.gecos u))].

(** The body of [for (let name in user.memberships)].  The channel object
    made for a name that [channels] does not have is used for the line and
    dropped. *)
Definition register_sjoin (now : Z) (user : ref) (name : string) : M unit :=
  let* u := read_user user in
  let* c := get in
  let* header :=
    match channels c !! name with
    | Some channel =>
        let* o := read_channel channel in
        ret [Some (Js.num_to_string (Channel.timestamp o)); Channel.name o;
             Some (Channel.modes o)]
    | None => ret [Some (Js.Z_to_string now); Some name; Some "+nt"]
    end in
  let* membership := defined (User.memberships u !! name) in
  let* m := read_member membership in
  write (Js.join_vals " "
           (Some "SJOIN" :: header
            ++ [Some (":" +:+ Member.prefix m +:+ Js.show (Member.uid m))])).

Fixpoint register_sjoins (now : Z) (user : ref) (names : list string) : M unit :=
  match names with
  | [] => ret tt
  | name :: rest => register_sjoin now user name;; register_sjoins now user rest
  end.

(** [registerUser(user, noSJoin)].  [names] is the sequence of keys that
    [for ... in] visits in [user.memberships]; the dictionary of the model
    does not record the order in which its keys were added. *)
Definition registerUser (now : Z) (user : ref) (noSJoin : bool)
    (names : list string) : M unit :=
  let* u := read_user user in
  write (uid_message u);;
  modify (fun c => set_users (<[Js.show (User.uid u) := user]> (users c)) c);;
  modify (fun c => set_usersByNick (<[Js.show (User.nickname u) := user]> (usersByNick c)) c);;
  if noSJoin then ret tt else register_sjoins now user names.

Definition registerServer (server : Server.t) : M unit :=
  write (Js.join_vals " "
           [Some "SID"; Server.servername server;
            Some (Js.num_to_string (Server.hopcount server));
            Server.sid server; Some (":" +:+ Server.info server)]).

Definition sendMessage (source target message : string) : M unit :=
  writeRaw (":" +:+ source +:+ " PRIVMSG " +:+ target +:+ " :" +:+ message).

Definition sendNotice (source target message : string) : M unit :=
  writeRaw (":" +:+ source +:+ " NOTICE " +:+ target +:+ " :" +:+ message).

(** [serverToUser]; the [ip] is the base-64 text of four zero bytes. *)
Definition serverToUser (server : Server.t) : User.t :=
  User.mk (Server.servername server) (Server.hopcount server) (Js.Num 0)
          (Server.servername server) (Server.servername server)
          (Server.sid server) (Some "*") (Some "S")
          (Server.servername server) (Server.servername server)
          (Some "AAAAAA==") (Some (Server.info server)) None None None ∅.

(** One turn of the loop of [_startWriter]: the text written to the socket,
    if any, and the delay in milliseconds before the next turn. *)
Definition writer_turn : M (option string * Z) :=
  let* c := get in
  let* written :=
    if bool_decide (0 < length (_writebuffer c))%nat then
      modify (set_writebuffer (drop 64 (_writebuffer c)));;
      ret (Some (Js.join EmptyString (take 64 (_writebuffer c))))
    else ret None in
  let* c := get in
  ret (written, if bool_decide (0 < length (_writebuffer c))%nat then 100 else 1).

(** Turns of the writer with nothing else running in between, and the texts
    written. *)
Fixpoint writer_turns (n : nat) : M (list string) :=
  match n with
  | O => ret []
  | S n =>
      let* turn := writer_turn in
      let* more := writer_turns n in
      ret (match turn.1 with Some data => data :: more | None => more end)
  end.

(** The options of the constructor other than [sid]. *)
Inductive AuthMethod := pass | spkifp.

Record S2SClientOptions := mkOptions {
  host : string;
  port : Z;
  hostname : string;
  authMethod : AuthMethod;
  protocolExtensions : option (list string);
  serverDescription : option string;
  password : option string;
  keyPath : option string;
  certPath : option string
}.

(** What a method does to the socket, and the [onDisconnected] callback. *)
Inductive SocketCall :=
| socket_end
| onDisconnected.

(** [disconnect(reason, graceful)].  [uids] is [Object.keys(this.users)]:
    the keys of [users] in the order of JavaScript, which the dictionary of
    the model does not record.  [this._socket.end()] is a call on
    [undefined] when [connect] has not assigned the socket. *)
Definition disconnect (o : S2SClientOptions) (uids : list string)
    (reason : option string) (graceful : bool) : M (list SocketCall) :=
  let reason := default "Software Requested Disconnect" reason in
  let* c := get in
  (if graceful then
     foldr (fun uid rest => writeRaw (":" +:+ uid +:+ " QUIT :Server Shutting Down.");; rest)
           (ret tt) (filter (fun uid => Js.startsWith (sid c) uid = true) uids)
   else ret tt);;
  writeRaw (":" +:+ sid c +:+ " SQUIT " +:+ hostname o +:+ " :" +:+ reason);;
  (if _socket c then ret tt else throw TypeError);;
  modify (set_destroyed true);;
  ret [socket_end; onDisconnected].

(** The callback [connect] hands to [tls.connect], which queues the
    handshake; [unix_time] is the wall clock in seconds.  Attaching the
    listeners of the socket and starting the writer are not state of the
    model. *)
Definition on_connect (o : S2SClientOptions) (unix_time : Z) : M unit :=
  match authMethod o with
  | pass => writeRaw ("PASS :" +:+ Js.show (password o))
  | spkifp => writeRaw "PASS :*"
  end;;
  let protostring := Js.join " " (default [] (protocolExtensions o)) in
  writeRaw ("PROTOCTL NOQUIT NICKv2 SJOIN SJ3 NICKIP TKLEXT2 NEXTBANS " +:+ protostring);;
  writeRaw ("PROTOCTL TS=" +:+ Js.Z_to_string unix_time);;
  let* c := get in
  writeRaw ("PROTOCTL EAUTH=" +:+ hostname o +:+ " SID=" +:+ sid c);;
  writeRaw ("SERVER " +:+ hostname o +:+ " 1 : "
            +:+ match serverDescription o with
                | Some (String a d) => String a d
                | _ => "craftxbox/unrealircd-s2s-client@gh"
                end).

(** [connect]: the two checks, and the assignment of the socket.  Reading
    the key and the certificate and opening the connection are outside the
    model. *)
Definition connect (o : S2SClientOptions) : M unit :=
  let* c := get in
  if destroyed c then throw (Error "Client is destroyed")
  else
    match authMethod o with
    | spkifp =>
        if falsy (keyPath o) || falsy (certPath o)
        then throw (Error "Key and Cert path required for spkifp authMethod")
        else ret tt
    | pass => ret tt
    end;;
    modify (set_socket true).

(** ** Sample sessions *)

(** A client that has seen the burst of an empty channel [#a]. *)
Definition one_channel : Client :=
  (deliver 0 [":001 SJOIN 100 #a +nt :"] (newClient "999")).2.

(** A client that has seen one user, [001AAAAAA] with nickname [alice], and
    the burst of the empty channel [#a]. *)
Definition user_and_channel : Client :=
  (deliver 0 [":001 UID alice 0 90 al host 001AAAAAA * +i vhost chost ip :Alice";
              ":001 SJOIN 100 #a +nt :"] (newClient "999")).2.

(** The same client after the burst [#a] has been joined by [alice] as an
    operator with voice, in that order. *)
Definition alice_in_channel : Client :=
  (deliver 0 [":001 UID alice 0 90 al host 001AAAAAA * +i vhost chost ip :Alice";
              ":001 SJOIN 100 #a +nt :@+001AAAAAA"] (newClient "999")).2.

(** The client [user_and_channel] together with a [Member] object that the
    application has made for [alice]. *)
Definition with_app_member : Client :=
  set_mheap [Member.mk (Some "001AAAAAA") "@"] user_and_channel.


(** A client that has seen two users, [alice] and [bob], and the burst of
    the empty channel [#a], together with two [Member] objects of the
    application, one for each user. *)
Definition with_two_users : Client :=
  set_mheap [Member.mk (Some "001AAAAAA") "@"; Member.mk (Some "001BBBBBB") EmptyString]
    (deliver 0 [":001 UID alice 0 90 al host 001AAAAAA * +i vhost chost ip :Alice";
                ":001 UID bob 0 95 b host 001BBBBBB * +i vhost chost ip :Bob";
                ":001 SJOIN 100 #a +nt :"] (newClient "999")).2.

(** * Vocabulary of the properties *)

(** ** Keys that every object inherits, and numbers that print exactly *)

(** The names of the properties of [Object.prototype].  A dictionary of the
    code answers a read under one of them that is not a key of its own with
    the inherited property, and an assignment under [__proto__] replaces
    its prototype instead of adding a key. *)
Definition Object_prototype : list string :=
  ["constructor"; "__defineGetter__"; "__defineSetter__"; "hasOwnProperty";
   "__lookupGetter__"; "__lookupSetter__"; "isPrototypeOf"; "propertyIsEnumerable";
   "toString"; "valueOf"; "__proto__"; "toLocaleString"].

(** [s.includes(k)] *)
Fixpoint occurs (k s : string) : bool :=
  String.prefix k s ||
  match s with
  | EmptyString => false
  | String _ rest => occurs k rest
  end.

(** A line in which none of these names occurs.  Every key that a handler
    takes from a line is a piece of the line, or the text [undefined] where
    the line is short, so on such a line it reads no inherited property and
    assigns nothing under [__proto__]. *)
Definition ordinary (line : string) : Prop :=
  Forall (fun k => occurs k line = false) Object_prototype.

(** No dictionary that indexes users, channels or members has the key
    [__proto__]: the dictionaries of the code still have the prototype they
    were made with. *)
Definition prototypes_intact (c : Client) : Prop :=
  users c !! "__proto__" = None /\ usersByNick c !! "__proto__" = None /\
  channels c !! "__proto__" = None /\
  Forall (fun u => User.memberships u !! "__proto__" = None) (uheap c) /\
  Forall (fun o => Channel.users o !! "__proto__" = None) (cheap c).

(** A number that [toString] prints in plain decimal and [parseInt] reads
    back exactly: an integer below 2^53 in absolute value. *)
Definition safe_integer (n : Js.num) : Prop :=
  exists z, n = Js.Num z /\ - 2 ^ 53 < z < 2 ^ 53.

(** The name, timestamp and modes of a channel object, which the token loop
    never assigns. *)
Definition same_header (o o' : Channel.t) : Prop :=
  Channel.name o' = Channel.name o /\
  Channel.timestamp o' = Channel.timestamp o /\
  Channel.modes o' = Channel.modes o.

(** The flags a mode string denotes: its characters other than [+]. *)
Definition flag_of (s : string) (f : ascii) : Prop :=
  f ∈ Js.chars s /\ f ≠ "+"%char.

(** What a token of the burst is, by the tests of the loop body. *)
Definition ban_of (i : string) : option string :=
  if Js.startsWith "&" i then Some (Js.slice 1 i) else None.

Definition except_of (i : string) : option string :=
  if Js.startsWith QUOTE i then Some (Js.slice 1 i) else None.

Definition invex_of (i : string) : option string :=
  if Js.startsWith "'" i then Some (Js.slice 1 i) else None.

(** A token that reaches the member branch of the loop body. *)
Definition is_member (i : string) : Prop :=
  i ≠ EmptyString /\ Js.startsWith "&" i = false /\
  Js.startsWith QUOTE i = false /\ Js.startsWith "'" i = false.

(** The user a member token names. *)
Definition uid_of (i : string) : string := (member_match i).2.

(** The user store has a user object under [uid]. *)
Definition registered (c : Client) (uid : string) : Prop :=
  exists ur u, users c !! uid = Some ur /\ uheap c !! ur = Some u.

(** The user [uid] is in the channel object [cr], on its own side and on
    the side of the channel, without any rank. *)
Definition joined_plain (c : Client) (name : string) (cr : ref) (uid : string) : Prop :=
  exists ur u ch mr m mr' m',
    users c !! uid = Some ur /\ uheap c !! ur = Some u /\ cheap c !! cr = Some ch /\
    User.memberships u !! name = Some mr /\ mheap c !! mr = Some m /\
    Member.prefix m = EmptyString /\ Member.uid m = User.uid u /\
    Channel.users ch !! Js.show (User.nickname u) = Some mr' /\
    mheap c !! mr' = Some m' /\ Member.prefix m' = EmptyString.

(** The client after a member token of a newer burst has been handled. *)
Definition installed_plain (name : string) (cr : ref) (c : Client) (ur : ref)
    (u : User.t) (ch : Channel.t) : Client :=
  let mr := length (mheap c) in
  set_uheap
    (<[ur := User.set_memberships (<[name := mr]> (User.memberships u)) u]> (uheap c))
    (set_cheap
       (<[cr := Channel.set_users
                  (<[Js.show (User.nickname u) := mr]> (Channel.users ch)) ch]> (cheap c))
       (set_mheap (mheap c ++ [Member.mk (User.uid u) EmptyString]) c)).



(** The rank modes with their symbols, as [ModeToPrefix] has them. *)
Definition rank_table : list (ascii * ascii) :=
  [("v", "+"); ("h", "%"); ("o", "@"); ("a", "~"); ("q", "*")]%char.

(** Every character of [s] is [a]. *)
Definition all_char (a : ascii) (s : string) : Prop :=
  forall x, x ∈ Js.chars s -> x = a.

(** From the first occurrence of [a] on, every character of [s] is [a]. *)
Fixpoint clean_tail (a : ascii) (s : string) : Prop :=
  match s with
  | EmptyString => True
  | String x s' => if bool_decide (x = a) then all_char a s' else clean_tail a s'
  end.



(** The client after the callback has accepted [member] for the user object
    [user], with [o] and [u] the channel and user objects before. *)
Definition member_installed (channel : ref) (c : Client) (o : Channel.t)
    (user : ref) (u : User.t) (member : ref) : Client :=
  set_uheap
    (<[user := User.set_memberships
                 (<[Js.show (Channel.name o) := member]> (User.memberships u)) u]> (uheap c))
    (set_cheap
       (<[channel := Channel.set_users
                       (<[Js.show (User.nickname u) := member]> (Channel.users o)) o]>
          (cheap c)) c).

(** The two reasons for which [sjoinToChannel] rejects a member, and what
    makes a member acceptable, all read in a given client. *)
Definition member_unregistered (c : Client) (member : ref) : Prop :=
  exists m, mheap c !! member = Some m /\ users c !! Js.show (Member.uid m) = None.

Definition member_already_in (c : Client) (name : string) (member : ref) : Prop :=
  exists m user u mr,
    mheap c !! member = Some m /\ users c !! Js.show (Member.uid m) = Some user /\
    uheap c !! user = Some u /\ User.memberships u !! name = Some mr.

(** [member] names the registered user object [user], which is not in the
    channel [name]. *)
Definition member_admissible (c : Client) (name : string) (member user : ref) : Prop :=
  exists m u,
    mheap c !! member = Some m /\ users c !! Js.show (Member.uid m) = Some user /\
    uheap c !! user = Some u /\ User.memberships u !! name = None.

(** The client in which the members are handled: the channel argument has
    been stored if its name was free. *)
Definition channel_stored (c : Client) (channel : ref) (o : Channel.t) : Client :=
  match channels c !! Js.show (Channel.name o) with
  | Some _ => c
  | None => set_channels (<[Js.show (Channel.name o) := channel]> (channels c)) c
  end.

(** The local [buffer] of [sjoinToChannel] before the first member. *)
Definition sjoin_header (now : Z) (o : Channel.t) : string :=
  "SJOIN " +:+ Js.Z_to_string now +:+ " " +:+ Js.show (Channel.name o) +:+ " "
  +:+ Channel.modes o +:+ " :".



(** Every membership of a user of the store is the very member object that
    the channel of that name holds under the nickname of the user. *)
Definition memberships_mirrored (c : Client) : Prop :=
  forall uid (ur : ref) u name (mr : ref),
    users c !! uid = Some ur -> uheap c !! ur = Some u ->
    User.memberships u !! name = Some mr ->
    exists (cr : ref) ch,
      channels c !! name = Some cr /\ cheap c !! cr = Some ch /\
      Channel.users ch !! Js.show (User.nickname u) = Some mr.

(** The lines [onRaw] has been called with, in order. *)
Definition raw_lines (c : Client) : list string :=
  omap (fun e => match e with onRaw raw => Some raw | _ => None end) (events c).

(** The framer over a sequence of chunks, from a given buffer: the lines
    handed over, and the buffer left. *)
Fixpoint feed (buffer : string) (chunks : list string) : list string * string :=
  match chunks with
  | [] => ([], buffer)
  | data :: rest =>
      let '(lines, b) := frame buffer data in
      let '(more, b') := feed b rest in
      (lines ++ more, b')
  end.

(** The text a sequence of chunks carries. *)
Definition stream (chunks : list string) : string :=
  foldr String.append EmptyString chunks.

(** The lines of a list that are not empty. *)
Definition nonempty (l : list string) : list string :=
  filter (fun line => line ≠ EmptyString) l.

(** * Vocabulary of the properties of the other operations *)

(** ** Lines and what they carry *)

(** A word: a string without a space, which [split(" ")] keeps whole. *)
Definition spacefree (s : string) : Prop := " "%char ∉ Js.chars s.

(** A field of an object that is set and is one word. *)
Definition plain (v : Js.val) : Prop := exists s, v = Some s /\ spacefree s.

(** The first word of a line. *)
Definition first_word (line : string) : string :=
  default EmptyString (Js.split " " line !! 0%nat).

(** The second word of a line, which is the command when the first word is
    a source. *)
Definition second_word (line : string) : Js.val := Js.split " " line !! 1%nat.

(** The value of a run of decimal digits read after [a]. *)
Fixpoint read_digits (a : Z) (d : Decimal.uint) : Z :=
  match d with
  | Decimal.Nil => a
  | Decimal.D0 d => read_digits (a * 10 + 0) d
  | Decimal.D1 d => read_digits (a * 10 + 1) d
  | Decimal.D2 d => read_digits (a * 10 + 2) d
  | Decimal.D3 d => read_digits (a * 10 + 3) d
  | Decimal.D4 d => read_digits (a * 10 + 4) d
  | Decimal.D5 d => read_digits (a * 10 + 5) d
  | Decimal.D6 d => read_digits (a * 10 + 6) d
  | Decimal.D7 d => read_digits (a * 10 + 7) d
  | Decimal.D8 d => read_digits (a * 10 + 8) d
  | Decimal.D9 d => read_digits (a * 10 + 9) d
  end.

(** The user object a peer makes from the UID line of [u]: the fields of
    the line, no [local], [away] or [moddata], no memberships. *)
Definition announced (u : User.t) : User.t :=
  User.mk (User.nickname u) (User.hopcount u) (User.timestamp u) (User.username u)
          (User.hostname u) (User.uid u) (User.servicestamp u) (User.usermodes u)
          (User.virtualhost u) (User.cloakedhost u) (User.ip u) (User.gecos u)
          None None None ∅.

(** A user object whose UID line has one word for every field before the
    real name, whose hop count and timestamp print and read back exactly,
    and whose UID and nickname are keys that a dictionary of the code
    takes. *)
Definition announceable (u : User.t) : Prop :=
  Forall plain [User.nickname u; User.username u; User.hostname u; User.uid u;
                User.servicestamp u; User.usermodes u; User.virtualhost u;
                User.cloakedhost u; User.ip u] /\
  is_Some (User.gecos u) /\
  safe_integer (User.hopcount u) /\ safe_integer (User.timestamp u) /\
  User.uid u ≠ Some "__proto__" /\ User.nickname u ≠ Some "__proto__".

(** [c1] is [c] with the lines [more] added to the end of the queue. *)
Definition queued (c c1 : Client) (more : list string) : Prop :=
  c1 = set_writebuffer (_writebuffer c ++ more) c.

(** The lines [disconnect] queues for the users of the client's own when it
    is graceful. *)
Definition farewells (sid : string) (uids : list string) : list string :=
  (fun uid => (":" +:+ uid +:+ " QUIT :Server Shutting Down.") +:+ CRLF)
    <$> filter (fun uid => Js.startsWith sid uid = true) uids.

(** The network name as [endOfSync] prints it: the entry NETWORKNAME of
    [_linkinfo], or the empty string. *)
Definition networkname (c : Client) : string :=
  match _linkinfo c !! "NETWORKNAME" with
  | Some (LStr s) => s
  | Some (LBool true) => "true"
  | _ => EmptyString
  end.

(** The NETINFO line of [endOfSync]. *)
Definition netinfo_line (now : Z) (name : string) : string :=
  "NETINFO 0 " +:+ Js.Z_to_string now +:+ " 6100 * 0 0 0 :" +:+ name.

(** ** Commands *)

(** The commands [sourced] has a branch for. *)
Definition dispatched : list string :=
  ["EOS"; "UID"; "SID"; "NICK"; "QUIT"; "KILL"; "MD"; "SETHOST"; "SETIDENT"; "SETNAME";
   "CHGHOST"; "CHGIDENT"; "CHGNAME"; "SJOIN"; "PART"; "KICK"; "SAJOIN"; "SAPART"; "MODE";
   "UMODE2"; "PRIVMSG"; "NOTICE"; "VERSION"].

(** The commands whose handler only calls back. *)
Definition notifying : list string := ["EOS"; "KILL"; "PRIVMSG"; "NOTICE"].

(** The commands that register users or change memberships. *)
Definition membership_commands : list string :=
  ["UID"; "NICK"; "QUIT"; "SJOIN"; "PART"; "KICK"; "SAJOIN"; "SAPART"].

(** The user a command looks up before anything else, by the key it uses. *)
Definition dereferenced (source cmd : string) (args : list string) : option string :=
  if bool_decide (cmd ∈ ["NICK"; "QUIT"; "SETHOST"; "SETIDENT"; "SETNAME"; "PART"])
  then Some source
  else if bool_decide (cmd ∈ ["CHGHOST"; "CHGIDENT"; "CHGNAME"; "SAJOIN"; "SAPART"])
  then Some (Js.show (args !! 0%nat))
  else if bool_decide (cmd = "KICK") then Some (Js.show (args !! 1%nat))
  else None.



(** ** Tables that agree with each other *)

(** The two indexes of the users list the same user objects: each under
    its own UID in [users] and under its own nickname in [usersByNick]. *)
Definition indexed (c : Client) : Prop :=
  (forall uid (r : ref), users c !! uid = Some r ->
     exists u, uheap c !! r = Some u /\ User.uid u = Some uid /\
               usersByNick c !! Js.show (User.nickname u) = Some r) /\
  (forall nick (r : ref), usersByNick c !! nick = Some r ->
     exists u, uheap c !! r = Some u /\ Js.show (User.nickname u) = nick /\
               users c !! Js.show (User.uid u) = Some r).

(** Every channel of the store is a channel object that carries the name
    it is stored under. *)
Definition channels_named (c : Client) : Prop :=
  forall name (cr : ref), channels c !! name = Some cr ->
    exists ch, cheap c !! cr = Some ch /\ Channel.name ch = Some name.

(** The state of a client whose tables agree with each other. *)
Definition coherent (c : Client) : Prop :=
  indexed c /\ channels_named c /\ memberships_mirrored c.

(** The state while a burst for [name] is read into the channel object
    [channel], which is stored under [name] or not stored yet: the
    memberships for [name] are mirrored in that object, the others in the
    channels of the store. *)
Definition joining (name : string) (channel : ref) (c : Client) : Prop :=
  indexed c /\ channels_named c /\
  (exists o, cheap c !! channel = Some o /\ Channel.name o = Some name) /\
  (forall name' (cr : ref), channels c !! name' = Some cr -> cr = channel <-> name' = name) /\
  (forall uid (ur : ref) u name' (mr : ref),
     users c !! uid = Some ur -> uheap c !! ur = Some u ->
     User.memberships u !! name' = Some mr ->
     exists (cr : ref) o,
       (if decide (name' = name) then cr = channel else channels c !! name' = Some cr) /\
       cheap c !! cr = Some o /\ Channel.users o !! Js.show (User.nickname u) = Some mr).

(** A method run from a state in [P] ends in [Q] when it returns and in
    [E] when it throws. *)
Definition triple {A} (P : Client -> Prop) (m : M A)
    (Q : A -> Client -> Prop) (E : Client -> Prop) : Prop :=
  forall c r c', P c -> m c = (r, c') ->
    match r with Ok a => Q a c' | Throw _ => E c' end.

(** Two user objects with the same identity and the same memberships, two
    channel objects with the same name and the same members. *)
Definition same_user (u u' : User.t) : Prop :=
  User.uid u' = User.uid u /\ User.nickname u' = User.nickname u /\
  User.memberships u' = User.memberships u.

Definition same_members (o o' : Channel.t) : Prop :=
  Channel.name o' = Channel.name o /\ Channel.users o' = Channel.users o.

(** Two states with the same tables: who is registered, under which
    nickname, which channels exist and who is in them. *)
Definition same_tables (c c' : Client) : Prop :=
  users c' = users c /\ usersByNick c' = usersByNick c /\ channels c' = channels c /\
  Forall2 same_user (uheap c) (uheap c') /\ Forall2 same_members (cheap c) (cheap c').

(** A method that leaves the tables as they are, whatever its outcome, from
    a coherent state. *)
Definition quiet {A} (m : M A) : Prop :=
  forall c r c', coherent c -> m c = (r, c') -> same_tables c c'.

(** A method that leaves the buffer of the framer as it is, whatever its
    outcome. *)
Definition keeps_buffer {A} (m : M A) : Prop :=
  forall c r c', m c = (r, c') -> _buffer c' = _buffer c.

(** ** More sample sessions *)

(** The user object of [alice] in [alice_in_channel]. *)
Definition alice : User.t :=
  User.mk (Some "alice") (Js.Num 0) (Js.Num 90) (Some "al") (Some "host")
          (Some "001AAAAAA") (Some "*") (Some "+i") (Some "vhost")
          (Some "chost") (Some "ip") (Some "Alice") None None None
          {["#a" := 0%nat]}.

(** A user object the application has made for a user of its own. *)
Definition bot : User.t :=
  User.mk (Some "bot") (Js.Num 0) (Js.Num 90) (Some "b") (Some "bots.example")
          (Some "999AAAAAA") (Some "0") (Some "+i") (Some "bots.example")
          (Some "bots.example") (Some "AAAAAA==") (Some "A bot")
          (Some true) None None ∅.

(** A client with that object, before and after [registerUser]. *)
Definition with_bot : Client := set_uheap [bot] (newClient "999").

Definition bot_registered : Client := (registerUser 0 0%nat true [] with_bot).2.

(** A server the application announces. *)
Definition hub : Server.t :=
  Server.mk "999" (Some "hub.example") (Js.Num 1) (Some "998") "A hub" None.

(** Options of a client that authenticates by certificate, and the client
    after the handshake has been queued. *)
Definition sample_options : S2SClientOptions :=
  mkOptions "irc.example" 6900 "bots.example" spkifp None None None
            (Some "key.pem") (Some "cert.pem").

Definition after_handshake : Client := (on_connect sample_options 0 (newClient "999")).2.

(** Options of a client that authenticates by password, and the client
    [bot_registered] once [connect] has run with them. *)
Definition password_options : S2SClientOptions :=
  mkOptions "irc.example" 6900 "bots.example" pass None None (Some "secret") None None.

Definition bot_connected : Client := (connect password_options bot_registered).2.

(** A client that has been told the name of the network. *)
Definition in_network : Client :=
  (_lineHandler 0 "NETINFO 5 100 6100 * 0 0 0 :ExampleNet" (newClient "999")).2.

(** * Properties *)

(** ** Running a method *)

Section Monad.
Context {A B : Type}.
Implicit Types (m : M A) (k : A -> M B).

Lemma bind_ok m k c a c1 : m c = (Ok a, c1) -> bind m k c = k a c1.
Proof. unfold bind. by intros ->. Qed.

Lemma bind_throw m k c e c1 : m c = (Throw e, c1) -> bind m k c = (Throw e, c1).
Proof. unfold bind. by intros ->. Qed.

Lemma bind_ext m k k' c :
  (forall a c1, k a c1 = k' a c1) -> bind m k c = bind m k' c.
Proof. intros H. unfold bind. destruct (m c) as [[a|e] c1]; [apply H | done]. Qed.

Lemma bind_inv_ok m k c b c' :
  bind m k c = (Ok b, c') -> exists a c1, m c = (Ok a, c1) /\ k a c1 = (Ok b, c').
Proof.
  unfold bind. destruct (m c) as [[a|e] c1]; [eauto | discriminate].
Qed.

Lemma bind_inv m k c r c' :
  bind m k c = (r, c') ->
  (exists a c1, m c = (Ok a, c1) /\ k a c1 = (r, c')) \/
  (exists e, m c = (Throw e, c') /\ r = Throw e).
Proof.
  unfold bind. destruct (m c) as [[a|e] c1]; [eauto | intros [= <- <-]; eauto].
Qed.
End Monad.

Lemma bind_assoc {A B C} (m : M A) (k : A -> M B) (h : B -> M C) c :
  bind (bind m k) h c = bind m (fun a => bind (k a) h) c.
Proof. unfold bind. by destruct (m c) as [[a|e] c1]. Qed.

(** Lookups in a heap after an assignment through a reference. *)
Lemma heap_update_eq {X} (h : list X) r x y :
  h !! r = Some x -> <[r := y]> h !! r = Some y.
Proof. intros H. apply list_lookup_insert_eq. by eapply lookup_lt_Some. Qed.

Lemma heap_update_some {X} (h : list X) r r' x y :
  h !! r' = Some x -> is_Some (<[r := y]> h !! r').
Proof.
  intros H. destruct (decide (r = r')) as [->|Hne].
  - erewrite heap_update_eq; eauto.
  - rewrite list_lookup_insert_ne; eauto.
Qed.

Lemma heap_alloc_old {X} (h : list X) r x y :
  h !! r = Some x -> (h ++ [y]) !! r = Some x.
Proof. intros H. by apply lookup_app_l_Some. Qed.

(** ** Flag sets *)

Lemma chars_of_chars l : Js.chars (Js.of_chars l) = l.
Proof. apply list_ascii_of_string_of_list_ascii. Qed.

Lemma elem_of_flag_set x mode o : x ∈ flag_set mode o <-> x = mode \/ x ∈ o.
Proof.
  unfold flag_set. case_bool_decide.
  - split; [auto | intros [->|]; auto].
  - rewrite elem_of_app. rewrite list_elem_of_singleton. tauto.
Qed.

Lemma NoDup_flag_set mode o : NoDup o -> NoDup (flag_set mode o).
Proof.
  intros Ho. unfold flag_set. case_bool_decide; [done|].
  apply NoDup_app. split_and!; [done | | apply NoDup_singleton].
  intros x Hx ->%list_elem_of_singleton. done.
Qed.



Lemma collect_flags_chars l o :
  foldl (fun o mode => if bool_decide (mode = "+"%char) then o else flag_set mode o) o l
  = collect_flags (Js.of_chars l) o.
Proof. unfold collect_flags. by rewrite chars_of_chars. Qed.

Lemma elem_of_collect_flags x s o :
  x ∈ collect_flags s o <-> x ∈ o \/ (x ∈ Js.chars s /\ x ≠ "+"%char).
Proof.
  unfold collect_flags. generalize (Js.chars s) as l. intros l. revert o.
  induction l as [|a l IH]; intros o; simpl.
  - rewrite elem_of_nil. tauto.
  - rewrite IH. rewrite elem_of_cons. case_bool_decide as Ha.
    + subst a. tauto.
    + rewrite elem_of_flag_set. split; [|tauto].
      intros [[->|?]|[? ?]]; auto.
Qed.

Lemma NoDup_collect_flags s o : NoDup o -> NoDup (collect_flags s o).
Proof.
  unfold collect_flags. generalize (Js.chars s) as l. intros l. revert o.
  induction l as [|a l IH]; intros o Ho; simpl; [done|].
  apply IH. case_bool_decide; [done | by apply NoDup_flag_set].
Qed.

Lemma NoDup_index_keys : NoDup index_keys.
Proof. apply (bool_decide_unpack _). vm_compute. done. Qed.

Lemma elem_of_Object_keys x o : x ∈ Object_keys o <-> x ∈ o.
Proof.
  unfold Object_keys.
  rewrite elem_of_app. rewrite !list_elem_of_filter.
  destruct (decide (x ∈ index_keys)); tauto.
Qed.

Lemma NoDup_Object_keys o : NoDup o -> NoDup (Object_keys o).
Proof.
  intros Ho. unfold Object_keys. apply NoDup_app. split_and!.
  - apply NoDup_filter, NoDup_index_keys.
  - intros x [_ Hx]%list_elem_of_filter [Hn _]%list_elem_of_filter. done.
  - by apply NoDup_filter.
Qed.

(** ** Heap accesses *)

Lemma read_channel_run c r : read_channel r c = (match cheap c !! r with Some o => Ok o | None => Throw TypeError end, c).
Proof. unfold read_channel, bind, get, defined. by destruct (cheap c !! r). Qed.

Lemma read_user_run c r : read_user r c = (match uheap c !! r with Some o => Ok o | None => Throw TypeError end, c).
Proof. unfold read_user, bind, get, defined. by destruct (uheap c !! r). Qed.

Lemma read_member_run c r : read_member r c = (match mheap c !! r with Some o => Ok o | None => Throw TypeError end, c).
Proof. unfold read_member, bind, get, defined. by destruct (mheap c !! r). Qed.

Lemma update_channel_run c r f :
  update_channel r f c =
  match cheap c !! r with
  | Some o => (Ok tt, set_cheap (<[r := f o]> (cheap c)) c)
  | None => (Throw TypeError, c)
  end.
Proof. unfold update_channel, bind. rewrite read_channel_run. by destruct (cheap c !! r). Qed.

Lemma update_user_run c r f :
  update_user r f c =
  match uheap c !! r with
  | Some o => (Ok tt, set_uheap (<[r := f o]> (uheap c)) c)
  | None => (Throw TypeError, c)
  end.
Proof. unfold update_user, bind. rewrite read_user_run. by destruct (uheap c !! r). Qed.

Lemma update_member_run c r f :
  update_member r f c =
  match mheap c !! r with
  | Some o => (Ok tt, set_mheap (<[r := f o]> (mheap c)) c)
  | None => (Throw TypeError, c)
  end.
Proof. unfold update_member, bind. rewrite read_member_run. by destruct (mheap c !! r). Qed.

Lemma the_user_run c key :
  the_user key c = (match users c !! key with Some r => Ok r | None => Throw TypeError end, c).
Proof. unfold the_user, bind, get, defined. by destruct (users c !! key). Qed.

Lemma the_channel_run c key :
  the_channel key c = (match channels c !! key with Some r => Ok r | None => Throw TypeError end, c).
Proof. unfold the_channel, bind, get, defined. by destruct (channels c !! key). Qed.

(** Unfolds a method applied to a client down to the heap accesses. *)
Ltac run :=
  repeat first
    [ rewrite read_channel_run | rewrite read_user_run | rewrite read_member_run
    | rewrite update_channel_run | rewrite update_user_run | rewrite update_member_run
    | rewrite the_user_run | rewrite the_channel_run
    | progress unfold bind, ret, get, modify, throw, defined, emit,
        new_member, new_channel, new_user
    | progress simpl ].

Ltac run_in H :=
  repeat first
    [ rewrite read_channel_run in H | rewrite read_user_run in H
    | rewrite read_member_run in H
    | rewrite update_channel_run in H | rewrite update_user_run in H
    | rewrite update_member_run in H
    | rewrite the_user_run in H | rewrite the_channel_run in H
    | progress unfold bind, ret, get, modify, throw, defined, emit,
        new_member, new_channel, new_user in H
    | progress simpl in H ].

(** Runs a method in a hypothesis, splitting on every lookup and test it
    meets. *)
Ltac crunch H :=
  repeat first
    [ progress run_in H
    | match type of H with
      | context [match ?x with _ => _ end] =>
          lazymatch x with
          | _ !! _ => let E := fresh "E" in destruct x eqn:E
          end
      end
    | match type of H with
      | context [if ?b then _ else _] => let E := fresh "E" in destruct b eqn:E
      end
    | match type of H with
      | context [let '(_, _) := ?x in _] => let E := fresh "E" in destruct x eqn:E
      end ].

(** ** SJOIN: what the token loop leaves alone *)

Lemma same_header_refl o : same_header o o.
Proof. by repeat split. Qed.

Lemma same_header_trans o1 o2 o3 :
  same_header o1 o2 -> same_header o2 o3 -> same_header o1 o3.
Proof. unfold same_header. intros (?&?&?) (?&?&?). split_and!; congruence. Qed.

(** An assignment to a channel object that keeps its header keeps the
    header of every channel object of the heap. *)
Lemma header_kept_by_update (h : list Channel.t) r o f cr ch :
  h !! r = Some o -> same_header o (f o) -> h !! cr = Some ch ->
  exists ch', <[r := f o]> h !! cr = Some ch' /\ same_header ch ch'.
Proof.
  intros Hr Hf Hcr. destruct (decide (r = cr)) as [->|Hne].
  - erewrite heap_update_eq by done. simplify_eq. eauto.
  - rewrite list_lookup_insert_ne by done. eauto using same_header_refl.
Qed.

Lemma sjoin_token_header name channel unsafe i c r c' cr ch :
  sjoin_token name channel unsafe i c = (r, c') ->
  cheap c !! cr = Some ch ->
  exists ch', cheap c' !! cr = Some ch' /\ same_header ch ch'.
Proof.
  intros Hrun Hcr. unfold sjoin_token in Hrun.
  crunch Hrun; simplify_eq; simpl; eauto using same_header_refl;
    try (eapply header_kept_by_update; eauto; by repeat split).
Qed.

Lemma sjoin_tokens_header name channel unsafe sjoinbuffer c r c' cr ch :
  sjoin_tokens name channel unsafe sjoinbuffer c = (r, c') ->
  cheap c !! cr = Some ch ->
  exists ch', cheap c' !! cr = Some ch' /\ same_header ch ch'.
Proof.
  revert c ch. induction sjoinbuffer as [|i rest IH]; intros c ch Hrun Hcr.
  - injection Hrun as <- <-. eauto using same_header_refl.
  - simpl in Hrun. apply bind_inv in Hrun as [(a & c1 & Hi & Hrun)|(e & Hi & ->)].
    + destruct (sjoin_token_header _ _ _ _ _ _ _ _ _ Hi Hcr) as (ch1 & Hch1 & Hh1).
      destruct (IH _ _ Hrun Hch1) as (ch' & Hch' & Hh').
      eauto using same_header_trans.
    + eapply sjoin_token_header; eauto.
Qed.

(** ** SJOIN: the three timestamp rules on an existing channel *)

Section Resolve.
Context (c : Client) (cr : ref) (ch : Channel.t) (t0 t : Z) (modes : string).
Hypothesis Hcr : cheap c !! cr = Some ch.
Hypothesis Hts : Channel.timestamp ch = Js.Num t0.

Lemma sjoin_resolve_equal :
  t = t0 ->
  sjoin_resolve cr cr (Js.Num t) modes c =
  (Ok false,
   set_cheap
     (<[cr := Channel.set_modes
                (Js.of_chars (Object_keys
                   (collect_flags (Channel.modes ch) (collect_flags modes [])))) ch]>
        (cheap c)) c).
Proof using Hcr Hts.
  intros ->. unfold sjoin_resolve. run. rewrite Hcr. simpl. rewrite Hts. simpl.
  rewrite bool_decide_eq_true_2 by done. run. by rewrite Hcr.
Qed.

Lemma sjoin_resolve_older :
  t < t0 ->
  sjoin_resolve cr cr (Js.Num t) modes c =
  (Ok false, set_cheap (<[cr := Channel.set_modes modes ch]> (cheap c)) c).
Proof using Hcr Hts.
  intros Hlt. unfold sjoin_resolve. run. rewrite Hcr. simpl. rewrite Hts. simpl.
  rewrite bool_decide_eq_false_2 by lia. rewrite bool_decide_eq_true_2 by done.
  run. by rewrite Hcr.
Qed.

Lemma sjoin_resolve_newer :
  t0 < t ->
  sjoin_resolve cr cr (Js.Num t) modes c = (Ok true, c).
Proof using Hcr Hts.
  intros Hlt. unfold sjoin_resolve. run. rewrite Hcr. simpl. rewrite Hts. simpl.
  rewrite bool_decide_eq_false_2 by lia. rewrite bool_decide_eq_false_2 by lia.
  done.
Qed.
End Resolve.

(** SJOIN on an existing channel, once the timestamp rule has been applied
    and left the client [c1]: whatever the token loop does, and whether it
    completes or not, the header of the channel is the one of [c1]. *)
Lemma sjoin_existing source timestamp name modes sjoinbuffer c cr unsafe c1 ch1 r c' :
  channels c !! name = Some cr ->
  sjoin_resolve cr cr timestamp modes c = (Ok unsafe, c1) ->
  cheap c1 !! cr = Some ch1 ->
  sjoin source timestamp name modes sjoinbuffer c = (r, c') ->
  exists ch', cheap c' !! cr = Some ch' /\ same_header ch1 ch'.
Proof.
  intros Hname Hres Hch1 Hrun. unfold sjoin in Hrun.
  unfold bind at 1 in Hrun. simpl in Hrun. rewrite Hname in Hrun.
  unfold bind at 1 in Hrun. simpl in Hrun.
  rewrite (bind_ok _ _ _ _ _ Hres) in Hrun.
  destruct sjoinbuffer as [tokens|].
  - unfold bind at 1 in Hrun. simpl in Hrun.
    apply bind_inv in Hrun as [(a & c2 & Ht & Hrun)|(e & Ht & ->)].
    + destruct (sjoin_tokens_header _ _ _ _ _ _ _ _ _ Ht Hch1) as (ch' & Hch' & Hh).
      run_in Hrun. injection Hrun as <- <-. simpl. eauto.
    + eapply sjoin_tokens_header; eauto.
  - run_in Hrun. injection Hrun as <- <-. eauto using same_header_refl.
Qed.

(** C3. SJOIN on an existing channel with the announced timestamp equal to
    the local one: whatever follows in the burst, the mode string of the
    channel then denotes the union of the local and the announced flag
    sets, and no character occurs in it twice. *)
Theorem sjoin_equal_timestamp_union
    source t name modes sjoinbuffer c cr ch r c' :
  channels c !! name = Some cr ->
  cheap c !! cr = Some ch ->
  Channel.timestamp ch = Js.Num t ->
  sjoin source (Js.Num t) name modes sjoinbuffer c = (r, c') ->
  exists ch',
    cheap c' !! cr = Some ch' /\
    NoDup (Js.chars (Channel.modes ch')) /\
    forall f, flag_of (Channel.modes ch') f <->
              flag_of (Channel.modes ch) f \/ flag_of modes f.
Proof.
  intros Hname Hcr Hts Hrun.
  pose proof (sjoin_resolve_equal c cr ch t t modes Hcr Hts eq_refl) as Hres.
  edestruct (sjoin_existing source (Js.Num t) name modes sjoinbuffer c cr)
    as (ch' & Hch' & _ & _ & Hm); [done | apply Hres | | apply Hrun |].
  { simpl. eapply heap_update_eq, Hcr. }
  exists ch'. split; [done|]. rewrite Hm. simpl. rewrite chars_of_chars. split.
  - apply NoDup_Object_keys, NoDup_collect_flags, NoDup_collect_flags, NoDup_nil_2.
  - intros f. unfold flag_of. rewrite chars_of_chars. rewrite elem_of_Object_keys.
    rewrite !elem_of_collect_flags. rewrite elem_of_nil. tauto.
Qed.

Lemma sjoin_equal_timestamp_union_witness :
  exists ch',
    cheap (sjoin "002" (Js.Num 100) "#a" "+ts" (Some []) one_channel).2 !! 0%nat = Some ch' /\
    NoDup (Js.chars (Channel.modes ch')) /\
    forall f, flag_of (Channel.modes ch') f <->
              flag_of "+nt" f \/ flag_of "+ts" f.
Proof.
  apply (sjoin_equal_timestamp_union "002" 100 "#a" "+ts" (Some []) one_channel 0%nat
           (Channel.mk (Some "#a") (Js.Num 100) "+nt" ∅ [] [] [])
           (sjoin "002" (Js.Num 100) "#a" "+ts" (Some []) one_channel).1);
    vm_compute; reflexivity.
Defined.

(** C4. SJOIN on an existing channel with an announced timestamp strictly
    less than the local one: whatever follows in the burst, the mode string
    of the channel is then the announced mode string. *)
Theorem sjoin_older_timestamp_replaces
    source t t0 name modes sjoinbuffer c cr ch r c' :
  channels c !! name = Some cr ->
  cheap c !! cr = Some ch ->
  Channel.timestamp ch = Js.Num t0 ->
  t < t0 ->
  sjoin source (Js.Num t) name modes sjoinbuffer c = (r, c') ->
  exists ch', cheap c' !! cr = Some ch' /\ Channel.modes ch' = modes.
Proof.
  intros Hname Hcr Hts Hlt Hrun.
  pose proof (sjoin_resolve_older c cr ch t0 t modes Hcr Hts Hlt) as Hres.
  edestruct (sjoin_existing source (Js.Num t) name modes sjoinbuffer c cr)
    as (ch' & Hch' & _ & _ & Hm); [done | apply Hres | | apply Hrun |].
  { simpl. eapply heap_update_eq, Hcr. }
  eauto.
Qed.

Lemma sjoin_older_timestamp_replaces_witness :
  exists ch',
    cheap (sjoin "002" (Js.Num 99) "#a" "+s" (Some []) one_channel).2 !! 0%nat = Some ch' /\
    Channel.modes ch' = "+s".
Proof.
  apply (sjoin_older_timestamp_replaces "002" 99 100 "#a" "+s" (Some []) one_channel 0%nat
           (Channel.mk (Some "#a") (Js.Num 100) "+nt" ∅ [] [] [])
           (sjoin "002" (Js.Num 99) "#a" "+s" (Some []) one_channel).1);
    vm_compute; reflexivity.
Defined.

(** ** SJOIN: a burst newer than the local channel *)

Lemma startsWith_char a b s :
  Js.startsWith (String a EmptyString) (String b s) = bool_decide (a = b).
Proof.
  unfold Js.startsWith. cbn [String.prefix].
  destruct (Ascii.ascii_dec a b); case_bool_decide; try done; by destruct s.
Qed.

Lemma marker_cases i :
  i = EmptyString \/
  (i ≠ EmptyString /\ Js.startsWith "&" i = true /\
     Js.startsWith QUOTE i = false /\ Js.startsWith "'" i = false) \/
  (i ≠ EmptyString /\ Js.startsWith "&" i = false /\
     Js.startsWith QUOTE i = true /\ Js.startsWith "'" i = false) \/
  (i ≠ EmptyString /\ Js.startsWith "&" i = false /\
     Js.startsWith QUOTE i = false /\ Js.startsWith "'" i = true) \/
  is_member i.
Proof.
  unfold is_member, QUOTE. destruct i as [|a i]; [by left|right].
  rewrite !startsWith_char.
  repeat case_bool_decide; simplify_eq; naive_solver.
Qed.

Section Newer.
Context (name : string) (cr : ref).

Lemma sjoin_token_member_newer i c ur u ch :
  is_member i ->
  users c !! uid_of i = Some ur -> uheap c !! ur = Some u -> cheap c !! cr = Some ch ->
  sjoin_token name cr true i c = (Ok tt, installed_plain name cr c ur u ch).
Proof.
  intros (Hne & Hb & He & Hi) Hur Hu Hch. unfold sjoin_token, uid_of in *.
  rewrite bool_decide_eq_false_2 by done. rewrite Hb, He, Hi.
  destruct (member_match i) as [p uid]. simpl in Hur.
  run. rewrite Hur. run. rewrite Hu. run. rewrite Hch. run. rewrite Hu. done.
Qed.

Lemma joined_plain_installed c ur u ch uid :
  users c !! uid = Some ur -> uheap c !! ur = Some u -> cheap c !! cr = Some ch ->
  joined_plain (installed_plain name cr c ur u ch) name cr uid.
Proof.
  intros Hur Hu Hch.
  exists ur, (User.set_memberships (<[name := length (mheap c)]> (User.memberships u)) u),
    (Channel.set_users
       (<[Js.show (User.nickname u) := length (mheap c)]> (Channel.users ch)) ch),
    (length (mheap c)), (Member.mk (User.uid u) EmptyString),
    (length (mheap c)), (Member.mk (User.uid u) EmptyString).
  unfold installed_plain. simpl. split_and!; try done.
  - eapply heap_update_eq, Hu.
  - eapply heap_update_eq, Hch.
  - apply lookup_insert_eq.
  - apply list_lookup_middle. done.
  - apply lookup_insert_eq.
  - apply list_lookup_middle. done.
Qed.

Lemma joined_plain_kept c ur u ch uid :
  uheap c !! ur = Some u -> cheap c !! cr = Some ch ->
  joined_plain c name cr uid ->
  joined_plain (installed_plain name cr c ur u ch) name cr uid.
Proof.
  intros Hu Hch (ur' & u' & ch' & mr & m & mr' & m' & H1 & H2 & H3 & H4 & H5 & H6 & H7 & H8 & H9 & H10).
  assert (ch' = ch) as -> by congruence.
  set (new := Member.mk (User.uid u) EmptyString).
  assert (Hnew : (mheap c ++ [new]) !! length (mheap c) = Some new)
    by by apply list_lookup_middle.
  destruct (decide (ur' = ur)) as [->|Hne].
  - assert (u' = u) as -> by congruence.
    exists ur, (User.set_memberships (<[name := length (mheap c)]> (User.memberships u)) u),
      (Channel.set_users
         (<[Js.show (User.nickname u) := length (mheap c)]> (Channel.users ch)) ch),
      (length (mheap c)), new, (length (mheap c)), new.
    unfold installed_plain. simpl. split_and!; try done.
    + eapply heap_update_eq, Hu.
    + eapply heap_update_eq, Hch.
    + apply lookup_insert_eq.
    + apply lookup_insert_eq.
  - destruct (decide (Js.show (User.nickname u') = Js.show (User.nickname u))) as [Hn|Hn].
    + exists ur', u',
        (Channel.set_users
           (<[Js.show (User.nickname u) := length (mheap c)]> (Channel.users ch)) ch),
        mr, m, (length (mheap c)), new.
      unfold installed_plain. simpl. split_and!; try done.
      * by rewrite list_lookup_insert_ne.
      * eapply heap_update_eq, Hch.
      * by apply heap_alloc_old.
      * rewrite Hn. apply lookup_insert_eq.
    + exists ur', u',
        (Channel.set_users
           (<[Js.show (User.nickname u) := length (mheap c)]> (Channel.users ch)) ch),
        mr, m, mr', m'.
      unfold installed_plain. simpl. split_and!; try done.
      * by rewrite list_lookup_insert_ne.
      * eapply heap_update_eq, Hch.
      * by apply heap_alloc_old.
      * by rewrite lookup_insert_ne.
      * by apply heap_alloc_old.
Qed.
End Newer.

Section NewerLoop.
Context (name : string) (cr : ref).

Lemma joined_plain_list_update c ch ch2 uid :
  Channel.users ch2 = Channel.users ch -> cheap c !! cr = Some ch ->
  joined_plain c name cr uid ->
  joined_plain (set_cheap (<[cr := ch2]> (cheap c)) c) name cr uid.
Proof.
  intros Hsame Hch (ur & u & ch' & mr & m & mr' & m' & H1 & H2 & H3 & H4 & H5 & H6 & H7 & H8 & H9 & H10).
  assert (ch' = ch) as -> by congruence.
  exists ur, u, ch2, mr, m, mr', m'. simpl. split_and!; try done.
  - eapply heap_update_eq, Hch.
  - by rewrite Hsame.
Qed.

Lemma registered_installed c ur u ch uid :
  registered c uid -> registered (installed_plain name cr c ur u ch) uid.
Proof.
  intros (ur' & u' & H1 & H2). unfold registered, installed_plain. simpl.
  destruct (heap_update_some (uheap c) ur ur' u'
              (User.set_memberships (<[name := length (mheap c)]> (User.memberships u)) u) H2)
    as [u'' Hu'']. eauto.
Qed.

(** One token of a burst that is newer than the channel. *)
Lemma sjoin_token_newer i c ch :
  cheap c !! cr = Some ch ->
  (is_member i -> registered c (uid_of i)) ->
  exists c1 ch1,
    sjoin_token name cr true i c = (Ok tt, c1) /\
    users c1 = users c /\ channels c1 = channels c /\
    cheap c1 !! cr = Some ch1 /\
    Channel.modes ch1 = Channel.modes ch /\
    Channel.bans ch1 = Channel.bans ch ++ option_list (ban_of i) /\
    Channel.excepts ch1 = Channel.excepts ch ++ option_list (except_of i) /\
    Channel.inviteExcepts ch1 = Channel.inviteExcepts ch ++ option_list (invex_of i) /\
    (forall uid, registered c uid -> registered c1 uid) /\
    (forall uid, joined_plain c name cr uid -> joined_plain c1 name cr uid) /\
    (is_member i -> joined_plain c1 name cr (uid_of i)).
Proof.
  intros Hch Hreg.
  destruct (marker_cases i) as [->|[(Hne&Hb&He&Hi)|[(Hne&Hb&He&Hi)|[(Hne&Hb&He&Hi)|Hm]]]].
  - exists c, ch. unfold is_member. simpl. rewrite !app_nil_r.
    split_and!; try done. by intros [? _].
  - set (ch1 := Channel.set_bans (Channel.bans ch ++ [Js.slice 1 i]) ch).
    exists (set_cheap (<[cr := ch1]> (cheap c)) c), ch1.
    unfold sjoin_token, ban_of, except_of, invex_of, is_member.
    rewrite bool_decide_eq_false_2 by done. rewrite Hb, He, Hi.
    run. rewrite Hch. simpl. rewrite !app_nil_r. split_and!; try done.
    + eapply heap_update_eq, Hch.
    + intros uid. by apply (joined_plain_list_update c ch).
    + by intros (_ & ? & _).
  - set (ch1 := Channel.set_excepts (Channel.excepts ch ++ [Js.slice 1 i]) ch).
    exists (set_cheap (<[cr := ch1]> (cheap c)) c), ch1.
    unfold sjoin_token, ban_of, except_of, invex_of, is_member.
    rewrite bool_decide_eq_false_2 by done. rewrite Hb, He, Hi.
    run. rewrite Hch. simpl. rewrite !app_nil_r. split_and!; try done.
    + eapply heap_update_eq, Hch.
    + intros uid. by apply (joined_plain_list_update c ch).
    + by intros (_ & _ & ? & _).
  - set (ch1 := Channel.set_inviteExcepts (Channel.inviteExcepts ch ++ [Js.slice 1 i]) ch).
    exists (set_cheap (<[cr := ch1]> (cheap c)) c), ch1.
    unfold sjoin_token, ban_of, except_of, invex_of, is_member.
    rewrite bool_decide_eq_false_2 by done. rewrite Hb, He, Hi.
    run. rewrite Hch. simpl. rewrite !app_nil_r. split_and!; try done.
    + eapply heap_update_eq, Hch.
    + intros uid. by apply (joined_plain_list_update c ch).
    + by intros (_ & _ & _ & ?).
  - destruct (Hreg Hm) as (ur & u & Hur & Hu).
    exists (installed_plain name cr c ur u ch),
      (Channel.set_users
         (<[Js.show (User.nickname u) := length (mheap c)]> (Channel.users ch)) ch).
    split; [by apply sjoin_token_member_newer|].
    destruct Hm as (Hne & Hb & He & Hi).
    unfold ban_of, except_of, invex_of. rewrite Hb, He, Hi.
    simpl. rewrite !app_nil_r. split_and!; try done.
    + eapply heap_update_eq, Hch.
    + intros uid. by apply registered_installed.
    + intros uid. by apply joined_plain_kept.
    + intros _. by apply joined_plain_installed.
Qed.

(** The whole token loop of a burst that is newer than the channel. *)
Lemma sjoin_tokens_newer tokens : forall c ch,
  cheap c !! cr = Some ch ->
  (forall i, i ∈ tokens -> is_member i -> registered c (uid_of i)) ->
  exists c' ch',
    sjoin_tokens name cr true tokens c = (Ok tt, c') /\
    users c' = users c /\ channels c' = channels c /\
    cheap c' !! cr = Some ch' /\
    Channel.modes ch' = Channel.modes ch /\
    Channel.bans ch' = Channel.bans ch ++ omap ban_of tokens /\
    Channel.excepts ch' = Channel.excepts ch ++ omap except_of tokens /\
    Channel.inviteExcepts ch' = Channel.inviteExcepts ch ++ omap invex_of tokens /\
    (forall uid, joined_plain c name cr uid -> joined_plain c' name cr uid) /\
    (forall i, i ∈ tokens -> is_member i -> joined_plain c' name cr (uid_of i)).
Proof.
  induction tokens as [|i rest IH]; intros c ch Hch Hreg.
  - exists c, ch. simpl. rewrite !app_nil_r. split_and!; try done.
    intros i Hi. by apply elem_of_nil in Hi.
  - destruct (sjoin_token_newer i c ch Hch) as
      (c1 & ch1 & Hrun1 & Hu1 & Hc1 & Hch1 & Hm1 & Hb1 & He1 & Hi1 & Hreg1 & Hkeep1 & Hnew1).
    { intros Hm. apply Hreg; [apply elem_of_cons; by left | done]. }
    destruct (IH c1 ch1 Hch1) as
      (c' & ch' & Hrun & Hu & Hc & Hch' & Hm & Hb & He & Hi & Hkeep & Hnew).
    { intros j Hj Hmj. apply Hreg1, Hreg; [apply elem_of_cons; by right | done]. }
    exists c', ch'. simpl. rewrite (bind_ok _ _ _ _ _ Hrun1).
    split_and!; try congruence.
    + rewrite Hb, Hb1, <- app_assoc. f_equal. by destruct (ban_of i).
    + rewrite He, He1, <- app_assoc. f_equal. by destruct (except_of i).
    + rewrite Hi, Hi1, <- app_assoc. f_equal. by destruct (invex_of i).
    + intros uid Hj. by apply Hkeep, Hkeep1.
    + intros j [->|Hj]%elem_of_cons Hmj; [by apply Hkeep, Hnew1 | by apply Hnew].
Qed.
End NewerLoop.

(** C2, as the code has it.  SJOIN on an existing channel with an announced
    timestamp strictly greater than the local one, all of whose member
    tokens name registered users: the burst is processed to its end, the
    mode string of the channel is unchanged, every ban, except and
    invite-exception token is appended to its list in order, and every
    member token leaves its user in the channel with an empty prefix, both
    in the membership map of the user and under the nickname of the user in
    the member map of the channel. *)
Theorem sjoin_newer_timestamp source t t0 name modes tokens c cr ch :
  channels c !! name = Some cr ->
  cheap c !! cr = Some ch ->
  Channel.timestamp ch = Js.Num t0 ->
  t0 < t ->
  (forall i, i ∈ tokens -> is_member i -> registered c (uid_of i)) ->
  exists c' ch',
    sjoin source (Js.Num t) name modes (Some tokens) c = (Ok tt, c') /\
    channels c' !! name = Some cr /\
    cheap c' !! cr = Some ch' /\
    Channel.modes ch' = Channel.modes ch /\
    Channel.bans ch' = Channel.bans ch ++ omap ban_of tokens /\
    Channel.excepts ch' = Channel.excepts ch ++ omap except_of tokens /\
    Channel.inviteExcepts ch' = Channel.inviteExcepts ch ++ omap invex_of tokens /\
    forall i, i ∈ tokens -> is_member i -> joined_plain c' name cr (uid_of i).
Proof.
  intros Hname Hcr Hts Hlt Hreg.
  destruct (sjoin_tokens_newer name cr tokens c ch Hcr Hreg)
    as (c2 & ch' & Hrun & Hu & Hc & Hch' & Hm & Hb & He & Hi & _ & Hnew).
  exists (set_events (events c2 ++ [onSJoin (Some source) cr])
            (set_channels (<[name := cr]> (channels c2)) c2)), ch'.
  split_and!; try done.
  - unfold sjoin. unfold bind at 1. simpl. rewrite Hname.
    unfold bind at 1. simpl.
    rewrite (bind_ok _ _ _ _ _ (sjoin_resolve_newer c cr ch t0 t modes Hcr Hts Hlt)).
    unfold bind at 1. simpl. rewrite (bind_ok _ _ _ _ _ Hrun). done.
  - simpl. apply lookup_insert_eq.
Qed.

Lemma sjoin_newer_timestamp_witness :
  exists c' ch',
    sjoin "002" (Js.Num 200) "#a" "+s" (Some ["@001AAAAAA"; "&*!*@bad"]) user_and_channel
      = (Ok tt, c') /\
    channels c' !! "#a" = Some 0%nat /\
    cheap c' !! 0%nat = Some ch' /\
    Channel.modes ch' = "+nt" /\
    Channel.bans ch' = [] ++ omap ban_of ["@001AAAAAA"; "&*!*@bad"] /\
    Channel.excepts ch' = [] ++ omap except_of ["@001AAAAAA"; "&*!*@bad"] /\
    Channel.inviteExcepts ch' = [] ++ omap invex_of ["@001AAAAAA"; "&*!*@bad"] /\
    forall i, i ∈ ["@001AAAAAA"; "&*!*@bad"] -> is_member i ->
              joined_plain c' "#a" 0%nat (uid_of i).
Proof.
  apply (sjoin_newer_timestamp "002" 200 100 "#a" "+s" ["@001AAAAAA"; "&*!*@bad"]
           user_and_channel 0%nat (Channel.mk (Some "#a") (Js.Num 100) "+nt" ∅ [] [] []));
    [vm_compute; reflexivity | vm_compute; reflexivity | reflexivity | lia |].
  intros i Hi Hm. apply elem_of_cons in Hi as [->|Hi].
  - eexists _, _. split; vm_compute; reflexivity.
  - apply list_elem_of_singleton in Hi as ->.
    destruct Hm as (_ & Hb & _). vm_compute in Hb. discriminate.
Defined.

(** C2 as the specification words it does not hold: in a burst newer than
    the channel, a member token that names no registered user stops the
    handler where the user is looked up, and the ban token after it is not
    appended. *)
Lemma sjoin_newer_timestamp_counterexample :
  exists ch c' ch',
    channels user_and_channel !! "#a" = Some 0%nat /\
    cheap user_and_channel !! 0%nat = Some ch /\
    Channel.timestamp ch = Js.Num 100 /\
    _lineHandler 0 ":002 SJOIN 200 #a +s :@001ZZZZZZ &*!*@bad" user_and_channel
      = (Throw TypeError, c') /\
    channels c' !! "#a" = Some 0%nat /\
    cheap c' !! 0%nat = Some ch' /\
    ban_of "&*!*@bad" = Some "*!*@bad" /\
    Channel.bans ch' = [].
Proof. eexists _, _, _. split_and!; vm_compute; reflexivity. Qed.

(** ** The shape of a stored mode string *)





Lemma chars_append s1 s2 : Js.chars (s1 +:+ s2) = Js.chars s1 ++ Js.chars s2.
Proof. induction s1 as [|a s1 IH]; simpl; [done|]. unfold Js.chars in *. simpl. by f_equal. Qed.











(** ** MODE with a single letter *)

Lemma split_no_dash x :
  x ≠ "-"%char -> Js.split "-" (String "+" (String x EmptyString)) = [String "+" (String x EmptyString)].
Proof.
  intros Hx. unfold Js.split. cbn [Js.split_go String.prefix].
  destruct (Ascii.ascii_dec "-" "+") as [?|_]; [done|].
  destruct (Ascii.ascii_dec "-" x) as [?|_]; [congruence|]. done.
Qed.

Lemma split_dash x :
  x ≠ "-"%char -> Js.split "-" (String "-" (String x EmptyString)) = [EmptyString; String x EmptyString].
Proof.
  intros Hx. unfold Js.split. cbn [Js.split_go String.prefix].
  destruct (Ascii.ascii_dec "-" "-") as [_|?]; [|done].
  cbn [Nat.pred String.length].
  destruct (Ascii.ascii_dec "-" x) as [?|_]; [congruence|]. done.
Qed.

Lemma modes_of_plus x :
  x ≠ "-"%char ->
  addModes_of (String "+" (String x EmptyString)) = String x EmptyString /\
  removeModes_of (String "+" (String x EmptyString)) = EmptyString.
Proof. intros Hx. unfold addModes_of, removeModes_of. by rewrite split_no_dash. Qed.

Lemma modes_of_minus x :
  x ≠ "-"%char ->
  addModes_of (String "-" (String x EmptyString)) = EmptyString /\
  removeModes_of (String "-" (String x EmptyString)) = String x EmptyString.
Proof. intros Hx. unfold addModes_of, removeModes_of. by rewrite split_dash. Qed.

Lemma mode_loop_one step x st :
  mode_loop step [x] st = bind (step x st) ret.
Proof. done. Qed.

Lemma bind_ret_run {A} (m : M A) c : bind m ret c = m c.
Proof. unfold bind, ret. by destruct (m c) as [[?|?] ?]. Qed.

Section SingleLetter.
Context (source target : string) (args : list string) (x : ascii).
Context (c : Client) (cr : ref) (ch : Channel.t).
Hypothesis Hx : x ≠ "-"%char.
Hypothesis Hcr : channels c !! target = Some cr.
Hypothesis Hch : cheap c !! cr = Some ch.

(** [MODE target +x args] is one step of the adding loop, then the end of
    the handler. *)
Lemma mode_plus_run :
  mode source (Some target) (Some (String "+" (String x EmptyString))) args c =
  bind (mode_add cr x (mode_args source args,
                       collect_flags (String "+" (String x EmptyString)) []))
       (fun st => mode_finish source (Some target)
                    (Some (String "+" (String x EmptyString))) args cr st.2) c.
Proof using Hx Hcr Hch.
  unfold mode. simpl Js.show.
  erewrite bind_ok; [|by rewrite the_channel_run, Hcr].
  erewrite bind_ok; [|by rewrite read_channel_run, Hch].
  erewrite bind_ok; [|done].
  destruct (modes_of_plus x Hx) as [-> ->].
  change (Js.chars (String x EmptyString)) with [x].
  change (Js.chars EmptyString) with (@nil ascii).
  rewrite mode_loop_one. unfold bind at 1. rewrite bind_ret_run.
  unfold bind. destruct (mode_add _ _ _ _) as [[st|e] c1]; done.
Qed.

(** [MODE target -x args] is one step of the removing loop, then the end of
    the handler. *)
Lemma mode_minus_run :
  mode source (Some target) (Some (String "-" (String x EmptyString))) args c =
  bind (mode_remove cr x (mode_args source args,
                          collect_flags (String "-" (String x EmptyString)) []))
       (fun st => mode_finish source (Some target)
                    (Some (String "-" (String x EmptyString))) args cr st.2) c.
Proof using Hx Hcr Hch.
  unfold mode. simpl Js.show.
  erewrite bind_ok; [|by rewrite the_channel_run, Hcr].
  erewrite bind_ok; [|by rewrite read_channel_run, Hch].
  erewrite bind_ok; [|done].
  destruct (modes_of_minus x Hx) as [-> ->].
  change (Js.chars (String x EmptyString)) with [x].
  change (Js.chars EmptyString) with (@nil ascii).
  erewrite bind_ok; [|done].
  rewrite mode_loop_one. unfold bind at 1. rewrite bind_ret_run.
  unfold bind. destruct (mode_remove _ _ _ _) as [[st|e] c1]; done.
Qed.
End SingleLetter.

(** The end of the handler keeps everything of the channel but its mode
    string, and keeps the other heaps. *)
Lemma mode_finish_run source target modes all_args cr newModes c ch :
  cheap c !! cr = Some ch ->
  exists c',
    mode_finish source (Some target) modes all_args cr newModes c = (Ok tt, c') /\
    channels c' !! target = Some cr /\
    cheap c' !! cr =
      Some (Channel.set_modes ("+" +:+ Js.of_chars (Object_keys newModes)) ch) /\
    mheap c' = mheap c /\ uheap c' = uheap c /\ users c' = users c /\
    _writebuffer c' = _writebuffer c.
Proof.
  intros Hch. eexists. unfold mode_finish. run. rewrite Hch. simpl.
  split_and!; try done.
  - apply lookup_insert_eq.
  - eapply heap_update_eq, Hch.
Qed.

(** ** MODE: rank modes *)

Lemma rank_mode_cases r a :
  ModeToPrefix r = Some (String a EmptyString) -> (r, a) ∈ rank_table.
Proof.
  intros H. unfold rank_table.
  destruct r as [[] [] [] [] [] [] [] []]; try discriminate H;
    injection H as <-; set_solver.
Qed.

Lemma falsy_nonempty s : s ≠ EmptyString -> falsy (Some s) = false.
Proof. by destruct s. Qed.

Section Rank.
Context (c : Client) (cr mr : ref) (ch : Channel.t) (m : Member.t).
Context (r a : ascii) (nick : string) (args : list string) (o : Flags).
Hypothesis Hr : ModeToPrefix r = Some (String a EmptyString).
Hypothesis Hnick : nick ≠ EmptyString.
Hypothesis Hch : cheap c !! cr = Some ch.
Hypothesis Hmr : Channel.users ch !! nick = Some mr.
Hypothesis Hm : mheap c !! mr = Some m.

Lemma rank_not_sign : r ≠ "+"%char /\ r ≠ "-"%char /\ Js.includes "vhoaq" r = true.
Proof using Hr.
  apply rank_mode_cases in Hr. unfold rank_table in Hr.
  repeat (apply elem_of_cons in Hr as [[= -> ->]|Hr]; [by vm_compute|]).
  by apply elem_of_nil in Hr.
Qed.

Lemma mode_add_rank :
  mode_add cr r (nick :: args, o) c =
  (Ok (args, o),
   set_mheap (<[mr := Member.set_prefix (Member.prefix m +:+ String a EmptyString) m]> (mheap c)) c).
Proof using Hr Hnick Hch Hmr Hm.
  destruct rank_not_sign as (Hp & _ & Hin).
  unfold mode_add. rewrite bool_decide_eq_false_2 by done. rewrite Hin.
  unfold shift. cbn [head tail]. rewrite falsy_nonempty by done.
  run. rewrite Hch. run. rewrite Hmr. run. rewrite Hm. by rewrite Hr.
Qed.

Lemma mode_remove_rank :
  mode_remove cr r (nick :: args, o) c =
  (Ok (args, o),
   set_mheap
     (<[mr := Member.set_prefix
                (Js.replace (String a EmptyString) EmptyString (Member.prefix m)) m]>
        (mheap c)) c).
Proof using Hr Hnick Hch Hmr Hm.
  destruct rank_not_sign as (Hp & _ & Hin).
  unfold mode_remove. rewrite bool_decide_eq_false_2 by done. rewrite Hin.
  unfold shift. cbn [head tail]. rewrite falsy_nonempty by done.
  run. rewrite Hch. run. rewrite Hmr. run. rewrite Hm. by rewrite Hr.
Qed.
End Rank.

(** Removing the first occurrence of a symbol that has just been appended. *)

Lemma prefix_empty s : String.prefix EmptyString s = true.
Proof. by destruct s. Qed.

Lemma replace_char_head a s :
  Js.replace (String a EmptyString) EmptyString (String a s) = s.
Proof.
  cbn [Js.replace String.prefix].
  destruct (Ascii.ascii_dec a a) as [_|?]; [|done]. by rewrite prefix_empty.
Qed.

Lemma replace_char_other a x s :
  x ≠ a ->
  Js.replace (String a EmptyString) EmptyString (String x s) =
  String x (Js.replace (String a EmptyString) EmptyString s).
Proof.
  intros Hx. cbn [Js.replace String.prefix].
  destruct (Ascii.ascii_dec a x) as [?|_]; [congruence|done].
Qed.

Lemma all_char_nil a : all_char a EmptyString.
Proof. intros x Hx. by apply elem_of_nil in Hx. Qed.

Lemma all_char_cons a x s : all_char a (String x s) <-> x = a /\ all_char a s.
Proof.
  unfold all_char. change (Js.chars (String x s)) with (x :: Js.chars s). split.
  - intros H. split; [apply H; by left | intros y Hy; apply H; by right].
  - intros [-> H] y [->|Hy]%elem_of_cons; [done | by apply H].
Qed.

Lemma snoc_eq_cons a s :
  s +:+ String a EmptyString = String a s <-> all_char a s.
Proof.
  induction s as [|y s IH].
  - split; [intros _; apply all_char_nil | done].
  - rewrite all_char_cons. change (String y s +:+ String a EmptyString)
      with (String y (s +:+ String a EmptyString)). split.
    + intros H. injection H as Hy H. split; [done|]. subst y. by apply IH.
    + intros [-> H]. f_equal. by apply IH.
Qed.

Lemma replace_appended a s :
  Js.replace (String a EmptyString) EmptyString (s +:+ String a EmptyString) = s
  <-> clean_tail a s.
Proof.
  induction s as [|x s IH].
  - cbn [clean_tail]. change (EmptyString +:+ ?t) with t.
    rewrite replace_char_head. done.
  - change (String x s +:+ String a EmptyString)
      with (String x (s +:+ String a EmptyString)).
    cbn [clean_tail]. case_bool_decide as Hx.
    + subst x. rewrite replace_char_head. apply snoc_eq_cons.
    + rewrite replace_char_other by done. rewrite <- IH. split.
      * by intros [= ?].
      * by intros ->.
Qed.

Lemma clean_tail_absent a s : a ∉ Js.chars s -> clean_tail a s.
Proof.
  induction s as [|x s IH]; [done|].
  change (Js.chars (String x s)) with (x :: Js.chars s).
  rewrite not_elem_of_cons. intros [Hx Hs]. cbn [clean_tail].
  rewrite bool_decide_eq_false_2 by done. by apply IH.
Qed.

(** C6, as the code has it.  A MODE granting a rank to a member of the
    channel, followed by a MODE revoking the same rank from the same member,
    both complete; the revoke removes the first occurrence of the symbol of
    the rank from the prefix, so the prefix is back at its value before the
    grant exactly when, in that value, every character from the first
    occurrence of the symbol on is the symbol, which covers every prefix
    without the symbol. *)
Theorem rank_grant_then_revoke
    c source target args nick rest r a cr ch mr m :
  ModeToPrefix r = Some (String a EmptyString) ->
  channels c !! target = Some cr ->
  cheap c !! cr = Some ch ->
  Channel.users ch !! nick = Some mr ->
  mheap c !! mr = Some m ->
  mode_args source args = nick :: rest ->
  nick ≠ EmptyString ->
  exists c1 c2 m2,
    mode source (Some target) (Some (String "+" (String r EmptyString))) args c = (Ok tt, c1) /\
    mode source (Some target) (Some (String "-" (String r EmptyString))) args c1 = (Ok tt, c2) /\
    mheap c2 !! mr = Some m2 /\
    Member.uid m2 = Member.uid m /\
    Member.prefix m2 =
      Js.replace (String a EmptyString) EmptyString (Member.prefix m +:+ String a EmptyString) /\
    (Member.prefix m2 = Member.prefix m <-> clean_tail a (Member.prefix m)) /\
    (a ∉ Js.chars (Member.prefix m) -> Member.prefix m2 = Member.prefix m).
Proof.
  intros Hr Hcr Hch Hmr Hm Hargs Hnick.
  destruct (rank_not_sign r a Hr) as (_ & Hdash & _).
  set (m1 := Member.set_prefix (Member.prefix m +:+ String a EmptyString) m).
  set (ca := set_mheap (<[mr := m1]> (mheap c)) c).
  destruct (mode_finish_run source target
              (Some (String "+" (String r EmptyString))) args cr
              (collect_flags (String "+" (String r EmptyString)) []) ca ch Hch)
    as (c1 & Hfin1 & Hcr1 & Hch1 & Hmh1 & _).
  set (ch1 := Channel.set_modes
                ("+" +:+ Js.of_chars (Object_keys
                   (collect_flags (String "+" (String r EmptyString)) []))) ch) in *.
  assert (Hm1 : mheap c1 !! mr = Some m1).
  { rewrite Hmh1. simpl. eapply heap_update_eq, Hm. }
  set (m2 := Member.set_prefix
               (Js.replace (String a EmptyString) EmptyString (Member.prefix m1)) m1).
  set (cb := set_mheap (<[mr := m2]> (mheap c1)) c1).
  destruct (mode_finish_run source target
              (Some (String "-" (String r EmptyString))) args cr
              (collect_flags (String "-" (String r EmptyString)) []) cb ch1 Hch1)
    as (c2 & Hfin2 & Hcr2 & Hch2 & Hmh2 & _).
  exists c1, c2, m2. split_and!.
  - rewrite (mode_plus_run source target args r c cr ch Hdash Hcr Hch), Hargs.
    erewrite bind_ok; [|by apply (mode_add_rank c cr mr ch m r a nick)].
    exact Hfin1.
  - rewrite (mode_minus_run source target args r c1 cr ch1 Hdash Hcr1 Hch1), Hargs.
    erewrite bind_ok; [|by apply (mode_remove_rank c1 cr mr ch1 m1 r a nick)].
    exact Hfin2.
  - rewrite Hmh2. simpl. eapply heap_update_eq, Hm1.
  - done.
  - done.
  - apply replace_appended.
  - intros Ha. by apply replace_appended, clean_tail_absent.
Qed.

Lemma rank_grant_then_revoke_witness :
  exists c1 c2 m2,
    mode "001AAAAAA" (Some "#a") (Some "+h") ["alice"] alice_in_channel = (Ok tt, c1) /\
    mode "001AAAAAA" (Some "#a") (Some "-h") ["alice"] c1 = (Ok tt, c2) /\
    mheap c2 !! 0%nat = Some m2 /\
    Member.uid m2 = Some "001AAAAAA" /\
    Member.prefix m2 = Js.replace "%" EmptyString ("@+" +:+ "%") /\
    (Member.prefix m2 = "@+" <-> clean_tail "%" "@+") /\
    ("%"%char ∉ Js.chars "@+" -> Member.prefix m2 = "@+").
Proof.
  apply (rank_grant_then_revoke alice_in_channel "001AAAAAA" "#a" ["alice"] "alice" []
           "h" "%" 0%nat
           (Channel.mk (Some "#a") (Js.Num 100) "+nt" {["alice" := 0%nat]} [] [] [])
           0%nat (Member.mk (Some "001AAAAAA") "@+"));
    try (vm_compute; reflexivity).
  discriminate.
Defined.

(** C6 as the specification words it does not hold for every starting
    prefix: an operator with voice who is granted operator status again and
    has it revoked ends with the two symbols in the other order. *)
Lemma rank_grant_then_revoke_counterexample :
  exists c2 m0 m2,
    deliver 0 [":001AAAAAA MODE #a +o alice"; ":001AAAAAA MODE #a -o alice"]
      alice_in_channel = (Ok tt, c2) /\
    mheap alice_in_channel !! 0%nat = Some m0 /\
    mheap c2 !! 0%nat = Some m2 /\
    Member.prefix m0 = "@+" /\ Member.prefix m2 = "+@" /\
    Member.prefix m2 ≠ Member.prefix m0.
Proof.
  eexists _, _, _. split_and!; [vm_compute; reflexivity .. |]. vm_compute. discriminate.
Qed.

(** ** MODE: list modes *)



Section ListMode.
Context (c : Client) (cr : ref) (ch : Channel.t).
Context (x : ascii) (args : list string) (o : Flags).
Hypothesis Hx : x ∈ Js.chars "beI".
Hypothesis Hch : cheap c !! cr = Some ch.



End ListMode.








(** ** [sjoinToChannel] *)

Section Join.
Context (channel : ref).

(** The callback either accepts the member, or throws and leaves the client
    as it found it. *)
Lemma sjoin_member_inv buffer member c r c' :
  sjoin_member channel buffer member c = (r, c') ->
  (exists m o user u,
     mheap c !! member = Some m /\ cheap c !! channel = Some o /\
     users c !! Js.show (Member.uid m) = Some user /\ uheap c !! user = Some u /\
     User.memberships u !! Js.show (Channel.name o) = None /\
     r = Ok (buffer +:+ Member.prefix m +:+ Js.show (Member.uid m) +:+ " ") /\
     c' = member_installed channel c o user u member) \/
  (exists e, r = Throw e /\ c' = c).
Proof.
  intros Hrun. unfold sjoin_member in Hrun. crunch Hrun; simplify_eq; eauto.
  left. eexists _, _, _, _. split_and!; eauto.
Qed.

Lemma sjoin_member_ok buffer member c m o user u :
  mheap c !! member = Some m -> cheap c !! channel = Some o ->
  users c !! Js.show (Member.uid m) = Some user -> uheap c !! user = Some u ->
  User.memberships u !! Js.show (Channel.name o) = None ->
  sjoin_member channel buffer member c =
  (Ok (buffer +:+ Member.prefix m +:+ Js.show (Member.uid m) +:+ " "),
   member_installed channel c o user u member).
Proof.
  intros Hm Ho Huser Hu Hnone. unfold sjoin_member.
  run. rewrite Hm. run. rewrite Ho. run. rewrite Huser. run. rewrite Hu. run.
  rewrite Hnone. run. rewrite Ho. run. by rewrite Hu.
Qed.

Lemma sjoin_member_unregistered buffer member c m o :
  mheap c !! member = Some m -> cheap c !! channel = Some o ->
  users c !! Js.show (Member.uid m) = None ->
  sjoin_member channel buffer member c =
  (Throw (Error ("User " +:+ Js.show (Member.uid m) +:+ " not registered")), c).
Proof.
  intros Hm Ho Huser. unfold sjoin_member.
  run. rewrite Hm. run. rewrite Ho. run. by rewrite Huser.
Qed.

Lemma sjoin_member_already buffer member c m o user u mr :
  mheap c !! member = Some m -> cheap c !! channel = Some o ->
  users c !! Js.show (Member.uid m) = Some user -> uheap c !! user = Some u ->
  User.memberships u !! Js.show (Channel.name o) = Some mr ->
  sjoin_member channel buffer member c =
  (Throw (Error ("User " +:+ Js.show (Member.uid m) +:+ " is already in channel "
                 +:+ Js.show (Channel.name o))), c).
Proof.
  intros Hm Ho Huser Hu Hsome. unfold sjoin_member.
  run. rewrite Hm. run. rewrite Ho. run. rewrite Huser. run. rewrite Hu. run.
  by rewrite Hsome.
Qed.


End Join.

Lemma sjoinToChannel_run now channel members c o :
  cheap c !! channel = Some o ->
  sjoinToChannel now channel members c =
  bind (sjoin_members channel (sjoin_header now o) members) write (channel_stored c channel o).
Proof.
  intros Ho. unfold sjoinToChannel, channel_stored, sjoin_header.
  erewrite bind_ok; [|by rewrite read_channel_run, Ho].
  unfold bind at 1. simpl. unfold bind at 1.
  by destruct (channels c !! Js.show (Channel.name o)).
Qed.

Section JoinList.
Context (channel : ref).

Lemma member_unregistered_kept c o user u member' member :
  member_unregistered c member ->
  member_unregistered (member_installed channel c o user u member') member.
Proof. intros (m & Hm & Hu). by exists m. Qed.

Lemma member_already_in_kept c o user u member' name member :
  uheap c !! user = Some u ->
  member_already_in c name member ->
  member_already_in (member_installed channel c o user u member') name member.
Proof.
  intros Hu (m & user1 & u1 & mr & Hm & Huser1 & Hu1 & Hmr).
  destruct (decide (user1 = user)) as [->|Hne].
  - assert (u1 = u) as -> by congruence.
    set (u' := User.set_memberships
                 (<[Js.show (Channel.name o) := member']> (User.memberships u)) u).
    destruct (decide (name = Js.show (Channel.name o))) as [->|Hn].
    + exists m, user, u', member'. simpl. split_and!; try done.
      * eapply heap_update_eq, Hu.
      * simpl. apply lookup_insert_eq.
    + exists m, user, u', mr. simpl. split_and!; try done.
      * eapply heap_update_eq, Hu.
      * simpl. by rewrite lookup_insert_ne.
  - exists m, user1, u1, mr. simpl. split_and!; try done.
    by rewrite list_lookup_insert_ne.
Qed.

(** A list with a member that is unregistered, or already in the channel,
    is rejected: at that member, if not before. *)
Lemma sjoin_members_rejects members : forall c buffer o,
  cheap c !! channel = Some o ->
  (exists member, member ∈ members /\
     (member_unregistered c member \/
      member_already_in c (Js.show (Channel.name o)) member)) ->
  exists e c', sjoin_members channel buffer members c = (Throw e, c').
Proof.
  induction members as [|head rest IH]; intros c buffer o Ho (bad & Hin & Hbad).
  { by apply elem_of_nil in Hin. }
  simpl. destruct (sjoin_member channel buffer head c) as [r c1] eqn:Hstep.
  destruct (sjoin_member_inv channel _ _ _ _ _ Hstep)
    as [(m & o' & user & u & Hm & Ho' & Huser & Hu & Hnone & -> & ->)|(e & -> & ->)].
  - assert (o' = o) as -> by congruence.
    rewrite (bind_ok _ _ _ _ _ Hstep).
    apply elem_of_cons in Hin as [->|Hin].
    + destruct Hbad as [(m' & Hm' & Hu')|(m' & user' & u' & mr & Hm' & Huser' & Hu' & Hmr)];
        simplify_eq.
    + eapply (IH _ _ (Channel.set_users _ o)).
      * simpl. eapply heap_update_eq, Ho.
      * exists bad. split; [done|]. destruct Hbad as [Hbad|Hbad]; [left|right].
        -- by apply member_unregistered_kept.
        -- simpl. by apply member_already_in_kept.
  - rewrite (bind_throw _ _ _ _ _ Hstep). eauto.
Qed.

Lemma member_admissible_kept c o user u member' name member user1 :
  user1 ≠ user ->
  member_admissible c name member user1 ->
  member_admissible (member_installed channel c o user u member') name member user1.
Proof.
  intros Hne (m & u1 & Hm & Huser1 & Hu1 & Hnone).
  exists m, u1. simpl. split_and!; try done. by rewrite list_lookup_insert_ne.
Qed.

Lemma members_admissible_kept c o user u member' name members urefs :
  user ∉ urefs ->
  Forall2 (member_admissible c name) members urefs ->
  Forall2 (member_admissible (member_installed channel c o user u member') name)
          members urefs.
Proof.
  intros Hnotin Hall. induction Hall as [|member user1 members urefs Hadm Hall IH].
  - constructor.
  - apply not_elem_of_cons in Hnotin as [Hne Hnotin]. constructor; [|by apply IH].
    apply member_admissible_kept; [congruence | done].
Qed.

(** A list of members of pairwise distinct registered users, none of them
    in the channel, is accepted, and nothing is written in the meantime. *)
Lemma sjoin_members_accepts members : forall urefs c buffer o,
  cheap c !! channel = Some o ->
  Forall2 (member_admissible c (Js.show (Channel.name o))) members urefs ->
  NoDup urefs ->
  exists b c', sjoin_members channel buffer members c = (Ok b, c') /\
               _writebuffer c' = _writebuffer c.
Proof.
  induction members as [|head rest IH]; intros urefs c buffer o Ho Hall Hnd.
  { simpl. eauto. }
  apply Forall2_cons_inv_l in Hall as (user & urefs' & (m & u & Hm & Huser & Hu & Hnone) & Hall & ->).
  apply NoDup_cons in Hnd as [Hnotin Hnd].
  simpl. rewrite (bind_ok _ _ _ _ _ (sjoin_member_ok channel buffer _ _ _ _ _ _ Hm Ho Huser Hu Hnone)).
  edestruct (IH urefs' (member_installed channel c o user u head)
               (buffer +:+ Member.prefix m +:+ Js.show (Member.uid m) +:+ " ")
               (Channel.set_users
                  (<[Js.show (User.nickname u) := head]> (Channel.users o)) o))
    as (b & c' & Hrun & Hwb); [| | done | ].
  - simpl. eapply heap_update_eq, Ho.
  - simpl. by apply members_admissible_kept.
  - exists b, c'. split; [exact Hrun|]. by rewrite Hwb.
Qed.
End JoinList.

(** C8, as the code has it.  With [o] the channel argument,
    [sjoinToChannel] throws when a member argument has a UID that is not in
    the user store, throws when the user of a member argument has a
    membership under the name of the channel, and completes when every
    member argument names a registered user without such a membership, no
    two of them name the same user, the name of the channel is not the
    name of a property that every object inherits, and the dictionaries
    have the prototypes they were made with (the membership test reads
    [memberships[channel.name]], which is there for every user under a name
    such as [toString], and under the name of a field of the object that an
    assignment under [__proto__] has made the prototype). *)
Theorem sjoinToChannel_rejection now channel members c o :
  cheap c !! channel = Some o ->
  ((exists member, member ∈ members /\ member_unregistered c member) ->
   exists e c', sjoinToChannel now channel members c = (Throw e, c')) /\
  ((exists member, member ∈ members /\
      member_already_in c (Js.show (Channel.name o)) member) ->
   exists e c', sjoinToChannel now channel members c = (Throw e, c')) /\
  (forall urefs,
     Js.show (Channel.name o) ∉ Object_prototype ->
     prototypes_intact c ->
     Forall2 (member_admissible c (Js.show (Channel.name o))) members urefs ->
     NoDup urefs ->
     exists c', sjoinToChannel now channel members c = (Ok tt, c')).
Proof.
  intros Ho. rewrite (sjoinToChannel_run now channel members c o Ho).
  assert (Ho' : cheap (channel_stored c channel o) !! channel = Some o).
  { unfold channel_stored. by destruct (channels c !! _). }
  assert (Hsame : forall P : Client -> Prop,
            (forall v, P c -> P (set_channels v c)) -> P c -> P (channel_stored c channel o)).
  { intros P HP Hc. unfold channel_stored. destruct (channels c !! _); auto. }
  split_and!.
  - intros (bad & Hin & Hbad).
    destruct (sjoin_members_rejects channel members (channel_stored c channel o)
                (sjoin_header now o) o Ho') as (e & c' & Hrun).
    { exists bad. split; [done|]. left. revert Hbad. by apply Hsame. }
    exists e, c'. by apply bind_throw.
  - intros (bad & Hin & Hbad).
    destruct (sjoin_members_rejects channel members (channel_stored c channel o)
                (sjoin_header now o) o Ho') as (e & c' & Hrun).
    { exists bad. split; [done|]. right. revert Hbad. by apply Hsame. }
    exists e, c'. by apply bind_throw.
  - intros urefs _ _ Hall Hnd.
    destruct (sjoin_members_accepts channel members urefs (channel_stored c channel o)
                (sjoin_header now o) o Ho') as (b & c' & Hrun & _); [|done|].
    { revert Hall. by apply Hsame. }
    eexists. rewrite (bind_ok _ _ _ _ _ Hrun). reflexivity.
Qed.

Lemma sjoinToChannel_rejection_witness :
  exists c', sjoinToChannel 0 0%nat [0%nat; 1%nat] with_two_users = (Ok tt, c').
Proof.
  destruct (sjoinToChannel_rejection 0 0%nat [0%nat; 1%nat] with_two_users
              (Channel.mk (Some "#a") (Js.Num 100) "+nt" ∅ [] [] []))
    as (_ & _ & Haccept); [vm_compute; reflexivity|].
  apply (Haccept [0%nat; 1%nat]).
  - unfold Object_prototype. apply (bool_decide_unpack _). vm_compute. exact I.
  - unfold prototypes_intact. apply (bool_decide_unpack _). vm_compute. exact I.
  - constructor; [|constructor; [|constructor]].
    all: eexists _, _; split_and!; vm_compute; reflexivity.
  - apply (bool_decide_unpack _). vm_compute. exact I.
Defined.

(** C8 as the specification words it does not hold: with the same member
    passed twice, neither reason for a rejection is there before the call,
    and the call throws all the same. *)
Lemma sjoinToChannel_rejection_counterexample :
  exists o e c',
    cheap with_app_member !! 0%nat = Some o /\
    (forall member, member ∈ [0%nat; 0%nat] ->
       ~ member_unregistered with_app_member member /\
       ~ member_already_in with_app_member (Js.show (Channel.name o)) member) /\
    sjoinToChannel 0 0%nat [0%nat; 0%nat] with_app_member = (Throw e, c').
Proof.
  eexists _, _, _. split_and!; [vm_compute; reflexivity | | vm_compute; reflexivity].
  intros member Hin.
  assert (member = 0%nat) as ->.
  { repeat (apply elem_of_cons in Hin as [->|Hin]; [done|]). by apply elem_of_nil in Hin. }
  split.
  - intros (m & Hm & Hu). vm_compute in Hm. injection Hm as <-.
    vm_compute in Hu. discriminate.
  - intros (m & user & u & mr & Hm & Huser & Hu & Hmr).
    vm_compute in Hm. injection Hm as <-.
    vm_compute in Huser. injection Huser as <-.
    vm_compute in Hu. injection Hu as <-.
    vm_compute in Hmr. discriminate.
Qed.

(** ** [sjoinToChannel]: what an exception leaves behind *)

Section JoinSpec.
Context (channel : ref).



End JoinSpec.




(** ** The membership invariant and NICK *)

(** C1 fails on the code.  After the introduction of a user and its join,
    the memberships are mirrored; the NICK command is then processed to
    its end, and the membership of the user is no longer found under its
    nickname in the channel, where it is still filed under the former
    one. *)
Theorem nick_breaks_membership_mirror :
  memberships_mirrored alice_in_channel /\
  exists c' ur u cr ch mr,
    _lineHandler 0 ":001AAAAAA NICK bob 200" alice_in_channel = (Ok tt, c') /\
    users c' !! "001AAAAAA" = Some ur /\ uheap c' !! ur = Some u /\
    User.nickname u = Some "bob" /\
    User.memberships u !! "#a" = Some mr /\
    channels c' !! "#a" = Some cr /\ cheap c' !! cr = Some ch /\
    Channel.users ch !! "bob" = None /\
    Channel.users ch !! "alice" = Some mr /\
    ~ memberships_mirrored c'.
Proof.
  split.
  - intros uid ur u name mr Hur Hu Hmr.
    apply elem_of_map_to_list in Hur. vm_compute in Hur.
    apply list_elem_of_singleton in Hur. injection Hur as -> ->.
    vm_compute in Hu. injection Hu as <-.
    apply elem_of_map_to_list in Hmr. vm_compute in Hmr.
    apply list_elem_of_singleton in Hmr. injection Hmr as -> ->.
    eexists 0%nat, _. split_and!; vm_compute; reflexivity.
  - eexists _, 0%nat, _, 0%nat, _, 0%nat.
    split_and!; [vm_compute; reflexivity .. |].
    intros Hinv.
    destruct (Hinv "001AAAAAA" 0%nat
                (User.mk (Some "bob") (Js.Num 0) (Js.Num 90) (Some "al") (Some "host")
                   (Some "001AAAAAA") (Some "*") (Some "+i") (Some "vhost")
                   (Some "chost") (Some "ip") (Some "Alice") None None None
                   {["#a" := 0%nat]})
                "#a" 0%nat) as (cr & ch & Hcr & Hch & Hlook);
      [vm_compute; reflexivity .. |].
    vm_compute in Hcr. injection Hcr as <-.
    vm_compute in Hch. injection Hch as <-.
    vm_compute in Hlook. discriminate.
Qed.

(** ** The framer and the line that is not there *)

(** C9 fails on the code.  One chunk that is one complete line makes the
    framer hand two lines to the dispatcher: the line, and an empty one. *)
Theorem framer_delivers_empty_line :
  frame EmptyString ("PING :irc.example" +:+ CRLF) = (["PING :irc.example"; EmptyString], EmptyString) /\
  exists c',
    _dataHandler 0 ("PING :irc.example" +:+ CRLF) (newClient "999") = (Ok tt, c') /\
    raw_lines c' = ["PING :irc.example"; EmptyString] /\
    _buffer c' = EmptyString.
Proof.
  split; [vm_compute; reflexivity|].
  eexists. split_and!; vm_compute; reflexivity.
Qed.

(** ** The framer, line by line *)

(** Apart from the empty lines above, the framer does what a framer has to
    do: however the stream is cut into chunks, the buffer is the text after
    the last terminator of what has been received, and the non-empty lines
    handed over are the non-empty lines of the text before it, in order. *)

Section Split.
Context (sep : string).
Hypothesis Hsep : sep ≠ EmptyString.

Lemma split_go_nonempty k s : Js.split_go sep k s ≠ [].
Proof.
  revert k. induction s as [|c s IH]; intros k; [done|].
  destruct k as [|k]; [|apply IH]. cbn [Js.split_go].
  destruct (String.prefix sep (String c s)); [done|].
  by destruct (Js.split_go sep 0 s).
Qed.

Lemma split_go_snoc k s : exists init lst, Js.split_go sep k s = init ++ [lst].
Proof.
  destruct (exists_last (split_go_nonempty k s)) as (init & lst & H). eauto.
Qed.

Lemma prefix_length s : String.prefix sep s = true -> (String.length sep <= String.length s)%nat.
Proof using Type.
  clear Hsep. revert s. induction sep as [|a p IH]; intros s H; simpl; [lia|].
  destruct s as [|c s]; [done|]. simpl in H.
  destruct (Ascii.ascii_dec a c); [|done]. apply IH in H. simpl. lia.
Qed.

Lemma prefix_app_long s d :
  (String.length sep <= String.length s)%nat ->
  String.prefix sep (s +:+ d) = String.prefix sep s.
Proof using Type.
  clear Hsep. revert s. induction sep as [|a p IH]; intros s H.
  - by destruct s, d.
  - destruct s as [|c s]; [simpl in H; lia|].
    change (String c s +:+ d) with (String c (s +:+ d)). simpl.
    destruct (Ascii.ascii_dec a c); [|done]. apply IH. simpl in H. lia.
Qed.

Lemma prefix_app s d :
  String.prefix sep s = true -> String.prefix sep (s +:+ d) = true.
Proof using Type.
  intros H. rewrite prefix_app_long; [done | by apply prefix_length].
Qed.

Lemma prefix_slice s :
  String.prefix sep s = true -> s = sep +:+ Js.slice (String.length sep) s.
Proof using Type.
  clear Hsep. revert s. induction sep as [|a p IH]; intros s H; [done|].
  destruct s as [|c s]; [done|]. simpl in H.
  destruct (Ascii.ascii_dec a c) as [->|]; [|done].
  change (String c p +:+ ?t) with (String c (p +:+ t)). simpl. f_equal. by apply IH.
Qed.

Lemma split_short s :
  (String.length s < String.length sep)%nat -> Js.split_go sep 0 s = [s].
Proof using Type.
  induction s as [|c s IH]; intros H; [done|]. cbn [Js.split_go].
  destruct (String.prefix sep (String c s)) eqn:Hp.
  - apply prefix_length in Hp. lia.
  - rewrite IH; [done | simpl in H; lia].
Qed.

Lemma concat_cons_head c x xs :
  String.concat sep (String c x :: xs) = String c (String.concat sep (x :: xs)).
Proof. by destruct xs. Qed.

(** Joining the pieces with the separator gives the text back. *)
Lemma concat_split_go s : forall k,
  String.concat sep (Js.split_go sep k s) = Js.slice k s.
Proof using Hsep.
  induction s as [|c s IH]; intros k.
  - by destruct k.
  - destruct k as [|k]; [|apply IH]. cbn [Js.split_go Js.slice].
    destruct (String.prefix sep (String c s)) eqn:Hp.
    + destruct (Js.split_go sep (Nat.pred (String.length sep)) s) as [|y ys] eqn:HY.
      { by apply split_go_nonempty in HY. }
      change (String.concat sep (EmptyString :: y :: ys))
        with (sep +:+ String.concat sep (y :: ys)).
      rewrite <- HY, IH.
      transitivity (sep +:+ Js.slice (String.length sep) (String c s));
        [|symmetry; by apply prefix_slice].
      f_equal. by destruct sep.
    + destruct (Js.split_go sep 0 s) as [|x xs] eqn:HX.
      { by apply split_go_nonempty in HX. }
      rewrite concat_cons_head, <- HX, IH. done.
Qed.

Lemma split_go_single s x : Js.split_go sep 0 s = [x] -> x = s.
Proof using Hsep. intros H. pose proof (concat_split_go s 0) as Hc. by rewrite H in Hc. Qed.

(** Splitting a text that goes on: the pieces before the last one stay, and
    the last one is split again together with what follows. *)
Lemma split_go_app s : forall k d init lst,
  (k <= String.length s)%nat ->
  Js.split_go sep k s = init ++ [lst] ->
  Js.split_go sep k (s +:+ d) = init ++ Js.split_go sep 0 (lst +:+ d).
Proof using Hsep.
  induction s as [|c s IH]; intros k d init lst Hk H.
  - assert (k = 0%nat) as -> by (simpl in Hk; lia).
    destruct init as [|? [|? ?]]; simplify_eq/=. done.
  - change (String c s +:+ d) with (String c (s +:+ d)).
    destruct k as [|k].
    + cbn [Js.split_go] in *.
      change (String c (s +:+ d)) with (String c s +:+ d).
      destruct (String.prefix sep (String c s)) eqn:Hp.
      * rewrite (prefix_app _ d Hp).
        destruct (split_go_snoc (Nat.pred (String.length sep)) s) as (Yi & Yl & HY).
        rewrite HY in H. rewrite app_comm_cons in H. apply app_inj_tail in H as [<- <-].
        simpl. f_equal. apply IH; [|done].
        apply prefix_length in Hp. simpl in Hp. lia.
      * destruct (String.prefix sep (String c s +:+ d)) eqn:Hpd.
        -- assert (Hshort : (String.length (String c s) < String.length sep)%nat).
           { destruct (decide (String.length sep <= String.length (String c s))%nat) as [Hle|];
               [|lia].
             rewrite (prefix_app_long _ d Hle) in Hpd. congruence. }
           assert (Hone : Js.split_go sep 0 (String c s) = [String c s])
             by by apply split_short.
           cbn [Js.split_go] in Hone. rewrite Hp in Hone. rewrite Hone in H.
           destruct init as [|? [|? ?]]; simplify_eq/=.
           change (String c (s +:+ d)) with (String c s +:+ d).
           cbn [Js.split_go]. by rewrite Hpd.
        -- destruct (split_go_snoc 0 s) as (Xi & Xl & HX). rewrite HX in H.
           rewrite (IH 0%nat d Xi Xl) by (done || lia).
           destruct Xi as [|x Xi].
           ++ simpl in H. destruct init as [|? [|? ?]]; simplify_eq/=.
              apply split_go_single in HX as ->.
              change (String c (s +:+ d)) with (String c s +:+ d) in *.
              rewrite Hpd. by destruct (Js.split_go sep 0 (s +:+ d)).
           ++ simpl in H. rewrite app_comm_cons in H.
              apply app_inj_tail in H as [<- <-]. done.
    + cbn [Js.split_go] in *. apply IH; [|done]. simpl in Hk. lia.
Qed.
End Split.

Lemma CRLF_nonempty : CRLF ≠ EmptyString.
Proof. done. Qed.

Lemma append_empty_r s : s +:+ EmptyString = s.
Proof. induction s as [|c s IH]; [done|]. change (String c s +:+ ?t) with (String c (s +:+ t)). by f_equal. Qed.

Lemma append_assoc s1 s2 s3 : (s1 +:+ s2) +:+ s3 = s1 +:+ (s2 +:+ s3).
Proof.
  induction s1 as [|c s1 IH]; [done|].
  change (String c s1 +:+ ?t) with (String c (s1 +:+ t)).
  change (String c (s1 +:+ s2) +:+ s3) with (String c ((s1 +:+ s2) +:+ s3)). by f_equal.
Qed.

Lemma nonempty_app l1 l2 : nonempty (l1 ++ l2) = nonempty l1 ++ nonempty l2.
Proof. apply filter_app. Qed.

(** One chunk. *)
Lemma frame_pieces buffer data init lst :
  Js.split CRLF (buffer +:+ data) = init ++ [lst] ->
  (frame buffer data).2 = lst /\ nonempty (frame buffer data).1 = nonempty init.
Proof.
  intros H. unfold frame. rewrite H. destruct init as [|x init].
  - simpl. split; [|done]. symmetry. by apply (split_go_single CRLF CRLF_nonempty).
  - rewrite bool_decide_eq_true_2 by (rewrite length_app; simpl; lia).
    rewrite last_snoc. case_bool_decide as Hl.
    + injection Hl as ->. split; [done|]. cbn [fst]. rewrite nonempty_app.
      unfold nonempty at 2. rewrite filter_cons_False by naive_solver.
      rewrite filter_nil. by rewrite app_nil_r.
    + rewrite removelast_last. done.
Qed.

Lemma feed_pieces chunks : forall pre init lst,
  Js.split CRLF pre = init ++ [lst] ->
  exists init' lst',
    Js.split CRLF (pre +:+ stream chunks) = init' ++ [lst'] /\
    (feed lst chunks).2 = lst' /\
    nonempty init ++ nonempty (feed lst chunks).1 = nonempty init'.
Proof.
  induction chunks as [|data rest IH]; intros pre init lst Hpre.
  - exists init, lst. simpl. rewrite append_empty_r, app_nil_r. done.
  - destruct (split_go_snoc CRLF 0 (lst +:+ data)) as (Li & Ll & HL).
    destruct (frame_pieces lst data Li Ll HL) as [Hb Hlines].
    destruct (IH (pre +:+ data) (init ++ Li) Ll) as (init' & lst' & Hall & Hbuf & Hne).
    { change (Js.split CRLF ?t) with (Js.split_go CRLF 0 t).
      rewrite (split_go_app CRLF CRLF_nonempty pre 0 data init lst) by (done || lia).
      by rewrite HL, app_assoc. }
    exists init', lst'. simpl. rewrite <- append_assoc. split; [done|].
    destruct (frame lst data) as [lines b]. simpl in Hb, Hlines. subst b.
    destruct (feed Ll rest) as [more b']. simpl in *. split; [done|].
    by rewrite nonempty_app, app_assoc, Hlines, <- nonempty_app.
Qed.

(** The framer over any sequence of chunks, from an empty buffer. *)
Lemma framer_lines chunks :
  exists init lst,
    Js.split CRLF (stream chunks) = init ++ [lst] /\
    (feed EmptyString chunks).2 = lst /\
    nonempty (feed EmptyString chunks).1 = nonempty init.
Proof.
  destruct (feed_pieces chunks EmptyString [] EmptyString eq_refl)
    as (init & lst & H1 & H2 & H3).
  exists init, lst. done.
Qed.

(** What [_dataHandler] does with one chunk, in terms of the framer. *)
Lemma dataHandler_frame now data c :
  destroyed c = false ->
  _dataHandler now data c =
  deliver now (frame (_buffer c) data).1 (set_buffer (frame (_buffer c) data).2 c).
Proof.
  intros Hd. unfold _dataHandler. unfold bind at 1. simpl. rewrite Hd.
  by destruct (frame (_buffer c) data).
Qed.

(** ** Sessions, line by line *)

(** The two scenarios of the specification. *)

Example services_burst :
  exists c' ch u m,
    deliver 0 [":999 UID Auth 0 1700000000 auth host 999AAAAA * +i vhost chost ip :Auth";
               ":999 SJOIN 1700000000 #services +nt :@999AAAAA"] (newClient "999")
      = (Ok tt, c') /\
    channels c' !! "#services" = Some 0%nat /\ cheap c' !! 0%nat = Some ch /\
    users c' !! "999AAAAA" = Some 0%nat /\ uheap c' !! 0%nat = Some u /\
    Channel.users ch !! "Auth" = Some 0%nat /\
    User.memberships u !! "#services" = Some 0%nat /\
    mheap c' !! 0%nat = Some m /\ Member.prefix m = "@".
Proof. eexists _, _, _, _. split_and!; vm_compute; reflexivity. Qed.

Example ban_and_unban :
  exists c' ch,
    deliver 0 [":001AAAAAA MODE #a +b *!*@bad.example";
               ":001AAAAAA MODE #a -b *!*@bad.example"] one_channel = (Ok tt, c') /\
    cheap c' !! 0%nat = Some ch /\ Channel.bans ch = [].
Proof. eexists _, _. split_and!; vm_compute; reflexivity. Qed.

(** The three timestamp rules of SJOIN, through the dispatcher.  The union
    is stored without a leading [+]. *)
Example equal_timestamp_line :
  exists c' ch,
    _lineHandler 0 ":002 SJOIN 100 #a +ts :" one_channel = (Ok tt, c') /\
    cheap c' !! 0%nat = Some ch /\ Channel.modes ch = "tsn".
Proof. eexists _, _. split_and!; vm_compute; reflexivity. Qed.

Example older_timestamp_line :
  exists c' ch,
    _lineHandler 0 ":002 SJOIN 99 #a +s :" one_channel = (Ok tt, c') /\
    cheap c' !! 0%nat = Some ch /\ Channel.modes ch = "+s".
Proof. eexists _, _. split_and!; vm_compute; reflexivity. Qed.

Example newer_timestamp_line :
  exists c' ch m,
    _lineHandler 0 ":002 SJOIN 200 #a +s :@001AAAAAA &*!*@bad" user_and_channel = (Ok tt, c') /\
    cheap c' !! 0%nat = Some ch /\ Channel.modes ch = "+nt" /\
    Channel.bans ch = ["*!*@bad"] /\
    Channel.users ch !! "alice" = Some 0%nat /\
    mheap c' !! 0%nat = Some m /\ Member.prefix m = EmptyString.
Proof. eexists _, _, _. split_and!; vm_compute; reflexivity. Qed.

(** * Properties of the other operations *)

(** ** Two sample states *)

Ltac literal := unfold spacefree; apply (bool_decide_unpack _); vm_compute; exact I.

Ltac only_entry H :=
  apply elem_of_map_to_list in H; vm_compute in H;
  apply list_elem_of_singleton in H; injection H as -> ->.

Lemma alice_in_channel_indexed : indexed alice_in_channel.
Proof.
  split.
  - intros uid r H. only_entry H. exists alice. split_and!; vm_compute; reflexivity.
  - intros nick r H. only_entry H. exists alice. split_and!; vm_compute; reflexivity.
Qed.

Lemma alice_in_channel_coherent : coherent alice_in_channel.
Proof.
  split; [apply alice_in_channel_indexed|]. split.
  - intros name cr H. only_entry H. eexists. split; vm_compute; reflexivity.
  - intros uid ur u name mr Hur Hu Hmr. only_entry Hur.
    vm_compute in Hu. injection Hu as <-. only_entry Hmr.
    eexists 0%nat, _. split_and!; vm_compute; reflexivity.
Qed.

Ltac not_inherited := unfold Object_prototype; apply (bool_decide_unpack _); vm_compute; exact I.

Ltac ordinary_line :=
  unfold ordinary, Object_prototype;
  repeat (apply Forall_cons_2; [vm_compute; reflexivity|]); apply Forall_nil_2.

Lemma alice_in_channel_intact : prototypes_intact alice_in_channel.
Proof.
  split_and!; [vm_compute; reflexivity .. | |].
  - replace (uheap alice_in_channel) with [alice] by (vm_compute; reflexivity).
    apply Forall_cons_2; [vm_compute; reflexivity|apply Forall_nil_2].
  - replace (cheap alice_in_channel)
      with [Channel.mk (Some "#a") (Js.Num 100) "+nt" {["alice" := 0%nat]} [] [] []]
      by (vm_compute; reflexivity).
    apply Forall_cons_2; [vm_compute; reflexivity|apply Forall_nil_2].
Qed.

Lemma prototypes_intact_events c evs :
  prototypes_intact c -> prototypes_intact (set_events evs c).
Proof. by destruct c. Qed.

(** ** Words of a line *)

Lemma split_space_nil : Js.split " " EmptyString = [EmptyString].
Proof. reflexivity. Qed.

Lemma split_space_cons a s :
  Js.split " " (String a s) =
  if bool_decide (a = " "%char) then EmptyString :: Js.split " " s
  else match Js.split " " s with
       | p :: ps => String a p :: ps
       | [] => [String a EmptyString]
       end.
Proof.
  unfold Js.split. cbn [Js.split_go String.prefix String.length Nat.pred].
  destruct (Ascii.ascii_dec " " a) as [<-|Hne].
  - rewrite bool_decide_eq_true_2 by done. by destruct s.
  - rewrite bool_decide_eq_false_2 by congruence. done.
Qed.

Lemma split_word w rest :
  spacefree w -> Js.split " " (w +:+ " " +:+ rest) = w :: Js.split " " rest.
Proof.
  unfold spacefree. induction w as [|a w IH]; intros Hw.
  - change (EmptyString +:+ ?t) with t. change (" " +:+ rest) with (String " " rest).
    rewrite split_space_cons. by rewrite bool_decide_eq_true_2.
  - change (String a w +:+ ?t) with (String a (w +:+ t)).
    rewrite split_space_cons. simpl in Hw. rewrite not_elem_of_cons in Hw.
    destruct Hw as [Ha Hw]. rewrite bool_decide_eq_false_2 by congruence.
    by rewrite IH.
Qed.

Lemma split_spacefree w : spacefree w -> Js.split " " w = [w].
Proof.
  unfold spacefree. induction w as [|a w IH]; intros Hw; [done|].
  rewrite split_space_cons. simpl in Hw. rewrite not_elem_of_cons in Hw.
  destruct Hw as [Ha Hw]. rewrite bool_decide_eq_false_2 by congruence.
  by rewrite IH.
Qed.

(** ** Numbers, printed and read *)

Lemma digits_step c k s acc :
  Js.digit_val c = Some k -> k < 10 ->
  Js.digits 10 acc (String c s) = Js.digits 10 (Some (default 0 acc * 10 + k)) s.
Proof. intros Hc Hk. cbn [Js.digits]. rewrite Hc. by rewrite bool_decide_eq_true_2. Qed.

Lemma digits_string_of_uint d : forall acc,
  Js.digits 10 acc (NilEmpty.string_of_uint d) =
  match d with
  | Decimal.Nil => acc
  | _ => Some (read_digits (default 0 acc) d)
  end.
Proof.
  induction d; intros acc; [done|..];
    cbn [NilEmpty.string_of_uint];
    (erewrite digits_step; [|vm_compute; reflexivity|lia]);
    rewrite IHd; by destruct d.
Qed.

Lemma read_digits_lu d : forall e,
  read_digits (Z.of_N (Unsigned.of_lu e)) d = Z.of_N (Unsigned.of_lu (Decimal.revapp d e)).
Proof.
  induction d; intros e; cbn [read_digits Decimal.revapp]; [done|..];
    rewrite <- IHd; f_equal; cbn [Unsigned.of_lu]; lia.
Qed.

Lemma read_digits_to_uint p : read_digits 0 (Pos.to_uint p) = Z.pos p.
Proof.
  pose proof (read_digits_lu (Pos.to_uint p) Decimal.Nil) as H. simpl in H.
  rewrite H. change (Decimal.revapp ?d Decimal.Nil) with (Decimal.rev d).
  rewrite <- Unsigned.of_uint_alt, Unsigned.of_to. done.
Qed.

Lemma string_of_uint_head d :
  d ≠ Decimal.Nil ->
  exists a s, NilEmpty.string_of_uint d = String a s /\
    Js.is_space a = false /\ a ≠ "-"%char /\ a ≠ "+"%char /\
    (a = "0"%char -> forall r, s ≠ String "x" r /\ s ≠ String "X" r).
Proof.
  destruct d; intros Hd; try done; cbn [NilEmpty.string_of_uint];
    eexists _, _; (split; [reflexivity|]); split_and!; try done.
  intros _ r. destruct d; done.
Qed.

Lemma parseInt_signed (neg : bool) a r :
  Js.is_space a = false -> a ≠ "-"%char -> a ≠ "+"%char ->
  (a = "0"%char -> forall t, r ≠ String "x" t /\ r ≠ String "X" t) ->
  Js.parseInt (Some (if neg then String "-" (String a r) else String a r)) =
  match Js.digits 10 None (String a r) with
  | Some z => Js.Num (if neg then - z else z)
  | None => Js.NaN
  end.
Proof.
  intros Hs Hm Hp H0. unfold Js.parseInt. change (Js.show (Some ?x)) with x.
  assert (Hz : a = "0"%char ->
               r = EmptyString \/ exists b t, r = String b t /\ b ≠ "x"%char /\ b ≠ "X"%char).
  { intros Ha. destruct r as [|b t]; [by left|]. destruct (H0 Ha t).
    right. exists b, t. split_and!; congruence. }
  destruct neg; cbn [Js.trimStart]; [change (Js.is_space "-") with false; cbv iota|rewrite Hs].
  all: destruct a as [[] [] [] [] [] [] [] []]; try reflexivity;
    try discriminate Hs; try (by destruct Hm); try (by destruct Hp).
  all: destruct (Hz eq_refl) as [->|(b & t & -> & Hx & HX)]; [reflexivity|].
  all: destruct b as [[] [] [] [] [] [] [] []]; try reflexivity; done.
Qed.

Lemma parseInt_uint (neg : bool) p :
  Js.parseInt (Some (if neg then String "-" (NilEmpty.string_of_uint (Pos.to_uint p))
                     else NilEmpty.string_of_uint (Pos.to_uint p)))
  = Js.Num (if neg then Z.neg p else Z.pos p).
Proof.
  pose proof (Unsigned.to_uint_nonnil p) as Hn.
  destruct (string_of_uint_head _ Hn) as (a & s & Hs & H1 & H2 & H3 & H4).
  pose proof (digits_string_of_uint (Pos.to_uint p) None) as Hd.
  rewrite Hs in *. rewrite (parseInt_signed neg a s) by done. rewrite Hd.
  destruct (Pos.to_uint p) eqn:E; [done|..];
    rewrite <- E, read_digits_to_uint; by destruct neg.
Qed.

Lemma parseInt_Z_to_string z : Js.parseInt (Some (Js.Z_to_string z)) = Js.Num z.
Proof.
  unfold Js.Z_to_string. destruct z as [|p|p]; [done| |].
  - pose proof (Unsigned.to_uint_nonnil p) as Hn. rewrite <- (parseInt_uint false p).
    cbn [Z.to_int NilZero.string_of_int NilZero.string_of_uint].
    by destruct (Pos.to_uint p).
  - pose proof (Unsigned.to_uint_nonnil p) as Hn. rewrite <- (parseInt_uint true p).
    cbn [Z.to_int NilZero.string_of_int NilZero.string_of_uint].
    by destruct (Pos.to_uint p).
Qed.

Lemma parseInt_num_to_string n : Js.parseInt (Some (Js.num_to_string n)) = n.
Proof. destruct n as [|z]; [done|]. apply parseInt_Z_to_string. Qed.

(** ** Lines with a source *)

Lemma split_words ws x :
  Forall spacefree ws ->
  Js.split " " (String.concat " " (ws ++ [x])) = ws ++ Js.split " " x.
Proof.
  induction 1 as [|w ws Hw Hws IH]; [done|].
  change ((w :: ws) ++ [x]) with (w :: (ws ++ [x])).
  destruct (ws ++ [x]) as [|y l] eqn:E; [by destruct ws|].
  change (String.concat " " (w :: y :: l)) with (w +:+ " " +:+ String.concat " " (y :: l)).
  rewrite split_word by done. by rewrite IH.
Qed.

Lemma concat_snoc ws x :
  ws ≠ [] -> String.concat " " (ws ++ [x]) = String.concat " " ws +:+ " " +:+ x.
Proof.
  induction ws as [|w ws IH]; [done|]. intros _.
  destruct ws as [|y l]; [done|].
  change ((w :: y :: l) ++ [x]) with (w :: y :: (l ++ [x])).
  change (String.concat " " (w :: y :: ?t)) with (w +:+ " " +:+ String.concat " " (y :: t)).
  change (y :: l ++ [x]) with ((y :: l) ++ [x]). rewrite IH by done.
  by rewrite !append_assoc.
Qed.

Lemma slice_length a b : Js.slice (String.length a) (a +:+ b) = b.
Proof. induction a as [|c a IH]; [done|]. apply IH. Qed.

Lemma slice_tail a g : Js.slice (String.length a + 2) (a +:+ " " +:+ ":" +:+ g) = g.
Proof.
  induction a as [|c a IH]; [done|]. apply IH.
Qed.

Lemma lineHandler_sourced now line source rest c :
  destroyed c = false ->
  Js.split " " line = String ":" source :: rest ->
  _lineHandler now line c =
  sourced now line (mkCursor (String ":" source :: rest) [] 0)
          (set_events (events c ++ [onRaw line]) c).
Proof.
  intros Hd Hs. unfold _lineHandler. unfold bind at 1, get at 1. rewrite Hd.
  unfold bind at 1, emit at 1, modify at 1. rewrite Hs. cbn [parts lookup list_lookup default from_option id].
  rewrite !bool_decide_eq_false_2 by done.
  unfold bind, ret.
  replace (Js.startsWith ":" (String ":" source)) with true; [done|].
  unfold Js.startsWith. simpl. destruct (Ascii.ascii_dec ":" ":"); [|done]. by destruct source.
Qed.

(** ** What a method queues *)

Lemma spacefree_uint d : spacefree (NilEmpty.string_of_uint d).
Proof.
  unfold spacefree, Js.chars.
  induction d; cbn [NilEmpty.string_of_uint list_ascii_of_string];
    [apply not_elem_of_nil|..]; apply not_elem_of_cons; by split.
Qed.

Lemma spacefree_cons a s : a ≠ " "%char -> spacefree s -> spacefree (String a s).
Proof. unfold spacefree, Js.chars. intros Ha Hs. apply not_elem_of_cons. by split. Qed.

Lemma spacefree_nilzero d : spacefree (NilZero.string_of_uint d).
Proof.
  destruct d; try apply spacefree_uint. unfold spacefree. by apply (bool_decide_unpack _).
Qed.

Lemma spacefree_num n : spacefree (Js.num_to_string n).
Proof.
  destruct n as [|z]; [unfold spacefree; by apply (bool_decide_unpack _)|].
  unfold Js.num_to_string, Js.Z_to_string, NilZero.string_of_int.
  destruct (Z.to_int z); [apply spacefree_nilzero|].
  apply spacefree_cons; [done | apply spacefree_nilzero].
Qed.

Lemma write_queued message c :
  write message c =
  (Ok tt, set_writebuffer (_writebuffer c ++ [(":" +:+ sid c +:+ " " +:+ message) +:+ CRLF]) c).
Proof. reflexivity. Qed.

Lemma queued_refl c : queued c c [].
Proof. unfold queued. destruct c; simpl. by rewrite app_nil_r. Qed.

Lemma register_sjoin_queued now user name c r c1 :
  register_sjoin now user name c = (r, c1) -> exists more, queued c c1 more.
Proof.
  intros H. unfold register_sjoin in H.
  crunch H; simplify_eq; try (exists []; apply queued_refl).
  all: rewrite write_queued in H; simplify_eq; by eexists.
Qed.

Lemma queued_trans c c1 c2 m1 m2 : queued c c1 m1 -> queued c1 c2 m2 -> queued c c2 (m1 ++ m2).
Proof. unfold queued. intros -> ->. destruct c; simpl. by rewrite app_assoc. Qed.

Lemma register_sjoins_queued now user names : forall c r c1,
  register_sjoins now user names c = (r, c1) -> exists more, queued c c1 more.
Proof.
  induction names as [|name rest IH]; intros c r c1 H.
  - injection H as <- <-. exists []. apply queued_refl.
  - simpl in H. apply bind_inv in H as [(a & c' & H1 & H2)|(e & H1 & ->)].
    + apply register_sjoin_queued in H1 as [m1 H1]. apply IH in H2 as [m2 H2].
      eauto using queued_trans.
    + by apply register_sjoin_queued in H1.
Qed.

Lemma registerUser_run now user noSJoin names c u :
  uheap c !! user = Some u ->
  exists r more,
    registerUser now user noSJoin names c =
      (r, set_writebuffer
            (_writebuffer c ++ ((":" +:+ sid c +:+ " " +:+ uid_message u) +:+ CRLF) :: more)
            (set_usersByNick (<[Js.show (User.nickname u) := user]> (usersByNick c))
               (set_users (<[Js.show (User.uid u) := user]> (users c)) c))) /\
    (noSJoin = true -> r = Ok tt /\ more = []).
Proof.
  intros Hu. unfold registerUser. unfold bind at 1. rewrite read_user_run, Hu.
  unfold bind at 1. rewrite write_queued. unfold bind at 1, modify at 1.
  unfold bind at 1, modify at 1.
  destruct noSJoin.
  - exists (Ok tt), []. split; [|done]. unfold ret. f_equal.
  - match goal with
    | |- context [register_sjoins ?a ?b ?l ?d] =>
        destruct (register_sjoins a b l d) as [r c1] eqn:E
    end.
    apply register_sjoins_queued in E as [more E]. exists r, more. split; [|done].
    f_equal. rewrite E. unfold queued. simpl. by rewrite <- app_assoc.
Qed.

(** ** UID: from [registerUser] to a peer *)

Ltac consume :=
  lazymatch goal with
  | |- _ = ?rhs =>
      let R := fresh "R" in
      set (R := rhs);
      cbv beta iota zeta delta [consumePart parts consumed partsConsumed lookup list_lookup];
      subst R
  end.

Ltac enter_sourced Hd Hs :=
  rewrite (lineHandler_sourced _ _ _ _ _ Hd Hs);
  unfold sourced; consume;
  change (Js.slice 1 (Js.show (Some (String ":" ?s)))) with s;
  cbv iota beta.

Lemma lineHandler_UID now line source n hop ts un hn uid ss um vh ch ip more c :
  destroyed c = false ->
  Js.split " " line =
    String ":" source :: "UID" :: n :: hop :: ts :: un :: hn :: uid :: ss :: um :: vh :: ch :: ip :: more ->
  _lineHandler now line c =
  (Ok tt,
   set_events (events c ++ [onRaw line; onUID source (length (uheap c));
                            onCommand source (Some "UID") more])
     (set_usersByNick (<[n := length (uheap c)]> (usersByNick c))
        (set_users (<[uid := length (uheap c)]> (users c))
           (set_uheap
              (uheap c ++
               [User.mk (Some n) (Js.parseInt (Some hop)) (Js.parseInt (Some ts))
                  (Some un) (Some hn) (Some uid) (Some ss) (Some um) (Some vh)
                  (Some ch) (Some ip)
                  (Some (Js.slice
                           (String.length
                              (String.concat " "
                                 [String ":" source; "UID"; n; hop; ts; un; hn; uid; ss; um;
                                  vh; ch; ip]) + 2) line))
                  None None None ∅]) c)))).
Proof.
  intros Hd Hs. enter_sourced Hd Hs.
  unfold handle_UID. consume.
  unfold rest_of, tail_of, reconstruct. destruct c. run. by rewrite <- !app_assoc.
Qed.

(** X1.  The UID line of [registerUser] is read back by a peer.  For a user
    object whose fields before the real name are single words, whose hop
    count and timestamp are integers below 2^53 in absolute value, and whose
    UID and nickname are not [__proto__], [registerUser] files the object
    under its UID and its nickname and queues the UID line first; a peer
    that handles that line files a user object with the same fields, and no
    memberships, under the same UID and the same nickname, and calls [onUID]
    with the SID of the client as the source. *)
Theorem uid_line_round_trip now user noSJoin names c u now' peer :
  uheap c !! user = Some u ->
  announceable u ->
  spacefree (sid c) ->
  destroyed peer = false ->
  exists line more r c1 peer' r',
    registerUser now user noSJoin names c = (r, c1) /\
    _writebuffer c1 = _writebuffer c ++ (line +:+ CRLF) :: more /\
    users c1 !! Js.show (User.uid u) = Some user /\
    usersByNick c1 !! Js.show (User.nickname u) = Some user /\
    _lineHandler now' line peer = (Ok tt, peer') /\
    users peer' !! Js.show (User.uid u) = Some r' /\
    usersByNick peer' !! Js.show (User.nickname u) = Some r' /\
    uheap peer' !! r' = Some (announced u) /\
    onUID (sid c) r' ∈ events peer'.
Proof.
  intros Hu (Hplain & [g Hg] & _) Hsid Hd.
  destruct (registerUser_run now user noSJoin names c u Hu) as (r & more & Hrun & _).
  destruct u as [nick hop ts un hn uid ss um vh ch ip gecos local away md ms].
  cbn [User.nickname User.username User.hostname User.uid User.servicestamp
       User.usermodes User.virtualhost User.cloakedhost User.ip User.gecos] in *.
  subst gecos.
  repeat match goal with
         | H : Forall _ (_ :: _) |- _ => apply Forall_cons in H as [(? & -> & ?) H]
         end.
  set (ws := [String ":" (sid c); "UID"; x; Js.num_to_string hop; Js.num_to_string ts;
              x0; x1; x2; x3; x4; x5; x6; x7]).
  assert (Hws : Forall spacefree ws).
  { repeat apply Forall_cons_2; try done; try apply spacefree_num; try apply Forall_nil_2.
    - apply spacefree_cons; done.
    - unfold spacefree. by apply (bool_decide_unpack _). }
  assert (Hline : ":" +:+ sid c +:+ " " +:+ uid_message
             (User.mk (Some x) hop ts (Some x0) (Some x1) (Some x2) (Some x3) (Some x4)
                (Some x5) (Some x6) (Some x7) (Some g) local away md ms)
           = String.concat " " (ws ++ [":" +:+ g])) by reflexivity.
  pose proof (split_words ws (":" +:+ g) Hws) as Hsplit. rewrite <- Hline in Hsplit.
  eexists _, more, r, _, _, (length (uheap peer)).
  split; [exact Hrun|].
  cbn [_writebuffer users usersByNick set_writebuffer set_users set_usersByNick].
  split; [reflexivity|].
  split; [apply lookup_insert_eq|]. split; [apply lookup_insert_eq|].
  split; [apply (lineHandler_UID _ _ _ _ _ _ _ _ _ _ _ _ _ _ _ _ Hd Hsplit)|].
  cbn [users usersByNick uheap events set_events set_usersByNick set_users set_uheap].
  split; [apply lookup_insert_eq|]. split; [apply lookup_insert_eq|].
  split.
  - rewrite lookup_app_r by done. rewrite Nat.sub_diag. cbn [lookup list_lookup].
    rewrite !parseInt_num_to_string. unfold announced.
    cbn [User.nickname User.hopcount User.timestamp User.username User.hostname User.uid
         User.servicestamp User.usermodes User.virtualhost User.cloakedhost User.ip User.gecos].
    match goal with
    | |- context [Js.slice ?k ?l] => replace (Js.slice k l) with g; [reflexivity|]
    end.
    fold ws. rewrite Hline, concat_snoc by done. symmetry. apply slice_tail.
  - rewrite elem_of_app. right. rewrite !elem_of_cons. auto.
Qed.

Lemma uid_line_round_trip_witness :
  exists line more peer' r',
    _writebuffer (registerUser 0 0%nat true [] with_bot).2 = (line +:+ CRLF) :: more /\
    _lineHandler 5 line (newClient "001") = (Ok tt, peer') /\
    users peer' !! "999AAAAAA" = Some r' /\
    usersByNick peer' !! "bot" = Some r' /\
    uheap peer' !! r' = Some (announced bot).
Proof.
  destruct (uid_line_round_trip 0 0%nat true [] with_bot bot 5 (newClient "001"))
    as (line & more & r & c1 & peer' & r' & Hrun & Hq & _ & _ & Hpeer & Hu & Hn & Hh & _).
  - reflexivity.
  - split; [|split_and!; [by eexists | eexists; split; [reflexivity|lia] ..
                          | discriminate | discriminate]].
    repeat apply Forall_cons_2; try apply Forall_nil_2.
    all: eexists; split; [reflexivity|literal].
  - literal.
  - reflexivity.
  - exists line, more, peer', r'. rewrite Hrun. split_and!; done.
Defined.

(** ** SID, PRIVMSG and NOTICE: from the client to a peer *)

Lemma lineHandler_SID now line source name hop sid more c :
  destroyed c = false ->
  Js.split " " line = String ":" source :: "SID" :: name :: hop :: sid :: more ->
  _lineHandler now line c =
  (let server :=
     Server.mk source (Some name) (Js.parseInt (Some hop)) (Some sid)
       (Js.slice (String.length
                    (String.concat " " [String ":" source; "SID"; name; hop; sid]) + 2) line)
       None in
   (Ok tt,
    set_events (events c ++ [onRaw line; onSID server; onCommand source (Some "SID") more])
      (set_servers (<[sid := server]> (servers c)) c))).
Proof.
  intros Hd Hs. enter_sourced Hd Hs.
  unfold handle_SID. consume.
  unfold rest_of, tail_of, reconstruct. destruct c. run. by rewrite <- !app_assoc.
Qed.

(** X2.  The SID line of [registerServer] is read back by a peer as the
    same server, with the SID of the client as its source, when the name
    and the SID of the server are single words, the SID is not [__proto__]
    and the hop count is an integer below 2^53 in absolute value;
    [registerServer] itself stores nothing in [servers]. *)
Theorem sid_line_round_trip server c now peer :
  plain (Server.servername server) ->
  plain (Server.sid server) ->
  Server.sid server ≠ Some "__proto__" ->
  safe_integer (Server.hopcount server) ->
  spacefree (sid c) ->
  destroyed peer = false ->
  exists line c1 peer',
    registerServer server c = (Ok tt, c1) /\
    _writebuffer c1 = _writebuffer c ++ [line +:+ CRLF] /\
    servers c1 = servers c /\
    _lineHandler now line peer = (Ok tt, peer') /\
    servers peer' !! Js.show (Server.sid server) =
      Some (Server.mk (sid c) (Server.servername server) (Server.hopcount server)
                      (Server.sid server) (Server.info server) None).
Proof.
  intros (name & Hname & Hn) (id & Hid & Hi) _ _ Hsid Hd.
  destruct server as [src sname hop ssid info md]. simpl in Hname, Hid. subst sname ssid.
  set (ws := [String ":" (sid c); "SID"; name; Js.num_to_string hop; id]).
  assert (Hws : Forall spacefree ws).
  { repeat apply Forall_cons_2; try done; try apply spacefree_num; try apply Forall_nil_2.
    - apply spacefree_cons; done.
    - unfold spacefree. by apply (bool_decide_unpack _). }
  set (line := ":" +:+ sid c +:+ " " +:+
         Js.join_vals " " [Some "SID"; Some name; Some (Js.num_to_string hop); Some id;
                           Some (":" +:+ info)]).
  assert (Hline : line = String.concat " " (ws ++ [":" +:+ info])) by reflexivity.
  pose proof (split_words ws (":" +:+ info) Hws) as Hsplit. rewrite <- Hline in Hsplit.
  exists line. eexists _, _.
  split; [unfold registerServer; apply write_queued|].
  cbn [_writebuffer servers set_writebuffer Server.servername Server.hopcount Server.sid
       Server.info].
  split; [reflexivity|]. split; [reflexivity|].
  split; [apply (lineHandler_SID _ _ _ _ _ _ _ _ Hd Hsplit)|].
  cbn [servers set_events set_servers Js.show default]. rewrite lookup_insert_eq.
  rewrite parseInt_num_to_string. do 2 f_equal.
  fold ws. rewrite Hline, concat_snoc by done. apply slice_tail.
Qed.

Lemma sid_line_round_trip_witness :
  exists line peer',
    _writebuffer (registerServer hub (newClient "999")).2 = [line +:+ CRLF] /\
    _lineHandler 5 line (newClient "001") = (Ok tt, peer') /\
    servers peer' !! "998" =
      Some (Server.mk "999" (Some "hub.example") (Js.Num 1) (Some "998") "A hub" None).
Proof.
  destruct (sid_line_round_trip hub (newClient "999") 5 (newClient "001"))
    as (line & c1 & peer' & Hrun & Hq & _ & Hpeer & Hs).
  - eexists; split; [reflexivity|literal].
  - eexists; split; [reflexivity|literal].
  - discriminate.
  - eexists; split; [reflexivity|lia].
  - literal.
  - reflexivity.
  - exists line, peer'. rewrite Hrun. split_and!; done.
Defined.

Lemma lineHandler_PRIVMSG now line source target more c :
  destroyed c = false ->
  Js.split " " line = String ":" source :: "PRIVMSG" :: target :: more ->
  _lineHandler now line c =
  (Ok tt,
   set_events
     (events c ++
      [onRaw line;
       onMessage source (Some target)
         (Js.slice (String.length (String.concat " " [String ":" source; "PRIVMSG"; target]) + 2)
                   line);
       onCommand source (Some "PRIVMSG") more]) c).
Proof.
  intros Hd Hs. enter_sourced Hd Hs.
  unfold handle_PRIVMSG. consume.
  unfold rest_of, tail_of, reconstruct. destruct c. run. by rewrite <- !app_assoc.
Qed.

Lemma lineHandler_NOTICE now line source target more c :
  destroyed c = false ->
  Js.split " " line = String ":" source :: "NOTICE" :: target :: more ->
  _lineHandler now line c =
  (Ok tt,
   set_events
     (events c ++
      [onRaw line;
       onNotice source (Some target)
         (Js.slice (String.length (String.concat " " [String ":" source; "NOTICE"; target]) + 2)
                   line);
       onCommand source (Some "NOTICE") more]) c).
Proof.
  intros Hd Hs. enter_sourced Hd Hs.
  unfold handle_NOTICE. consume.
  unfold rest_of, tail_of, reconstruct. destruct c. run. by rewrite <- !app_assoc.
Qed.

(** X3.  [sendMessage] and [sendNotice] queue one line each; a peer that
    handles it calls [onMessage] ([onNotice]) with the same source, target
    and message, whatever the message contains, and changes nothing else. *)
Theorem message_round_trip source target message c now peer :
  spacefree source -> spacefree target -> destroyed peer = false ->
  exists line notice,
    sendMessage source target message c =
      (Ok tt, set_writebuffer (_writebuffer c ++ [line +:+ CRLF]) c) /\
    sendNotice source target message c =
      (Ok tt, set_writebuffer (_writebuffer c ++ [notice +:+ CRLF]) c) /\
    _lineHandler now line peer =
      (Ok tt, set_events
                (events peer ++
                 [onRaw line; onMessage source (Some target) message;
                  onCommand source (Some "PRIVMSG") (Js.split " " (":" +:+ message))]) peer) /\
    _lineHandler now notice peer =
      (Ok tt, set_events
                (events peer ++
                 [onRaw notice; onNotice source (Some target) message;
                  onCommand source (Some "NOTICE") (Js.split " " (":" +:+ message))]) peer).
Proof.
  intros Hs Ht Hd.
  assert (Hsrc : spacefree (String ":" source)) by (by apply spacefree_cons).
  assert (Hp : spacefree "PRIVMSG") by (unfold spacefree; by apply (bool_decide_unpack _)).
  assert (Hn : spacefree "NOTICE") by (unfold spacefree; by apply (bool_decide_unpack _)).
  set (line := String.concat " " ([String ":" source; "PRIVMSG"; target] ++ [":" +:+ message])).
  set (notice := String.concat " " ([String ":" source; "NOTICE"; target] ++ [":" +:+ message])).
  exists line, notice.
  split; [reflexivity|]. split; [reflexivity|]. split.
  - erewrite lineHandler_PRIVMSG; [|done|].
    2:{ unfold line. rewrite split_words; [reflexivity|]. by repeat apply Forall_cons_2. }
    unfold line at 2. rewrite concat_snoc by done. by rewrite slice_tail.
  - erewrite lineHandler_NOTICE; [|done|].
    2:{ unfold notice. rewrite split_words; [reflexivity|]. by repeat apply Forall_cons_2. }
    unfold notice at 2. rewrite concat_snoc by done. by rewrite slice_tail.
Qed.

Lemma message_round_trip_witness :
  exists line,
    _writebuffer (sendMessage "999AAAAAA" "#a" "hello world" (newClient "999")).2
      = [line +:+ CRLF] /\
    _lineHandler 5 line (newClient "001") =
      (Ok tt, set_events
                [onRaw line; onMessage "999AAAAAA" (Some "#a") "hello world";
                 onCommand "999AAAAAA" (Some "PRIVMSG") [":hello"; "world"]]
                (newClient "001")).
Proof.
  destruct (message_round_trip "999AAAAAA" "#a" "hello world" (newClient "999") 5
              (newClient "001")) as (line & notice & Hm & _ & Hl & _).
  - literal.
  - literal.
  - reflexivity.
  - exists line. rewrite Hm. split; [done|exact Hl].
Defined.

(** ** The writer, and the answer to PING *)

Lemma set_writebuffer_id c : set_writebuffer (_writebuffer c) c = c.
Proof. by destruct c. Qed.

Lemma writer_turn_run c :
  writer_turn c =
  (Ok (match _writebuffer c with
       | [] => None
       | _ => Some (Js.join EmptyString (take 64 (_writebuffer c)))
       end,
       if bool_decide (64 < length (_writebuffer c))%nat then 100 else 1),
   set_writebuffer (drop 64 (_writebuffer c)) c).
Proof.
  unfold writer_turn. unfold bind at 1, get at 1.
  destruct (_writebuffer c) as [|x wb] eqn:E.
  - rewrite bool_decide_eq_false_2 by (simpl; lia).
    unfold bind, ret, get. rewrite E. cbn [drop length].
    rewrite !bool_decide_eq_false_2 by lia. rewrite <- E. by rewrite set_writebuffer_id.
  - rewrite bool_decide_eq_true_2 by (simpl; lia).
    unfold bind, ret, get, modify. cbn [_writebuffer set_writebuffer]. do 3 f_equal.
    rewrite length_drop.
    by rewrite (bool_decide_ext _ (64 < length (x :: wb))%nat) by lia.
Qed.

Lemma join_empty_app l1 l2 :
  Js.join EmptyString (l1 ++ l2) = Js.join EmptyString l1 +:+ Js.join EmptyString l2.
Proof.
  unfold Js.join. induction l1 as [|x l1 IH]; [done|].
  destruct l1 as [|y l1].
  - destruct l2 as [|z l2]; [by rewrite append_empty_r | done].
  - change (String.concat EmptyString ((x :: y :: l1) ++ l2))
      with (x +:+ String.concat EmptyString ((y :: l1) ++ l2)).
    rewrite IH. change (String.concat EmptyString (x :: y :: l1))
      with (x +:+ String.concat EmptyString (y :: l1)).
    by rewrite append_assoc.
Qed.

(** X4.  The writer empties the queue: [n] turns with nothing else running
    write a queue of at most [64 * n] entries completely and in order,
    nothing added and nothing dropped. *)
Theorem writer_drains n : forall c,
  (length (_writebuffer c) <= 64 * n)%nat ->
  exists sent,
    writer_turns n c = (Ok sent, set_writebuffer [] c) /\
    Js.join EmptyString sent = Js.join EmptyString (_writebuffer c).
Proof.
  induction n as [|n IH]; intros c Hlen.
  - exists []. destruct (_writebuffer c) eqn:E; [|simpl in Hlen; lia].
    split; [|done].
    replace (set_writebuffer [] c) with c; [done|].
    rewrite <- E. by rewrite set_writebuffer_id.
  - cbn [writer_turns]. unfold bind at 1. rewrite writer_turn_run.
    destruct (IH (set_writebuffer (drop 64 (_writebuffer c)) c)) as (sent & Hrun & Hsent).
    { cbn [_writebuffer set_writebuffer]. rewrite length_drop. lia. }
    unfold bind at 1. rewrite Hrun. unfold ret. cbn [fst].
    cbn [_writebuffer set_writebuffer] in Hsent.
    destruct (_writebuffer c) as [|x wb] eqn:E.
    + exists sent. split; [done|]. by rewrite Hsent.
    + eexists. split; [done|].
      change (Js.join EmptyString (?d :: sent)) with (Js.join EmptyString ([d] ++ sent)).
      rewrite join_empty_app, Hsent.
      change (Js.join EmptyString [?d]) with d.
      rewrite <- join_empty_app. by rewrite take_drop.
Qed.

Lemma writer_drains_witness :
  exists sent,
    writer_turns 1 after_handshake = (Ok sent, set_writebuffer [] after_handshake) /\
    Js.join EmptyString sent = Js.join EmptyString (_writebuffer after_handshake).
Proof. apply (writer_drains 1 after_handshake). vm_compute. lia. Defined.

Lemma lineHandler_PING now line args c :
  destroyed c = false ->
  Js.split " " line = "PING" :: args ->
  _lineHandler now line c =
  (Ok tt,
   set_events (events c ++ [onRaw line; onPing (args !! 0%nat)])
     (set_writebuffer (("PONG " +:+ Js.show (args !! 0%nat)) :: _writebuffer c) c)).
Proof.
  intros Hd Hs. unfold _lineHandler. unfold bind at 1, get at 1. rewrite Hd.
  unfold bind at 1, emit at 1, modify at 1. rewrite Hs.
  cbn [parts lookup list_lookup default from_option id].
  rewrite bool_decide_eq_true_2 by done. rewrite !bool_decide_eq_false_2 by done.
  change (Js.startsWith ":" "PING") with false.
  unfold handle_PING. destruct c. run. by rewrite <- !app_assoc.
Qed.

(** X5.  The answer to PING is put at the head of the queue without a line
    terminator, so the next turn of the writer sends it glued to the entries
    that follow it. *)
Theorem ping_reply_has_no_terminator now line args c :
  destroyed c = false ->
  Js.split " " line = "PING" :: args ->
  exists c1 c2 delay,
    _lineHandler now line c = (Ok tt, c1) /\
    _writebuffer c1 = ("PONG " +:+ Js.show (args !! 0%nat)) :: _writebuffer c /\
    writer_turn c1 =
      (Ok (Some (("PONG " +:+ Js.show (args !! 0%nat))
                 +:+ Js.join EmptyString (take 63 (_writebuffer c))), delay), c2).
Proof.
  intros Hd Hs. eexists _, _, _.
  split; [by apply lineHandler_PING|]. split; [done|].
  rewrite writer_turn_run. cbn [_writebuffer set_events set_writebuffer].
  do 3 f_equal. change (take 64 (?x :: ?l)) with ([x] ++ take 63 l).
  by rewrite join_empty_app.
Qed.

Lemma ping_reply_has_no_terminator_witness :
  exists c1 c2 delay,
    _lineHandler 0 "PING :irc.example" after_handshake = (Ok tt, c1) /\
    _writebuffer c1 = "PONG :irc.example" :: _writebuffer after_handshake /\
    writer_turn c1 =
      (Ok (Some ("PONG :irc.example"
                 +:+ Js.join EmptyString (take 63 (_writebuffer after_handshake))), delay), c2).
Proof.
  apply (ping_reply_has_no_terminator 0 "PING :irc.example" [":irc.example"] after_handshake);
    reflexivity.
Defined.

(** ** Commands without a branch *)

Ltac walk H :=
  cbv beta iota;
  lazymatch goal with
  | |- context [match ?s with EmptyString => _ | String _ _ => _ end] =>
      destruct s as [|[? ? ? ? ? ? ? ?] ?]; walk H
  | |- context [if ?b then _ else _] =>
      destruct b; walk H
  | |- ?x = ?x => reflexivity
  | |- _ => exfalso; apply H; vm_compute; reflexivity
  end.

Lemma dispatch_default {T} (command : Js.val)
    (b1 b2 b3 b4 b5 b6 b7 b8 b9 b10 b11 b12 b13 b14 b15 b16 b17 b18 b19 b20 b21 b22 b23 d : T) :
  (forall s, command = Some s -> bool_decide (s ∈ dispatched) = false) ->
  match command with
  | Some "EOS" => b1
  | Some "UID" => b2
  | Some "SID" => b3
  | Some "NICK" => b4
  | Some "QUIT" => b5
  | Some "KILL" => b6
  | Some "MD" => b7
  | Some "SETHOST" => b8
  | Some "SETIDENT" => b9
  | Some "SETNAME" => b10
  | Some "CHGHOST" => b11
  | Some "CHGIDENT" => b12
  | Some "CHGNAME" => b13
  | Some "SJOIN" => b14
  | Some "PART" => b15
  | Some "KICK" => b16
  | Some "SAJOIN" => b17
  | Some "SAPART" => b18
  | Some "MODE" => b19
  | Some "UMODE2" => b20
  | Some "PRIVMSG" => b21
  | Some "NOTICE" => b22
  | Some "VERSION" => b23
  | _ => d
  end = d.
Proof.
  intros Hc. destruct command as [s|]; [|reflexivity].
  specialize (Hc s eq_refl). apply not_true_iff_false in Hc.
  walk Hc.
Qed.

Lemma lineHandler_unknown now line source command rest c :
  destroyed c = false ->
  Js.split " " line = String ":" source :: rest ->
  command = rest !! 0%nat ->
  (forall s, command = Some s -> bool_decide (s ∈ dispatched) = false) ->
  _lineHandler now line c =
  (Ok tt, set_events (events c ++ [onRaw line; onCommand source command (drop 1 rest)]) c).
Proof.
  intros Hd Hs -> Hc. enter_sourced Hd Hs.
  erewrite dispatch_default by exact Hc.
  unfold rest_of. destruct c. run. by rewrite <- !app_assoc.
Qed.

(** ** Commands about a user that is not there *)

(** X6.  A command about a user that [users] does not have, under a key
    that is no name of an inherited property, throws a TypeError right
    after [onRaw], before any table is changed and without [onCommand]:
    NICK, QUIT, SETHOST, SETIDENT, SETNAME and PART look the source up,
    CHGHOST, CHGIDENT, CHGNAME, SAJOIN and SAPART their first argument, KICK
    its second. *)
Theorem unknown_user_throws now line source cmd args uid c :
  destroyed c = false ->
  prototypes_intact c ->
  Js.split " " line = String ":" source :: cmd :: args ->
  dereferenced source cmd args = Some uid ->
  uid ∉ Object_prototype ->
  users c !! uid = None ->
  _lineHandler now line c = (Throw TypeError, set_events (events c ++ [onRaw line]) c).
Proof.
  intros Hd _ Hs Hsub _ Hu. unfold dereferenced in Hsub.
  repeat case_bool_decide; simplify_eq;
    repeat match goal with
           | H : _ ∈ _ :: _ |- _ => apply elem_of_cons in H as [->|H]
           | H : _ ∈ [] |- _ => by apply elem_of_nil in H
           end.
  all: destruct args as [|a0 [|a1 args]]; cbn [lookup list_lookup] in Hu.
  all: enter_sourced Hd Hs.
  all: unfold handle_NICK, handle_QUIT, handle_SETHOST, handle_SETIDENT, handle_SETNAME,
         handle_PART, handle_CHGHOST, handle_CHGIDENT, handle_CHGNAME, handle_SAJOIN,
         handle_SAPART, handle_KICK; consume.
  all: unfold bind; rewrite the_user_run; cbn [users set_events].
  all: by rewrite Hu.
Qed.

Lemma unknown_user_throws_witness :
  _lineHandler 0 ":001 NICK bob 200" alice_in_channel
  = (Throw TypeError,
     set_events (events alice_in_channel ++ [onRaw ":001 NICK bob 200"]) alice_in_channel).
Proof.
  apply (unknown_user_throws 0 ":001 NICK bob 200" "001" "NICK" ["bob"; "200"] "001"
           alice_in_channel);
    [reflexivity | apply alice_in_channel_intact | reflexivity | reflexivity
    | not_inherited | reflexivity].
Defined.

(** X7.  A line with a source whose command is EOS, KILL, PRIVMSG, NOTICE
    or none the dispatcher has a branch for returns normally and changes
    nothing but the log of callbacks; for a command without a branch the
    callbacks are [onRaw] and [onCommand] with all the arguments. *)
Theorem stateless_commands now line source rest c :
  destroyed c = false ->
  Js.split " " line = String ":" source :: rest ->
  (forall s, rest !! 0%nat = Some s -> s ∈ dispatched -> s ∈ notifying) ->
  exists evs,
    _lineHandler now line c = (Ok tt, set_events (events c ++ onRaw line :: evs) c) /\
    ((forall s, rest !! 0%nat = Some s -> s ∉ dispatched) ->
     evs = [onCommand source (rest !! 0%nat) (drop 1 rest)]).
Proof.
  intros Hd Hs Hc.
  destruct (rest !! 0%nat) as [s|] eqn:E.
  - destruct (decide (s ∈ dispatched)) as [Hin|Hout].
    + specialize (Hc s eq_refl Hin). destruct rest as [|s' rest]; simplify_eq/=.
      unfold notifying in Hc.
      repeat match goal with
             | H : _ ∈ _ :: _ |- _ => apply elem_of_cons in H as [->|H]
             | H : _ ∈ [] |- _ => by apply elem_of_nil in H
             end.
      all: eexists; (split; [|intros Hn; by destruct (Hn _ eq_refl)]).
      all: enter_sourced Hd Hs.
      all: unfold handle_KILL, handle_PRIVMSG, handle_NOTICE; consume.
      all: unfold rest_of, tail_of, reconstruct; destruct c; run;
        rewrite <- !app_assoc; reflexivity.
    + eexists. split; [|reflexivity]. rewrite <- E.
      apply lineHandler_unknown; try done.
      intros s' Hs'. rewrite E in Hs'. simplify_eq. by apply bool_decide_eq_false_2.
  - eexists. split; [|reflexivity]. rewrite <- E.
    apply lineHandler_unknown; try done. intros s' Hs'. rewrite E in Hs'. done.
Qed.

Lemma stateless_commands_witness :
  exists evs,
    _lineHandler 0 ":001 FOO bar" alice_in_channel
    = (Ok tt, set_events (events alice_in_channel ++ onRaw ":001 FOO bar" :: evs)
                         alice_in_channel) /\
    ((forall s, ["FOO"; "bar"] !! 0%nat = Some s -> s ∉ dispatched) ->
     evs = [onCommand "001" (["FOO"; "bar"] !! 0%nat) (drop 1 ["FOO"; "bar"])]).
Proof.
  apply (stateless_commands 0 ":001 FOO bar" "001" ["FOO"; "bar"] alice_in_channel).
  - reflexivity.
  - reflexivity.
  - intros s [= <-] H. exfalso. revert H. unfold dispatched.
    apply (bool_decide_unpack _). vm_compute. exact I.
Defined.

(** ** Tables that agree with each other *)

Lemma indexed_events c evs : indexed c -> indexed (set_events evs c).
Proof. by destruct c. Qed.

Ltac fields :=
  cbn [users usersByNick servers channels uheap cheap mheap events _writebuffer
       set_users set_usersByNick set_servers set_channels set_uheap set_cheap set_mheap
       set_events set_writebuffer] in *.

Lemma coherent_events c evs : coherent c -> coherent (set_events evs c).
Proof. by destruct c. Qed.

Lemma coherent_writebuffer c wb : coherent c -> coherent (set_writebuffer wb c).
Proof. by destruct c. Qed.

Lemma indexed_injective c uid uid' (r : ref) :
  indexed c -> users c !! uid = Some r -> users c !! uid' = Some r -> uid = uid'.
Proof.
  intros [H1 _] Hu Hu'. destruct (H1 _ _ Hu) as (u & Hh & Hid & _).
  destruct (H1 _ _ Hu') as (u' & Hh' & Hid' & _). congruence.
Qed.

Lemma indexed_nick c uid uid' (r r' : ref) u u' :
  indexed c -> users c !! uid = Some r -> users c !! uid' = Some r' ->
  uheap c !! r = Some u -> uheap c !! r' = Some u' ->
  Js.show (User.nickname u) = Js.show (User.nickname u') -> r = r'.
Proof.
  intros [H1 _] Hu Hu' Hh Hh' Hn. destruct (H1 _ _ Hu) as (v & Hv & _ & Hnv).
  destruct (H1 _ _ Hu') as (v' & Hv' & _ & Hnv'). simplify_eq. congruence.
Qed.

(** [delete user.memberships[channel]] *)
Lemma coherent_drop_membership c (user : ref) u key :
  coherent c -> uheap c !! user = Some u ->
  coherent (set_uheap (<[user := User.set_memberships (delete key (User.memberships u)) u]>
                         (uheap c)) c).
Proof.
  intros ([H1 H2] & Hc & Hm) Hu. split; [split|split]; fields.
  - intros uid r Hr. fields. destruct (H1 _ _ Hr) as (v & Hv & Hid & Hn).
    destruct (decide (r = user)) as [->|Hne].
    + simplify_eq. eexists. split; [by eapply heap_update_eq|done].
    + exists v. by rewrite list_lookup_insert_ne.
  - intros nick r Hr. fields. destruct (H2 _ _ Hr) as (v & Hv & Hid & Hn).
    destruct (decide (r = user)) as [->|Hne].
    + simplify_eq. eexists. split; [by eapply heap_update_eq|done].
    + exists v. by rewrite list_lookup_insert_ne.
  - done.
  - intros uid ur v name mr Hur Hv Hms. fields.
    destruct (decide (ur = user)) as [->|Hne].
    + erewrite heap_update_eq in Hv by exact Hu. injection Hv as <-. cbn in Hms.
      apply lookup_delete_Some in Hms as [_ Hms].
      destruct (Hm _ _ _ _ _ Hur Hu Hms) as (cr & o & ? & ? & ?). by exists cr, o.
    + rewrite list_lookup_insert_ne in Hv by done. by eapply Hm.
Qed.

(** [delete this.channels[channel].users[user.nickname]], for a user that
    has just lost the membership. *)
Lemma coherent_leave_channel c uid (user : ref) u key (ch : ref) o :
  coherent c -> users c !! uid = Some user -> uheap c !! user = Some u ->
  User.memberships u !! key = None ->
  channels c !! key = Some ch -> cheap c !! ch = Some o ->
  coherent (set_cheap (<[ch := Channel.set_users
                                 (delete (Js.show (User.nickname u)) (Channel.users o)) o]>
                         (cheap c)) c).
Proof.
  intros (Hi & Hc & Hm) Hur Hu Hms Hch Ho. split; [done|split].
  - intros name cr Hcr. fields. destruct (Hc _ _ Hcr) as (o' & Ho' & Hname).
    destruct (decide (cr = ch)) as [->|Hne].
    + simplify_eq. eexists. split; [by eapply heap_update_eq|done].
    + exists o'. by rewrite list_lookup_insert_ne.
  - intros uid' ur' v name mr Hur' Hv Hmr. fields.
    destruct (Hm _ _ _ _ _ Hur' Hv Hmr) as (cr & o' & Hcr & Ho' & Hin).
    exists cr. destruct (decide (cr = ch)) as [->|Hne].
    + simplify_eq. eexists. split; [done|]. split; [by eapply heap_update_eq|]. cbn.
      rewrite lookup_delete_ne; [done|]. intros Heq.
      assert (user = ur') as -> by eauto using indexed_nick.
      destruct (Hc _ _ Hcr) as (? & ? & Hn1). destruct (Hc _ _ Hch) as (? & ? & Hn2).
      simplify_eq.
    + exists o'. by rewrite list_lookup_insert_ne.
Qed.

(** [delete this.channels[channel]], for a channel without members. *)
Lemma coherent_drop_channel c key (ch : ref) o :
  coherent c -> channels c !! key = Some ch -> cheap c !! ch = Some o ->
  Channel.users o = ∅ ->
  coherent (set_channels (delete key (channels c)) c).
Proof.
  intros (Hi & Hc & Hm) Hch Ho Hempty. split; [done|split].
  - intros name cr. fields. rewrite lookup_delete_Some. intros [_ Hcr]. by apply Hc.
  - intros uid ur v name mr Hur Hv Hmr. fields.
    destruct (Hm _ _ _ _ _ Hur Hv Hmr) as (cr & o' & Hcr & Ho' & Hin).
    exists cr, o'. split_and!; try done. rewrite lookup_delete_ne; [done|].
    intros <-. simplify_eq. rewrite Hempty in Hin. by rewrite lookup_empty in Hin.
Qed.

Lemma leave_coherent c uid (user : ref) channel r c' :
  coherent c -> users c !! uid = Some user ->
  leave user channel c = (r, c') -> coherent c'.
Proof.
  intros Hc Hur Hrun. unfold leave in Hrun.
  unfold bind at 1 in Hrun. rewrite update_user_run in Hrun.
  destruct (uheap c !! user) as [u|] eqn:Hu; [|by injection Hrun as <- <-].
  pose proof (coherent_drop_membership c user u (Js.show channel) Hc Hu) as Hc1.
  unfold bind at 1 in Hrun. rewrite read_user_run in Hrun. fields.
  erewrite heap_update_eq in Hrun by exact Hu.
  unfold bind at 1 in Hrun. rewrite the_channel_run in Hrun. fields.
  destruct (channels c !! Js.show channel) as [ch|] eqn:Hch; [|by injection Hrun as <- <-].
  unfold bind at 1 in Hrun. rewrite update_channel_run in Hrun. fields.
  destruct (cheap c !! ch) as [o|] eqn:Ho; [|by injection Hrun as <- <-].
  assert (Hu1 : uheap (set_uheap (<[user := User.set_memberships
              (delete (Js.show channel) (User.memberships u)) u]> (uheap c)) c) !! user
            = Some (User.set_memberships (delete (Js.show channel) (User.memberships u)) u))
    by (fields; by eapply heap_update_eq).
  pose proof (coherent_leave_channel _ uid user _ (Js.show channel) ch o Hc1 Hur Hu1
                (lookup_delete_eq _ _) Hch Ho) as Hc2.
  fields.
  unfold bind at 1 in Hrun. rewrite read_channel_run in Hrun. fields.
  erewrite heap_update_eq in Hrun by exact Ho.
  case_bool_decide as Hempty; injection Hrun as <- <-; [|done].
  match type of Hc2 with
  | coherent ?c2 =>
      assert (Ho2 : cheap c2 !! ch = Some
        (Channel.set_users
           (delete (Js.show (User.nickname (User.set_memberships
              (delete (Js.show channel) (User.memberships u)) u))) (Channel.users o)) o))
        by (fields; by eapply heap_update_eq);
      exact (coherent_drop_channel c2 (Js.show channel) ch _ Hc2 Hch Ho2 Hempty)
  end.
Qed.

(** ** Methods with a precondition *)

Section Triple.
Context {A B : Type}.
Implicit Types (P E : Client -> Prop) (m : M A) (k : A -> M B).

Lemma triple_bind P m Q k R E :
  triple P m Q E -> (forall a, triple (Q a) (k a) R E) -> triple P (bind m k) R E.
Proof.
  intros Hm Hk c r c' HP Hrun.
  apply bind_inv in Hrun as [(a & c1 & H1 & H2)|(e & H1 & ->)].
  - eapply Hk; [|exact H2]. exact (Hm _ _ _ HP H1).
  - exact (Hm _ _ _ HP H1).
Qed.

Lemma triple_ret P (a : A) (Q : A -> Client -> Prop) E :
  (forall c, P c -> Q a c) -> triple P (ret a) Q E.
Proof. intros H c r c' HP [= <- <-]. by apply H. Qed.

Lemma triple_throw P e (Q : A -> Client -> Prop) E :
  (forall c, P c -> E c) -> triple P (throw e) Q E.
Proof. intros H c r c' HP [= <- <-]. by apply H. Qed.

Lemma triple_pre P P' m (Q : A -> Client -> Prop) E :
  (forall c, P c -> P' c) -> triple P' m Q E -> triple P m Q E.
Proof. intros H Hm c r c' HP. apply Hm. by apply H. Qed.
End Triple.

Lemma triple_modify P f (Q : unit -> Client -> Prop) E :
  (forall c, P c -> Q tt (f c)) -> triple P (modify f) Q E.
Proof. intros H c r c' HP [= <- <-]. by apply H. Qed.

Lemma triple_emit (I : Client -> Prop) e :
  (forall c evs, I c -> I (set_events evs c)) -> triple I (emit e) (fun _ => I) I.
Proof. intros H. apply triple_modify. intros c. apply H. Qed.

Lemma triple_writeRaw (I : Client -> Prop) raw :
  (forall c wb, I c -> I (set_writebuffer wb c)) -> triple I (writeRaw raw) (fun _ => I) I.
Proof. intros H. apply triple_modify. intros c. apply H. Qed.

Lemma triple_the_user (I : Client -> Prop) key :
  triple I (the_user key) (fun user c => I c /\ users c !! key = Some user) I.
Proof.
  intros c r c' HI Hrun. rewrite the_user_run in Hrun.
  destruct (users c !! key) eqn:E; by simplify_eq.
Qed.

Lemma triple_leave key user channel :
  triple (fun c => coherent c /\ users c !! key = Some user) (leave user channel)
         (fun _ => coherent) coherent.
Proof.
  intros c r c' [Hc Hu] Hrun. apply (leave_coherent _ _ _ _ _ _ Hc Hu) in Hrun.
  by destruct r.
Qed.

Lemma sourced_entry now line source rest c r c' :
  destroyed c = false ->
  Js.split " " line = String ":" source :: rest ->
  _lineHandler now line c = (r, c') ->
  sourced now line (mkCursor (String ":" source :: rest) [] 0)
          (set_events (events c ++ [onRaw line]) c) = (r, c').
Proof. intros Hd Hs. by rewrite (lineHandler_sourced _ _ _ _ _ Hd Hs). Qed.

Ltac consume_all :=
  cbv beta iota zeta delta [consumePart parts consumed partsConsumed lookup list_lookup];
  try change (Js.slice 1 (Js.show (Some (String ":" ?s)))) with s.

(** ** NICK and UID *)

Lemma lineHandler_NICK now line source new rest c :
  destroyed c = false ->
  Js.split " " line = String ":" source :: "NICK" :: new :: rest ->
  _lineHandler now line c =
  match users c !! source with
  | None => (Throw TypeError, set_events (events c ++ [onRaw line]) c)
  | Some user =>
      match uheap c !! user with
      | None => (Throw TypeError, set_events (events c ++ [onRaw line]) c)
      | Some u =>
          (Ok tt,
           set_events
             (events c ++
              [onRaw line; onNick source (Some new) (Js.parseInt (rest !! 0%nat));
               onCommand source (Some "NICK") (new :: rest)])
             (set_usersByNick
                (<[new := user]> (delete (Js.show (User.nickname u)) (usersByNick c)))
                (set_uheap (<[user := User.set_nickname (Some new) u]> (uheap c)) c)))
      end
  end.
Proof.
  intros Hd Hs. enter_sourced Hd Hs. unfold handle_NICK. consume.
  unfold rest_of. unfold bind. rewrite the_user_run.
  cbn [users set_events]. destruct (users c !! source) as [user|]; [|done].
  rewrite read_user_run. cbn [uheap set_events]. destruct (uheap c !! user) as [u|] eqn:Hu; [|done].
  unfold modify at 1. rewrite update_user_run. fields. rewrite Hu.
  destruct rest; destruct c; run; by rewrite <- !app_assoc.
Qed.

(** X8.  NICK keeps the two indexes of the users in step and gives no
    dictionary of the tables the key [__proto__], whatever its outcome,
    when the new nickname is free or is the one of the user itself and is
    not [__proto__], and the source is a key of [users] or no name of an
    inherited property. *)
Theorem nick_keeps_indexes now line source new rest c r c' :
  destroyed c = false ->
  Js.split " " line = String ":" source :: "NICK" :: new :: rest ->
  indexed c ->
  prototypes_intact c ->
  (users c !! source = None -> source ∉ Object_prototype) ->
  new ≠ "__proto__" ->
  (forall r', usersByNick c !! new = Some r' -> users c !! source = Some r') ->
  _lineHandler now line c = (r, c') ->
  indexed c' /\ prototypes_intact c'.
Proof.
  intros Hd Hs [H1 H2] Hp _ Hnew Hfree Hrun.
  rewrite (lineHandler_NICK _ _ _ _ _ _ Hd Hs) in Hrun.
  destruct (users c !! source) as [user|] eqn:Hu.
  2:{ injection Hrun as <- <-. split; [by apply indexed_events|].
      by apply prototypes_intact_events. }
  destruct (H1 _ _ Hu) as (u & Hh & Hid & Hn). rewrite Hh in Hrun.
  injection Hrun as <- <-. split.
  2:{ apply prototypes_intact_events. destruct Hp as (Hpu & Hpn & Hpc & Hpm & Hpo).
      split_and!; fields; try done.
      - rewrite lookup_insert_ne by done. apply lookup_delete_None. by right.
      - apply Forall_insert; [done|]. by apply (proj1 (Forall_lookup _ _) Hpm user u). }
  apply indexed_events. split; fields.
  - intros uid r' Hr'. destruct (H1 _ _ Hr') as (u' & Hh' & Hid' & Hn').
    destruct (decide (r' = user)) as [->|Hne].
    + eexists. split; [by eapply heap_update_eq|]. rewrite Hh in Hh'. injection Hh' as <-.
      split; [done|]. cbn. apply lookup_insert_eq.
    + exists u'. rewrite list_lookup_insert_ne by done. split_and!; try done.
      rewrite lookup_insert_ne.
      * rewrite lookup_delete_ne; [done|]. intros Heq. rewrite Heq in Hn.
        rewrite Hn' in Hn. by injection Hn.
      * intros Heq. rewrite <- Heq in Hn'. apply Hfree in Hn'. by injection Hn'.
  - intros nick r'. rewrite lookup_insert_Some. intros [[<- <-]|[Hne Hr']].
    + eexists. split; [by eapply heap_update_eq|]. split; [done|]. cbn. by rewrite Hid.
    + apply lookup_delete_Some in Hr' as [Hne' Hr'].
      destruct (H2 _ _ Hr') as (u' & Hh' & Hnick & Hus).
      assert (r' ≠ user).
      { intros ->. rewrite Hh in Hh'. injection Hh' as <-. done. }
      exists u'. by rewrite list_lookup_insert_ne.
Qed.

Lemma nick_keeps_indexes_witness :
  indexed (_lineHandler 0 ":001AAAAAA NICK bob 200" alice_in_channel).2 /\
  prototypes_intact (_lineHandler 0 ":001AAAAAA NICK bob 200" alice_in_channel).2.
Proof.
  apply (nick_keeps_indexes 0 ":001AAAAAA NICK bob 200" "001AAAAAA" "bob" ["200"]
           alice_in_channel
           (_lineHandler 0 ":001AAAAAA NICK bob 200" alice_in_channel).1).
  - reflexivity.
  - reflexivity.
  - apply alice_in_channel_indexed.
  - apply alice_in_channel_intact.
  - intros H. vm_compute in H. discriminate H.
  - discriminate.
  - intros r' H. vm_compute in H. discriminate H.
  - apply surjective_pairing.
Defined.

(** X9.  UID with a UID and a nickname that are both free, and neither of
    them [__proto__], registers the user under both, keeps the tables
    coherent and gives no dictionary of the tables the key [__proto__]. *)
Theorem uid_keeps_coherence now line source n hop ts un hn uid ss um vh ch ip more c :
  destroyed c = false ->
  Js.split " " line =
    String ":" source :: "UID" :: n :: hop :: ts :: un :: hn :: uid :: ss :: um :: vh :: ch
    :: ip :: more ->
  coherent c ->
  prototypes_intact c ->
  users c !! uid = None ->
  usersByNick c !! n = None ->
  uid ≠ "__proto__" ->
  n ≠ "__proto__" ->
  exists c' (user : ref),
    _lineHandler now line c = (Ok tt, c') /\ coherent c' /\ prototypes_intact c' /\
    users c' !! uid = Some user /\ usersByNick c' !! n = Some user.
Proof.
  intros Hd Hs ([H1 H2] & Hc & Hm) Hp Hfu Hfn Hpu Hpn.
  rewrite (lineHandler_UID _ _ _ _ _ _ _ _ _ _ _ _ _ _ _ _ Hd Hs).
  eexists _, (length (uheap c)). split; [reflexivity|].
  split; [|split; [|split; fields; apply lookup_insert_eq]].
  2:{ apply prototypes_intact_events. destruct Hp as (Hp1 & Hp2 & Hp3 & Hp4 & Hp5).
      split_and!; fields; try done.
      - by rewrite lookup_insert_ne.
      - by rewrite lookup_insert_ne.
      - apply Forall_app. split; [done|]. by apply Forall_cons_2; [|apply Forall_nil_2]. }
  apply coherent_events. split; [split|split].
  - intros uid' r. fields. rewrite lookup_insert_Some. intros [[<- <-]|[Hne Hr]].
    + eexists. split; [apply list_lookup_middle; done|]. split; [done|]. cbn.
      apply lookup_insert_eq.
    + destruct (H1 _ _ Hr) as (u & Hh & Hid & Hn). exists u.
      split; [by apply heap_alloc_old|]. split; [done|].
      rewrite lookup_insert_ne; [done|]. intros Heq. rewrite <- Heq in Hn. congruence.
  - intros nick r. fields. rewrite lookup_insert_Some. intros [[<- <-]|[Hne Hr]].
    + eexists. split; [apply list_lookup_middle; done|]. split; [done|]. cbn.
      apply lookup_insert_eq.
    + destruct (H2 _ _ Hr) as (u & Hh & Hid & Hn). exists u.
      split; [by apply heap_alloc_old|]. split; [done|].
      rewrite lookup_insert_ne; [done|]. intros Heq. rewrite <- Heq in Hn. congruence.
  - intros name cr. fields. apply Hc.
  - intros uid' ur v name mr. fields. rewrite lookup_insert_Some.
    intros [[<- <-]|[Hne Hr]] Hv Hms.
    + rewrite list_lookup_middle in Hv by done. injection Hv as <-. cbn in Hms.
      by rewrite lookup_empty in Hms.
    + destruct (H1 _ _ Hr) as (u & Hh & _). rewrite (heap_alloc_old _ _ _ _ Hh) in Hv.
      injection Hv as <-. destruct (Hm _ _ _ _ _ Hr Hh Hms) as (cr & o & ?). by exists cr, o.
Qed.

Lemma uid_keeps_coherence_witness :
  exists c' (user : ref),
    _lineHandler 0 ":001 UID bob 0 95 b host 001BBBBBB * +i vhost chost ip :Bob"
                 alice_in_channel = (Ok tt, c') /\
    coherent c' /\ prototypes_intact c' /\
    users c' !! "001BBBBBB" = Some user /\ usersByNick c' !! "bob" = Some user.
Proof.
  apply (uid_keeps_coherence 0 ":001 UID bob 0 95 b host 001BBBBBB * +i vhost chost ip :Bob"
           "001" "bob" "0" "95" "b" "host" "001BBBBBB" "*" "+i" "vhost" "chost" "ip" [":Bob"]
           alice_in_channel).
  - reflexivity.
  - reflexivity.
  - apply alice_in_channel_coherent.
  - apply alice_in_channel_intact.
  - reflexivity.
  - reflexivity.
  - discriminate.
  - discriminate.
Defined.

(** ** Methods that leave the tables alone *)

Lemma same_user_refl u : same_user u u.
Proof. by repeat split. Qed.

Lemma same_members_refl o : same_members o o.
Proof. by repeat split. Qed.

Lemma same_tables_refl c : same_tables c c.
Proof.
  split_and!; try done; apply Forall2_same_length_lookup; (split; [done|]);
    intros i x y Hx Hy; simplify_eq; [apply same_user_refl | apply same_members_refl].
Qed.

Lemma same_tables_trans c1 c2 c3 : same_tables c1 c2 -> same_tables c2 c3 -> same_tables c1 c3.
Proof.
  intros (Hu & Hn & Hc & Hhu & Hhc) (Hu' & Hn' & Hc' & Hhu' & Hhc').
  split_and!; try congruence.
  - eapply Forall2_trans; [|exact Hhu|exact Hhu'].
    intros x y z (?&?&?) (?&?&?). split_and!; congruence.
  - eapply Forall2_trans; [|exact Hhc|exact Hhc'].
    intros x y z (?&?) (?&?). split_and!; congruence.
Qed.

Lemma same_tables_coherent c c' : same_tables c c' -> coherent c -> coherent c'.
Proof.
  intros (Hu & Hn & Hc & Hhu & Hhc) ([H1 H2] & Hnm & Hm).
  split; [split|split].
  - intros uid r. rewrite Hu. intros Hr. destruct (H1 _ _ Hr) as (u & Hh & Hid & Hnick).
    destruct (Forall2_lookup_l _ _ _ _ _ Hhu Hh) as (u' & Hh' & Hid' & Hn' & _).
    exists u'. rewrite Hid', Hn', Hn. done.
  - intros nick r. rewrite Hn. intros Hr. destruct (H2 _ _ Hr) as (u & Hh & Hnick & Hus).
    destruct (Forall2_lookup_l _ _ _ _ _ Hhu Hh) as (u' & Hh' & Hid' & Hn' & _).
    exists u'. rewrite Hid', Hn', Hu. done.
  - intros name cr. rewrite Hc. intros Hcr. destruct (Hnm _ _ Hcr) as (o & Ho & Hname).
    destruct (Forall2_lookup_l _ _ _ _ _ Hhc Ho) as (o' & Ho' & Hname' & _).
    exists o'. by rewrite Hname'.
  - intros uid ur u' name mr. rewrite Hu. intros Hur Hu' Hms.
    destruct (Forall2_lookup_r _ _ _ _ _ Hhu Hu') as (u & Hh & Hid & Hnick & Hmem).
    rewrite Hmem in Hms. destruct (Hm _ _ _ _ _ Hur Hh Hms) as (cr & o & Hcr & Ho & Hin).
    destruct (Forall2_lookup_l _ _ _ _ _ Hhc Ho) as (o' & Ho' & _ & Husers).
    exists cr, o'. rewrite Hc, Husers, Hnick. done.
Qed.

Section Quiet.
Context {A B : Type}.

Lemma quiet_bind (m : M A) (k : A -> M B) : quiet m -> (forall a, quiet (k a)) -> quiet (bind m k).
Proof.
  intros Hm Hk c r c' Hc Hrun.
  apply bind_inv in Hrun as [(a & c1 & H1 & H2)|(e & H1 & ->)].
  - pose proof (Hm _ _ _ Hc H1) as H. eapply same_tables_trans; [exact H|].
    eapply Hk; [|exact H2]. by eapply same_tables_coherent.
  - by eapply Hm.
Qed.

Lemma quiet_ret (a : A) : quiet (ret a).
Proof. intros c r c' _ [= <- <-]. apply same_tables_refl. Qed.

Lemma quiet_throw e : quiet (throw (A := A) e).
Proof. intros c r c' _ [= <- <-]. apply same_tables_refl. Qed.

Lemma quiet_defined (o : option A) : quiet (defined o).
Proof. destruct o; [apply quiet_ret | apply quiet_throw]. Qed.
End Quiet.

Lemma quiet_get : quiet get.
Proof. intros c r c' _ [= <- <-]. apply same_tables_refl. Qed.

(** A state change that is an update of fields other than the tables. *)
Lemma quiet_modify f :
  (forall c, users (f c) = users c /\ usersByNick (f c) = usersByNick c /\
             channels (f c) = channels c /\ uheap (f c) = uheap c /\ cheap (f c) = cheap c) ->
  quiet (modify f).
Proof.
  intros H c r c' _ [= <- <-]. destruct (H c) as (Hu & Hn & Hc & Hhu & Hhc).
  destruct (same_tables_refl c) as (_ & _ & _ & Ru & Rc).
  split_and!; try done; by rewrite ?Hhu, ?Hhc.
Qed.

Lemma quiet_emit e : quiet (emit e).
Proof. by apply quiet_modify. Qed.

Lemma quiet_writeRaw raw : quiet (writeRaw raw).
Proof. by apply quiet_modify. Qed.

Lemma quiet_write message : quiet (write message).
Proof. apply quiet_bind; [apply quiet_get|intros ?; apply quiet_writeRaw]. Qed.

Lemma quiet_read_user r : quiet (read_user r).
Proof. apply quiet_bind; [apply quiet_get|intros ?; apply quiet_defined]. Qed.

Lemma quiet_read_channel r : quiet (read_channel r).
Proof. apply quiet_bind; [apply quiet_get|intros ?; apply quiet_defined]. Qed.

Lemma quiet_read_member r : quiet (read_member r).
Proof. apply quiet_bind; [apply quiet_get|intros ?; apply quiet_defined]. Qed.

Lemma quiet_the_user key : quiet (the_user key).
Proof. apply quiet_bind; [apply quiet_get|intros ?; apply quiet_defined]. Qed.

Lemma quiet_the_channel key : quiet (the_channel key).
Proof. apply quiet_bind; [apply quiet_get|intros ?; apply quiet_defined]. Qed.

Lemma Forall2_update {X} (R : X -> X -> Prop) (h : list X) r x y :
  (forall z, R z z) -> h !! r = Some x -> R x y -> Forall2 R h (<[r := y]> h).
Proof.
  intros Hrefl Hx Hxy. apply Forall2_same_length_lookup. split; [by rewrite length_insert|].
  intros i a b Ha Hb. destruct (decide (i = r)) as [->|Hne].
  - erewrite heap_update_eq in Hb by done. by simplify_eq.
  - rewrite list_lookup_insert_ne in Hb by done. by simplify_eq.
Qed.

Lemma quiet_update_user r f : (forall u, same_user u (f u)) -> quiet (update_user r f).
Proof.
  intros Hf c res c' _ Hrun. rewrite update_user_run in Hrun.
  destruct (uheap c !! r) as [u|] eqn:Hu; injection Hrun as <- <-; [|apply same_tables_refl].
  destruct (same_tables_refl c) as (_ & _ & _ & _ & Rc).
  split_and!; try done. fields. eapply Forall2_update; eauto using same_user_refl.
Qed.

Lemma quiet_update_channel r f : (forall o, same_members o (f o)) -> quiet (update_channel r f).
Proof.
  intros Hf c res c' _ Hrun. rewrite update_channel_run in Hrun.
  destruct (cheap c !! r) as [o|] eqn:Ho; injection Hrun as <- <-; [|apply same_tables_refl].
  destruct (same_tables_refl c) as (_ & _ & _ & Ru & _).
  split_and!; try done. fields. eapply Forall2_update; eauto using same_members_refl.
Qed.

Lemma quiet_update_member r f : quiet (update_member r f).
Proof.
  intros c res c' _ Hrun. rewrite update_member_run in Hrun.
  destruct (mheap c !! r) as [o|] eqn:Ho; injection Hrun as <- <-; [|apply same_tables_refl].
  destruct (same_tables_refl c) as (? & ? & ? & ? & ?). by split_and!.
Qed.

Lemma quiet_new_member m : quiet (new_member m).
Proof.
  intros c res c' _ [= <- <-].
  destruct (same_tables_refl c) as (? & ? & ? & ? & ?). by split_and!.
Qed.

(** ** Handlers that leave the tables alone *)

Ltac quiet_step :=
  first
    [ apply quiet_ret | apply quiet_throw | apply quiet_get | apply quiet_defined
    | apply quiet_emit | apply quiet_writeRaw | apply quiet_write
    | apply quiet_read_user | apply quiet_read_channel | apply quiet_read_member
    | apply quiet_the_user | apply quiet_the_channel
    | apply quiet_update_member | apply quiet_new_member
    | apply quiet_update_user; intros ?; by repeat split
    | apply quiet_update_channel; intros ?; by repeat split
    | apply quiet_modify; intros ?; by repeat split
    | apply quiet_bind; [|intros ?]
    | match goal with
      | |- quiet (match ?x with _ => _ end) => destruct x
      | |- quiet (if ?b then _ else _) => destruct b
      | |- quiet (let '(_, _) := ?x in _) => destruct x
      end ].

Ltac quiet_auto := repeat quiet_step.

Lemma quiet_endOfSync now : quiet (endOfSync now).
Proof. unfold endOfSync. quiet_auto. Qed.

Lemma quiet_sendNumeric target numeric message : quiet (sendNumeric target numeric message).
Proof. unfold sendNumeric. quiet_auto. Qed.

Lemma quiet_PING k : quiet (handle_PING k).
Proof. unfold handle_PING. quiet_auto. Qed.

Lemma quiet_PROTOCTL k : quiet (handle_PROTOCTL k).
Proof. unfold handle_PROTOCTL. quiet_auto. Qed.

Lemma quiet_TOPIC line k : quiet (handle_TOPIC line k).
Proof. unfold handle_TOPIC. quiet_auto. Qed.

Lemma quiet_NETINFO now line k : quiet (handle_NETINFO now line k).
Proof.
  unfold handle_NETINFO. consume_all. quiet_auto.
Qed.

Lemma quiet_SERVER : quiet handle_SERVER.
Proof. unfold handle_SERVER. quiet_auto. Qed.

Lemma quiet_SID line source k : quiet (handle_SID line source k).
Proof. unfold handle_SID. consume_all. quiet_auto. Qed.

Lemma quiet_KILL line source k : quiet (handle_KILL line source k).
Proof. unfold handle_KILL. quiet_auto. Qed.

Lemma quiet_MD source k : quiet (handle_MD source k).
Proof. unfold handle_MD. quiet_auto. Qed.

Lemma quiet_SETHOST source k : quiet (handle_SETHOST source k).
Proof. unfold handle_SETHOST. quiet_auto. Qed.

Lemma quiet_SETIDENT source k : quiet (handle_SETIDENT source k).
Proof. unfold handle_SETIDENT. quiet_auto. Qed.

Lemma quiet_SETNAME line source k : quiet (handle_SETNAME line source k).
Proof. unfold handle_SETNAME. quiet_auto. Qed.

Lemma quiet_CHGHOST source k : quiet (handle_CHGHOST source k).
Proof. unfold handle_CHGHOST. quiet_auto. Qed.

Lemma quiet_CHGIDENT source k : quiet (handle_CHGIDENT source k).
Proof. unfold handle_CHGIDENT. quiet_auto. Qed.

Lemma quiet_CHGNAME line source k : quiet (handle_CHGNAME line source k).
Proof. unfold handle_CHGNAME. quiet_auto. Qed.

Lemma quiet_PRIVMSG line source k : quiet (handle_PRIVMSG line source k).
Proof. unfold handle_PRIVMSG. consume_all. quiet_auto. Qed.

Lemma quiet_NOTICE line source k : quiet (handle_NOTICE line source k).
Proof. unfold handle_NOTICE. consume_all. quiet_auto. Qed.

Lemma quiet_VERSION source k : quiet (handle_VERSION source k).
Proof. unfold handle_VERSION. quiet_auto. Qed.

(** ** MODE and UMODE2 leave the tables alone *)

Lemma quiet_mode_add channelObj mode st : quiet (mode_add channelObj mode st).
Proof.
  unfold mode_add. destruct st as [args newModes]. unfold shift.
  repeat first
    [ apply quiet_update_channel; intros ?;
      destruct mode as [[] [] [] [] [] [] [] []]; by repeat split
    | quiet_step ].
Qed.

Lemma quiet_mode_remove channelObj mode st : quiet (mode_remove channelObj mode st).
Proof.
  unfold mode_remove. destruct st as [args newModes]. unfold shift.
  repeat first
    [ apply quiet_update_channel; intros ?;
      destruct mode as [[] [] [] [] [] [] [] []]; by repeat split
    | quiet_step ].
Qed.

Lemma quiet_mode_loop step modes :
  (forall mode st, quiet (step mode st)) -> forall st, quiet (mode_loop step modes st).
Proof.
  intros Hstep. induction modes as [|mode rest IH]; intros st; simpl.
  - apply quiet_ret.
  - apply quiet_bind; [apply Hstep | apply IH].
Qed.

(** The assignment [this.channels[target] = channelObj] of MODE stores what
    is stored there. *)
Lemma quiet_from {A} (m : M A) c c1 r c2 :
  quiet m -> coherent c -> same_tables c c1 -> m c1 = (r, c2) -> same_tables c c2.
Proof.
  intros Hm Hc H1 H2. eapply same_tables_trans; [exact H1|].
  eapply Hm; [|exact H2]. by eapply same_tables_coherent.
Qed.

Lemma quiet_mode source target modes args : quiet (mode source target modes args).
Proof.
  intros c r c' Hc Hrun. unfold mode in Hrun.
  unfold bind at 1 in Hrun. rewrite the_channel_run in Hrun.
  destruct (channels c !! Js.show target) as [ch|] eqn:Hch;
    [|injection Hrun as <- <-; apply same_tables_refl].
  cbv beta in Hrun.
  match type of Hrun with
  | ?body c = _ =>
      assert (Hgen : forall c1, same_tables c c1 -> body c1 = (r, c') -> same_tables c c');
        [|exact (Hgen c (same_tables_refl c) Hrun)]
  end.
  clear Hrun. intros c1 H Hrun.
  apply bind_inv in Hrun as [(? & c2 & H1 & Hrun)|(e & H1 & ->)];
    [|by eapply (quiet_from _ _ _ _ _ (quiet_read_channel ch))].
  apply (quiet_from _ _ _ _ _ (quiet_read_channel ch) Hc H) in H1. clear H. clear c1.
  apply bind_inv in Hrun as [(ms & c3 & H2 & Hrun)|(e & H2 & ->)];
    [|by eapply (quiet_from _ _ _ _ _ (quiet_defined modes))].
  apply (quiet_from _ _ _ _ _ (quiet_defined modes) Hc H1) in H2. clear H1. clear c2.
  apply bind_inv in Hrun as [(st & c4 & H3 & Hrun)|(e & H3 & ->)];
    [|by eapply (quiet_from _ _ _ _ _ (quiet_mode_loop _ _ (quiet_mode_add ch) _))].
  apply (quiet_from _ _ _ _ _ (quiet_mode_loop _ _ (quiet_mode_add ch) _) Hc H2) in H3.
  clear H2. clear c3.
  apply bind_inv in Hrun as [(st' & c5 & H4 & Hrun)|(e & H4 & ->)];
    [|by eapply (quiet_from _ _ _ _ _ (quiet_mode_loop _ _ (quiet_mode_remove ch) _))].
  apply (quiet_from _ _ _ _ _ (quiet_mode_loop _ _ (quiet_mode_remove ch) _) Hc H3) in H4.
  clear H3. clear c4.
  unfold mode_finish in Hrun.
  assert (Hq : forall f, (forall o, same_members o (f o)) -> quiet (update_channel ch f))
    by (intros f Hf; by apply quiet_update_channel).
  apply bind_inv in Hrun as [(? & c6 & H5 & Hrun)|(e & H5 & ->)].
  2:{ eapply (quiet_from _ _ _ _ _ (Hq _ _) Hc H4 H5). }
  eapply (quiet_from _ _ _ _ _ (Hq _ _) Hc H4) in H5.
  clear H4. clear c5.
  apply bind_inv in Hrun as [(? & c7 & H6 & Hrun)|(e & H6 & ->)]; [|done].
  injection H6 as _ <-.
  eapply (quiet_from _ _ _ _ _ (quiet_emit _) Hc); [|exact Hrun].
  destruct H5 as (Hu & Hn & Hcs & Hhu & Hhc). split_and!; try done. fields.
  rewrite Hcs. by apply insert_id.
  Unshelve. all: intros ?; by repeat split.
Qed.

Lemma quiet_MODE source k : quiet (handle_MODE source k).
Proof.
  unfold handle_MODE. consume_all. apply quiet_bind; [apply quiet_mode|intros ?; apply quiet_ret].
Qed.

(** The assignment [this.users[user.uid] = user] of UMODE2 stores what is
    stored there, in a state whose indexes agree. *)
Lemma quiet_UMODE2 source k : quiet (handle_UMODE2 source k).
Proof.
  intros c r c' Hc Hrun. unfold handle_UMODE2 in Hrun. revert Hrun.
  cbv beta iota zeta delta [consumePart].
  unfold bind at 1, get at 1.
  set (candidate := match users c !! source with
                    | Some r => Some r
                    | None => usersByNick c !! source
                    end).
  intros Hrun.
  assert (Hcand : forall user, candidate = Some user ->
            exists u, uheap c !! user = Some u /\ users c !! Js.show (User.uid u) = Some user).
  { intros user. unfold candidate. destruct Hc as ([H1 H2] & _).
    destruct (users c !! source) as [r0|] eqn:Hs.
    - intros [= ->]. destruct (H1 _ _ Hs) as (u & Hh & Hid & _). exists u.
      split; [done|]. by rewrite Hid.
    - intros Hn. destruct (H2 _ _ Hn) as (u & Hh & _ & Hus). by exists u. }
  clearbody candidate. unfold bind at 1 in Hrun.
  destruct candidate as [user|]; cbv beta iota delta [defined throw ret] in Hrun;
    [|injection Hrun as <- <-; apply same_tables_refl].
  destruct (Hcand _ eq_refl) as (u & Hu & Hus).
  unfold bind at 1 in Hrun. rewrite read_user_run, Hu in Hrun.
  unfold bind at 1 in Hrun.
  destruct (User.usermodes u) as [usermodes|]; cbv beta iota delta [defined throw ret] in Hrun;
    [|injection Hrun as <- <-; apply same_tables_refl].
  unfold bind at 1 in Hrun.
  match type of Hrun with
  | context [match ?m with Some _ => _ | None => _ end c] => destruct m as [modes|]
  end; cbv beta iota delta [defined throw ret] in Hrun;
    [|injection Hrun as <- <-; apply same_tables_refl].
  unfold bind at 1 in Hrun.
  rewrite update_user_run, Hu in Hrun. unfold bind at 1, modify at 1 in Hrun.
  eapply (quiet_from _ c); [| exact Hc | | exact Hrun].
  { apply quiet_bind; [apply quiet_emit|intros ?; apply quiet_ret]. }
  destruct (same_tables_refl c) as (_ & _ & _ & _ & Rc).
  split_and!; try done; fields.
  - by apply insert_id.
  - eapply Forall2_update; eauto using same_user_refl. by repeat split.
Qed.

(** ** All commands but those of memberships *)

Ltac cases_of H :=
  repeat match type of H with
         | _ ∈ _ :: _ => apply elem_of_cons in H as [->|H]
         | _ ∈ [] => by apply elem_of_nil in H
         end.

Lemma quiet_sourced now line ps :
  (forall s, ps !! 1%nat = Some s -> s ∉ membership_commands) ->
  quiet (sourced now line (mkCursor ps [] 0)).
Proof.
  intros Hcmd. unfold sourced.
  cbv beta iota zeta delta [consumePart parts consumed partsConsumed].
  assert (Hafter : forall (after : option Cursor),
            quiet (match after with
                   | Some k => emit (onCommand (Js.slice 1 (Js.show (ps !! 0%nat)))
                                               (ps !! 1%nat) (rest_of k))
                   | None => ret tt
                   end)).
  { intros [k|]; [apply quiet_emit|apply quiet_ret]. }
  assert (Hcase : (exists s, ps !! 1%nat = Some s /\ s ∈ dispatched) \/
                  (forall s, ps !! 1%nat = Some s -> bool_decide (s ∈ dispatched) = false)).
  { destruct (ps !! 1%nat) as [s|]; [|by right].
    destruct (decide (s ∈ dispatched)); [left; eauto|right].
    intros ? [= <-]. by apply bool_decide_eq_false_2. }
  destruct Hcase as [(s & E & Hin)|Hout].
  - specialize (Hcmd s E). rewrite E in *. clear E. unfold dispatched in Hin.
    cases_of Hin.
    all: try solve [exfalso; apply Hcmd; unfold membership_commands;
                   repeat first [apply list_elem_of_here | apply list_elem_of_further]].
    all: cbv beta iota.
    all: apply quiet_bind; [|intros a; apply Hafter].
    all: try (apply quiet_bind; [|intros ?; apply quiet_ret]).
    all: lazymatch goal with
         | |- quiet (emit _) => apply quiet_emit
         | |- quiet (handle_SID _ _ _) => apply quiet_SID
         | |- quiet (handle_KILL _ _ _) => apply quiet_KILL
         | |- quiet (handle_MD _ _) => apply quiet_MD
         | |- quiet (handle_SETHOST _ _) => apply quiet_SETHOST
         | |- quiet (handle_SETIDENT _ _) => apply quiet_SETIDENT
         | |- quiet (handle_SETNAME _ _ _) => apply quiet_SETNAME
         | |- quiet (handle_CHGHOST _ _) => apply quiet_CHGHOST
         | |- quiet (handle_CHGIDENT _ _) => apply quiet_CHGIDENT
         | |- quiet (handle_CHGNAME _ _ _) => apply quiet_CHGNAME
         | |- quiet (handle_MODE _ _) => apply quiet_MODE
         | |- quiet (handle_UMODE2 _ _) => apply quiet_UMODE2
         | |- quiet (handle_PRIVMSG _ _ _) => apply quiet_PRIVMSG
         | |- quiet (handle_NOTICE _ _ _) => apply quiet_NOTICE
         | |- quiet (handle_VERSION _ _) => apply quiet_VERSION
         end.
  - erewrite dispatch_default by exact Hout.
    apply quiet_bind; [apply quiet_ret|]. intros a. apply Hafter.
Qed.

(** ** SJOIN keeps the tables coherent *)

Lemma joining_existing name channel c :
  coherent c -> channels c !! name = Some channel -> joining name channel c.
Proof.
  intros (Hi & Hn & Hm) Hch. split_and!; try done.
  - destruct (Hn _ _ Hch) as (o & Ho & Hname). by exists o.
  - intros name' cr Hcr. split; [|by intros ->; congruence].
    intros ->. destruct (Hn _ _ Hch) as (o & Ho & Hname).
    destruct (Hn _ _ Hcr) as (o' & Ho' & Hname'). congruence.
  - intros uid ur u name' mr Hur Hu Hms.
    destruct (Hm _ _ _ _ _ Hur Hu Hms) as (cr & o & Hcr & Ho & Hin).
    exists cr, o. split_and!; try done. case_decide; [congruence|done].
Qed.

Lemma joining_new name c ch :
  coherent c -> channels c !! name = None -> Channel.name ch = Some name ->
  joining name (length (cheap c)) (set_cheap (cheap c ++ [ch]) c).
Proof.
  intros (Hi & Hn & Hm) Hch Hname. split_and!; try done.
  - intros name' cr Hcr. fields. destruct (Hn _ _ Hcr) as (o & Ho & ?). exists o.
    split; [by apply heap_alloc_old|done].
  - exists ch. fields. split; [|done]. by apply list_lookup_middle.
  - intros name' cr Hcr. fields. destruct (Hn _ _ Hcr) as (o & Ho & ?).
    apply lookup_lt_Some in Ho. split; [lia|congruence].
  - intros uid ur u name' mr Hur Hu Hms. fields.
    destruct (Hm _ _ _ _ _ Hur Hu Hms) as (cr & o & Hcr & Ho & Hin).
    exists cr, o. split_and!; [|by apply heap_alloc_old|done].
    case_decide; [congruence|done].
Qed.

Lemma joining_stored name channel c :
  joining name channel c -> coherent (set_channels (<[name := channel]> (channels c)) c).
Proof.
  intros (Hi & Hn & (o & Ho & Hname) & Hiff & Hm). split; [done|split].
  - intros name' cr. fields. rewrite lookup_insert_Some. intros [[<- <-]|[Hne Hcr]].
    + by exists o.
    + by apply Hn.
  - intros uid ur u name' mr Hur Hu Hms. fields.
    destruct (Hm _ _ _ _ _ Hur Hu Hms) as (cr & o' & Hcr & Ho' & Hin).
    exists cr, o'. split_and!; try done. case_decide as Hd.
    + subst. apply lookup_insert_eq.
    + by rewrite lookup_insert_ne.
Qed.

(** Assignments to fields of the channel object other than [users]. *)
Lemma joining_update_channel name channel c (r : ref) o f :
  joining name channel c -> cheap c !! r = Some o -> same_members o (f o) ->
  joining name channel (set_cheap (<[r := f o]> (cheap c)) c).
Proof.
  intros (Hi & Hn & (o0 & Ho0 & Hname) & Hiff & Hm) Hr Hf.
  assert (Hkeep : forall (cr : ref) x, cheap c !! cr = Some x ->
            exists x', <[r := f o]> (cheap c) !! cr = Some x' /\ same_members x x').
  { intros cr x Hx. destruct (decide (cr = r)) as [->|Hne].
    - erewrite heap_update_eq by exact Hr.
      pose proof (eq_trans (eq_sym Hr) Hx) as [= <-]. eauto.
    - rewrite list_lookup_insert_ne by done. eauto using same_members_refl. }
  split_and!; try done.
  - intros name' cr Hcr. fields. destruct (Hn _ _ Hcr) as (x & Hx & ?).
    destruct (Hkeep _ _ Hx) as (x' & Hx' & Hs1 & Hs2). exists x'.
    split; [done|congruence].
  - fields. destruct (Hkeep _ _ Ho0) as (x' & Hx' & Hs1 & Hs2). exists x'.
    split; [done|congruence].
  - intros uid ur u name' mr Hur Hu Hms. fields.
    destruct (Hm _ _ _ _ _ Hur Hu Hms) as (cr & x & Hcr & Hx & Hin).
    destruct (Hkeep _ _ Hx) as (x' & Hx' & Hs1 & Hs2). exists cr, x'.
    split; [done|]. split; [done|]. by rewrite Hs2.
Qed.

(** The three assignments of the member branch of the burst loop. *)
Lemma joining_member name channel c uid (user : ref) u o m :
  joining name channel c -> users c !! uid = Some user -> uheap c !! user = Some u ->
  cheap c !! channel = Some o ->
  joining name channel
    (set_uheap
       (<[user := User.set_memberships (<[name := length (mheap c)]> (User.memberships u)) u]>
          (uheap c))
       (set_cheap
          (<[channel := Channel.set_users
                          (<[Js.show (User.nickname u) := length (mheap c)]> (Channel.users o)) o]>
             (cheap c))
          (set_mheap (mheap c ++ [m]) c))).
Proof.
  intros (Hi & Hn & (o0 & Ho0 & Hname) & Hiff & Hm) Hur Hu Ho. simplify_eq.
  split_and!.
  - destruct Hi as [H1 H2]. split.
    + intros uid' r Hr. fields. destruct (H1 _ _ Hr) as (v & Hv & Hid & Hnick).
      destruct (decide (r = user)) as [->|Hne].
      * simplify_eq. eexists. split; [by eapply heap_update_eq|done].
      * exists v. by rewrite list_lookup_insert_ne.
    + intros nick r Hr. fields. destruct (H2 _ _ Hr) as (v & Hv & Hid & Hnick).
      destruct (decide (r = user)) as [->|Hne].
      * simplify_eq. eexists. split; [by eapply heap_update_eq|done].
      * exists v. by rewrite list_lookup_insert_ne.
  - intros name' cr Hcr. fields. destruct (Hn _ _ Hcr) as (x & Hx & ?).
    destruct (decide (cr = channel)) as [->|Hne].
    + simplify_eq. eexists. split; [by eapply heap_update_eq|done].
    + exists x. by rewrite list_lookup_insert_ne.
  - fields. eexists. split; [by eapply heap_update_eq|done].
  - done.
  - intros uid' ur v name' mr Hur' Hv Hms. fields.
    destruct (decide (ur = user)) as [->|Hne].
    + erewrite heap_update_eq in Hv by exact Hu. injection Hv as <-.
      cbn [User.memberships User.set_memberships User.nickname] in *.
      destruct (decide (name' = name)) as [->|Hnn].
      * rewrite lookup_insert_eq in Hms. injection Hms as <-.
        exists channel. eexists. split; [done|]. split; [by eapply heap_update_eq|].
        cbn. apply lookup_insert_eq.
      * rewrite lookup_insert_ne in Hms by done.
        destruct (Hm _ _ _ _ _ Hur Hu Hms) as (cr & x & Hcr & Hx & Hin).
        rewrite decide_False in Hcr by done.
        exists cr, x. split; [done|]. split; [|done].
        rewrite list_lookup_insert_ne; [done|]. intros <-.
        by apply Hnn, (Hiff _ _ Hcr).
    + rewrite list_lookup_insert_ne in Hv by done.
      destruct (Hm _ _ _ _ _ Hur' Hv Hms) as (cr & x & Hcr & Hx & Hin).
      destruct (decide (name' = name)) as [->|Hnn].
      * subst cr. simplify_eq. exists channel. eexists. split; [done|].
        split; [by eapply heap_update_eq|]. cbn.
        rewrite lookup_insert_ne; [done|]. intros Heq.
        apply Hne. symmetry. eapply (indexed_nick c); eauto.
      * exists cr, x. split; [done|]. split; [|done].
        rewrite list_lookup_insert_ne; [done|]. intros <-.
        by apply Hnn, (Hiff _ _ Hcr).
Qed.

Lemma joining_token name channel unsafe i c r c' :
  joining name channel c -> sjoin_token name channel unsafe i c = (r, c') ->
  match r with Ok _ => joining name channel c' | Throw _ => True end.
Proof.
  intros HJ Hrun. unfold sjoin_token in Hrun.
  crunch Hrun; simplify_eq; try done.
  all: try (eapply joining_update_channel; eauto; by split).
  all: eapply joining_member; [exact HJ|eassumption..].
Qed.

Lemma joining_tokens name channel unsafe tokens : forall c r c',
  joining name channel c -> sjoin_tokens name channel unsafe tokens c = (r, c') ->
  match r with Ok _ => joining name channel c' | Throw _ => True end.
Proof.
  induction tokens as [|i rest IH]; intros c r c' HJ Hrun.
  - by injection Hrun as <- <-.
  - simpl in Hrun. apply bind_inv in Hrun as [(? & c1 & H1 & H2)|(e & H1 & ->)]; [|done].
    eapply IH; [|exact H2]. exact (joining_token _ _ _ _ _ _ _ HJ H1).
Qed.

Lemma joining_resolve name channel incumbent timestamp modes c r c' :
  joining name channel c -> sjoin_resolve channel incumbent timestamp modes c = (r, c') ->
  match r with Ok _ => joining name channel c' | Throw _ => True end.
Proof.
  intros HJ Hrun. unfold sjoin_resolve in Hrun.
  crunch Hrun; simplify_eq; try done.
  all: eapply joining_update_channel; eauto; by split.
Qed.

Lemma sjoin_coherent source timestamp name modes sjoinbuffer c c' :
  coherent c -> sjoin source timestamp name modes sjoinbuffer c = (Ok tt, c') -> coherent c'.
Proof.
  intros Hc Hrun. unfold sjoin in Hrun. unfold bind at 1, get at 1 in Hrun.
  destruct (channels c !! name) as [channel|] eqn:Hch.
  - unfold bind at 1, ret at 1 in Hrun.
    apply bind_inv_ok in Hrun as (unsafe & c1 & H1 & Hrun).
    pose proof (joining_resolve _ _ _ _ _ _ _ _ (joining_existing _ _ _ Hc Hch) H1) as HJ.
    apply bind_inv_ok in Hrun as (tokens & c2 & H2 & Hrun).
    destruct sjoinbuffer as [l|]; [|done]. injection H2 as <- <-.
    apply bind_inv_ok in Hrun as (? & c3 & H3 & Hrun).
    pose proof (joining_tokens _ _ _ _ _ _ _ HJ H3) as HJ3. cbv beta iota in HJ3.
    apply bind_inv_ok in Hrun as (? & c4 & H4 & Hrun).
    injection H4 as _ <-. injection Hrun as <-.
    apply coherent_events. by apply joining_stored.
  - unfold bind at 1, new_channel at 1 in Hrun.
    unfold bind at 1, ret at 1 in Hrun.
    pose proof (joining_new name c (Channel.mk (Some name) timestamp modes ∅ [] [] [])
                  Hc Hch eq_refl) as HJ.
    apply bind_inv_ok in Hrun as (tokens & c2 & H2 & Hrun).
    destruct sjoinbuffer as [l|]; [|done]. injection H2 as <- <-.
    apply bind_inv_ok in Hrun as (? & c3 & H3 & Hrun).
    pose proof (joining_tokens _ _ _ _ _ _ _ HJ H3) as HJ3. cbv beta iota in HJ3.
    apply bind_inv_ok in Hrun as (? & c4 & H4 & Hrun).
    injection H4 as _ <-. injection Hrun as <-.
    apply coherent_events. by apply joining_stored.
Qed.

(** ** Every line *)


Lemma triple_weaken {A} (P : Client -> Prop) (m : M A) Q (E E' : Client -> Prop) :
  (forall c, E c -> E' c) -> triple P m Q E -> triple P m Q E'.
Proof.
  intros H Hm c r c' HP Hrun. specialize (Hm c r c' HP Hrun). destruct r; [done|by apply H].
Qed.

Lemma triple_QUIT line source k :
  triple coherent (handle_QUIT line source k) (fun _ => coherent) coherent.
Proof.
  unfold handle_QUIT.
  eapply triple_bind; [apply triple_the_user|intros user].
  intros c r c' [Hc Hu] Hrun.
  destruct Hc as (Hi & Hn & Hm). destruct (proj1 Hi _ _ Hu) as (u & Hh & Hid & Hnick).
  revert Hrun. unfold bind. rewrite read_user_run, Hh. unfold modify, emit, ret.
  intros [= <- <-]. split_and!.
  - split; fields.
    + intros uid r'. rewrite lookup_delete_Some. intros [Hne Hr'].
      destruct (proj1 Hi _ _ Hr') as (u' & Hh' & Hid' & Hn'). exists u'.
      split_and!; try done.
      rewrite lookup_delete_ne; [done|]. intros Heq. rewrite Heq in Hnick.
      assert (r' = user) as -> by (rewrite Hn' in Hnick; by injection Hnick).
      rewrite Hh in Hh'. injection Hh' as <-. rewrite Hid in Hid'. by injection Hid'.
    + intros nick r'. rewrite lookup_delete_Some. intros [Hne Hr'].
      destruct (proj2 Hi _ _ Hr') as (u' & Hh' & Hnick' & Hus). exists u'.
      split_and!; try done.
      rewrite lookup_delete_ne; [done|]. intros Heq. rewrite <- Heq in Hus.
      assert (r' = user) as -> by (rewrite Hu in Hus; by injection Hus).
      rewrite Hh in Hh'. injection Hh' as <-. done.
  - intros name cr. fields. apply Hn.
  - intros uid ur v name mr. fields. rewrite lookup_delete_Some. intros [_ Hur] Hv Hms.
    destruct (Hm _ _ _ _ _ Hur Hv Hms) as (cr & o & ?). by exists cr, o.
Qed.

Lemma triple_PART line source k :
  triple coherent (handle_PART line source k) (fun _ => coherent) coherent.
Proof.
  unfold handle_PART. cbv beta iota zeta delta [consumePart].
  eapply triple_bind; [apply triple_the_user|intros user].
  eapply triple_bind; [apply triple_leave|intros ?].
  eapply triple_bind; [apply triple_emit, coherent_events|intros ?]. by apply triple_ret.
Qed.

Lemma triple_KICK line source k :
  triple coherent (handle_KICK line source k) (fun _ => coherent) coherent.
Proof.
  unfold handle_KICK. cbv beta iota zeta delta [consumePart].
  eapply triple_bind; [apply triple_the_user|intros user].
  eapply triple_bind; [apply triple_leave|intros ?].
  eapply triple_bind; [apply triple_emit, coherent_events|intros ?]. by apply triple_ret.
Qed.

Lemma triple_SAPART line k :
  triple coherent (handle_SAPART line k) (fun _ => coherent) coherent.
Proof.
  unfold handle_SAPART. cbv beta iota zeta delta [consumePart].
  eapply triple_bind; [apply triple_the_user|intros user].
  eapply triple_bind; [apply triple_leave|intros ?].
  eapply triple_bind; [apply triple_writeRaw, coherent_writebuffer|intros ?].
  by apply triple_ret.
Qed.

Lemma triple_SJOIN line source k :
  triple coherent (handle_SJOIN line source k) (fun _ => coherent) (fun _ => True).
Proof.
  intros c r c' Hc Hrun. destruct r as [k'|]; [|done].
  unfold handle_SJOIN in Hrun. revert Hrun. cbv beta iota zeta delta [consumePart]. intros Hrun.
  apply bind_inv_ok in Hrun as (next & c1 & H1 & Hrun).
  assert (c1 = c) as ->.
  { revert H1. unfold defined. by destruct (_ !! _); intros [= <- <-]. }
  clear H1. destruct (Js.startsWith "+" next).
  - apply bind_inv_ok in Hrun as ([] & c2 & H2 & Hrun). injection Hrun as _ <-.
    by eapply sjoin_coherent.
  - apply bind_inv_ok in Hrun as ([] & c2 & H2 & Hrun). injection Hrun as _ <-.
    by eapply sjoin_coherent.
Qed.


(** What every quiet method and the sourced commands of a line keep, the
    line handler keeps. *)
Lemma lineHandler_invariant now line (I E : Client -> Prop) :
  (forall A (m : M A), quiet m -> triple I m (fun _ => I) E) ->
  (Js.startsWith ":" (first_word line) = true ->
   triple I (sourced now line (mkCursor (Js.split " " line) [] 0)) (fun _ => I) E) ->
  triple I (_lineHandler now line) (fun _ => I) E.
Proof.
  intros Hq Hs. unfold _lineHandler.
  eapply triple_bind with (Q := fun _ => I); [apply Hq, quiet_get|]. intros c0.
  destruct (destroyed c0); [by apply triple_ret|].
  eapply triple_bind; [apply Hq, quiet_emit|]. intros ?. cbv zeta.
  cbv beta iota delta [parts]. fold (first_word line).
  repeat (eapply triple_bind with (Q := fun _ => I); [|intros ?]).
  - case_bool_decide; apply Hq; [apply quiet_PING | apply quiet_ret].
  - case_bool_decide; apply Hq; [apply quiet_PROTOCTL | apply quiet_ret].
  - case_bool_decide; apply Hq; [apply quiet_TOPIC | apply quiet_ret].
  - case_bool_decide; apply Hq; [apply quiet_NETINFO | apply quiet_ret].
  - case_bool_decide; apply Hq; [apply quiet_SERVER | apply quiet_ret].
  - destruct (Js.startsWith ":" (first_word line)); [by apply Hs | by apply triple_ret].
Qed.




Lemma same_tables_intact c c' :
  same_tables c c' -> prototypes_intact c -> prototypes_intact c'.
Proof.
  intros (Hu & Hn & Hc & Hhu & Hhc) (Hp1 & Hp2 & Hp3 & Hp4 & Hp5).
  split_and!; [by rewrite Hu | by rewrite Hn | by rewrite Hc | |].
  - apply Forall_lookup. intros i u' Hi.
    destruct (Forall2_lookup_r _ _ _ _ _ Hhu Hi) as (u & Hiu & _ & _ & Hm).
    rewrite Hm. by apply (proj1 (Forall_lookup _ _) Hp4 i u).
  - apply Forall_lookup. intros i o' Hi.
    destruct (Forall2_lookup_r _ _ _ _ _ Hhc Hi) as (o & Hio & _ & Hm).
    rewrite Hm. by apply (proj1 (Forall_lookup _ _) Hp5 i o).
Qed.

(** ** Words of an ordinary line *)

Lemma prefix_self w b : String.prefix w (w +:+ b) = true.
Proof.
  induction w as [|a w IH]; [by destruct b|].
  change (String a w +:+ b) with (String a (w +:+ b)). simpl.
  by destruct (Ascii.ascii_dec a a).
Qed.

Lemma occurs_here w b : occurs w (w +:+ b) = true.
Proof. pose proof (prefix_self w b) as H. destruct (w +:+ b); cbn [occurs]; by rewrite H. Qed.

Lemma occurs_later w a b : occurs w b = true -> occurs w (a +:+ b) = true.
Proof.
  intros H. induction a as [|x a IH]; [done|].
  change (String x a +:+ b) with (String x (a +:+ b)). cbn [occurs].
  rewrite IH. by rewrite orb_true_r.
Qed.

Lemma occurs_concat sep w l : w ∈ l -> occurs w (String.concat sep l) = true.
Proof.
  induction l as [|x l IH]; [by intros ?%elem_of_nil|].
  intros [->|Hin]%elem_of_cons.
  - destruct l as [|y l]; simpl.
    + rewrite <- (append_empty_r x) at 2. apply occurs_here.
    + apply occurs_here.
  - destruct l as [|y l]; [by apply elem_of_nil in Hin|].
    change (String.concat sep (x :: y :: l)) with (x +:+ sep +:+ String.concat sep (y :: l)).
    apply occurs_later, occurs_later. by apply IH.
Qed.

Lemma occurs_word w line : w ∈ Js.split " " line -> occurs w line = true.
Proof.
  intros H. pose proof (concat_split_go " " ltac:(done) line 0%nat) as E. cbn [Js.slice] in E.
  rewrite <- E. by apply occurs_concat.
Qed.

Lemma ordinary_word w line : ordinary line -> w ∈ Js.split " " line -> w ∉ Object_prototype.
Proof.
  intros Ho Hw Hin. apply occurs_word in Hw.
  pose proof (proj1 (Forall_forall _ _) Ho w Hin) as H. simpl in H. congruence.
Qed.

(** ** The prototypes stay in place *)

Lemma prototypes_intact_writebuffer c wb :
  prototypes_intact c -> prototypes_intact (set_writebuffer wb c).
Proof. by destruct c. Qed.

Lemma prototypes_intact_mheap c h :
  prototypes_intact c -> prototypes_intact (set_mheap h c).
Proof. by destruct c. Qed.

Lemma prototypes_intact_user c (r : ref) u v :
  prototypes_intact c -> uheap c !! r = Some u ->
  (User.memberships u !! "__proto__" = None -> User.memberships v !! "__proto__" = None) ->
  prototypes_intact (set_uheap (<[r := v]> (uheap c)) c).
Proof.
  intros (H1 & H2 & H3 & H4 & H5) Hr Hv. split_and!; fields; try done.
  apply Forall_insert; [done|]. apply Hv. exact (proj1 (Forall_lookup _ _) H4 _ _ Hr).
Qed.

Lemma prototypes_intact_channel c (r : ref) o o' :
  prototypes_intact c -> cheap c !! r = Some o ->
  (Channel.users o !! "__proto__" = None -> Channel.users o' !! "__proto__" = None) ->
  prototypes_intact (set_cheap (<[r := o']> (cheap c)) c).
Proof.
  intros (H1 & H2 & H3 & H4 & H5) Hr Hv. split_and!; fields; try done.
  apply Forall_insert; [done|]. apply Hv. exact (proj1 (Forall_lookup _ _) H5 _ _ Hr).
Qed.

Lemma prototypes_intact_new_channel c o :
  prototypes_intact c -> Channel.users o !! "__proto__" = None ->
  prototypes_intact (set_cheap (cheap c ++ [o]) c).
Proof.
  intros (H1 & H2 & H3 & H4 & H5) Ho. split_and!; fields; try done.
  apply Forall_app. split; [done|]. by apply Forall_singleton.
Qed.

Lemma prototypes_intact_channels c m :
  prototypes_intact c -> m !! "__proto__" = None -> prototypes_intact (set_channels m c).
Proof. intros (H1 & H2 & H3 & H4 & H5) Hm. by split_and!; fields. Qed.

Lemma prototypes_intact_users c m :
  prototypes_intact c -> m !! "__proto__" = None -> prototypes_intact (set_users m c).
Proof. intros (H1 & H2 & H3 & H4 & H5) Hm. by split_and!; fields. Qed.

Lemma prototypes_intact_usersByNick c m :
  prototypes_intact c -> m !! "__proto__" = None -> prototypes_intact (set_usersByNick m c).
Proof. intros (H1 & H2 & H3 & H4 & H5) Hm. by split_and!; fields. Qed.

Lemma delete_keeps_none {X} (m : gmap string X) k j : m !! j = None -> delete k m !! j = None.
Proof. intros H. apply lookup_delete_None. by right. Qed.

(** In indexed tables with their prototypes in place no registered user
    goes by the nickname [__proto__]. *)
Lemma indexed_nickname c uid (r : ref) u :
  indexed c -> prototypes_intact c -> users c !! uid = Some r -> uheap c !! r = Some u ->
  Js.show (User.nickname u) ≠ "__proto__".
Proof.
  intros [Hi _] (_ & Hn & _) Hr Hu Heq.
  destruct (Hi _ _ Hr) as (u' & Hu' & _ & Hnick). simplify_eq. congruence.
Qed.

Ltac intact_step :=
  lazymatch goal with
  | |- prototypes_intact (set_events _ _) => apply prototypes_intact_events
  | |- prototypes_intact (set_writebuffer _ _) => apply prototypes_intact_writebuffer
  | |- prototypes_intact (set_mheap _ _) => apply prototypes_intact_mheap
  | |- prototypes_intact (set_channels _ _) => apply prototypes_intact_channels; fields
  | |- prototypes_intact (set_users _ _) => apply prototypes_intact_users; fields
  | |- prototypes_intact (set_usersByNick _ _) => apply prototypes_intact_usersByNick; fields
  | |- prototypes_intact (set_cheap (<[?r := _]> _) ?c0) =>
      eapply (prototypes_intact_channel c0 r); [|fields; eassumption|cbn]
  | |- prototypes_intact (set_uheap (<[?r := _]> _) ?c0) =>
      eapply (prototypes_intact_user c0 r); [|fields; eassumption|cbn]
  | |- prototypes_intact (set_cheap (_ ++ [_]) ?c0) =>
      apply (prototypes_intact_new_channel c0); [|cbn]
  | |- delete _ _ !! _ = None => apply delete_keeps_none
  | |- _ -> delete _ _ !! _ = None => apply delete_keeps_none
  | |- ?P -> ?P => exact id
  | |- _ -> <[_ := _]> _ !! _ = None => intros ?; rewrite lookup_insert_ne; [done|]
  | |- _ => assumption
  end.

Lemma intact_QUIT line source k :
  triple prototypes_intact (handle_QUIT line source k)
         (fun _ => prototypes_intact) prototypes_intact.
Proof.
  intros c r c' Hp Hrun. unfold handle_QUIT in Hrun.
  assert (H3 := Hp). destruct H3 as (H1 & H2 & _).
  crunch Hrun; simplify_eq; try done. by repeat intact_step.
Qed.

Lemma intact_leave user channel :
  triple prototypes_intact (leave user channel) (fun _ => prototypes_intact) prototypes_intact.
Proof.
  intros c r c' Hp Hrun. unfold leave in Hrun.
  assert (H3 := Hp). destruct H3 as (H1 & H2 & H3 & _).
  crunch Hrun; simplify_eq; try done.
  all: by repeat intact_step.
Qed.

Lemma intact_token name channel unsafe i c r c' :
  name ≠ "__proto__" -> joining name channel c -> prototypes_intact c ->
  sjoin_token name channel unsafe i c = (r, c') -> prototypes_intact c'.
Proof.
  intros Hname HJ Hp Hrun. unfold sjoin_token in Hrun.
  crunch Hrun; simplify_eq; try done.
  all: repeat intact_step; try done.
  all: destruct HJ as [Hi _]; by eapply indexed_nickname.
Qed.

Lemma intact_tokens name channel unsafe tokens : forall c r c',
  name ≠ "__proto__" -> joining name channel c -> prototypes_intact c ->
  sjoin_tokens name channel unsafe tokens c = (r, c') ->
  match r with Ok _ => prototypes_intact c' | Throw _ => True end.
Proof.
  induction tokens as [|i rest IH]; intros c r c' Hname HJ Hp Hrun.
  - by injection Hrun as <- <-.
  - simpl in Hrun. apply bind_inv in Hrun as [(? & c1 & H1 & H2)|(e & H1 & ->)]; [|done].
    eapply IH; [done| | |exact H2].
    + exact (joining_token _ _ _ _ _ _ _ HJ H1).
    + exact (intact_token _ _ _ _ _ _ _ Hname HJ Hp H1).
Qed.

Lemma intact_resolve channel incumbent timestamp modes c r c' :
  prototypes_intact c -> sjoin_resolve channel incumbent timestamp modes c = (r, c') ->
  prototypes_intact c'.
Proof.
  intros Hp Hrun. unfold sjoin_resolve in Hrun.
  crunch Hrun; simplify_eq; try done.
  all: by repeat intact_step.
Qed.

Lemma sjoin_intact source timestamp name modes sjoinbuffer c c' :
  name ≠ "__proto__" -> coherent c -> prototypes_intact c ->
  sjoin source timestamp name modes sjoinbuffer c = (Ok tt, c') -> prototypes_intact c'.
Proof.
  intros Hname Hc Hp Hrun. unfold sjoin in Hrun. unfold bind at 1, get at 1 in Hrun.
  assert (Hch3 := Hp). destruct Hch3 as (_ & _ & Hch3 & _).
  destruct (channels c !! name) as [channel|] eqn:Hch.
  - unfold bind at 1, ret at 1 in Hrun.
    apply bind_inv_ok in Hrun as (unsafe & c1 & H1 & Hrun).
    pose proof (joining_resolve _ _ _ _ _ _ _ _ (joining_existing _ _ _ Hc Hch) H1) as HJ.
    pose proof (intact_resolve _ _ _ _ _ _ _ Hp H1) as Hp1.
    apply bind_inv_ok in Hrun as (tokens & c2 & H2 & Hrun).
    destruct sjoinbuffer as [l|]; [|done]. injection H2 as <- <-.
    apply bind_inv_ok in Hrun as (? & c3 & H3 & Hrun).
    pose proof (intact_tokens _ _ _ _ _ _ _ Hname HJ Hp1 H3) as Hp3. cbv beta iota in Hp3.
    apply bind_inv_ok in Hrun as (? & c4 & H4 & Hrun).
    injection H4 as _ <-. injection Hrun as <-.
    destruct Hp3 as (? & ? & ? & ? & ?).
    repeat intact_step; [by split_and!|]. by rewrite lookup_insert_ne.
  - unfold bind at 1, new_channel at 1 in Hrun.
    unfold bind at 1, ret at 1 in Hrun.
    pose proof (joining_new name c (Channel.mk (Some name) timestamp modes ∅ [] [] [])
                  Hc Hch eq_refl) as HJ.
    assert (Hp1 : prototypes_intact
                    (set_cheap (cheap c ++ [Channel.mk (Some name) timestamp modes ∅ [] [] []]) c)).
    { by repeat intact_step. }
    apply bind_inv_ok in Hrun as (tokens & c2 & H2 & Hrun).
    destruct sjoinbuffer as [l|]; [|done]. injection H2 as <- <-.
    apply bind_inv_ok in Hrun as (? & c3 & H3 & Hrun).
    pose proof (intact_tokens _ _ _ _ _ _ _ Hname HJ Hp1 H3) as Hp3. cbv beta iota in Hp3.
    apply bind_inv_ok in Hrun as (? & c4 & H4 & Hrun).
    injection H4 as _ <-. injection Hrun as <-.
    destruct Hp3 as (? & ? & ? & ? & ?).
    repeat intact_step; [by split_and!|]. by rewrite lookup_insert_ne.
Qed.

Lemma triple_both {A} (P P' : Client -> Prop) (m : M A) Q Q' (E E' : Client -> Prop) :
  triple P m Q E -> triple P' m Q' E' ->
  triple (fun c => P c /\ P' c) m (fun a c => Q a c /\ Q' a c) (fun c => E c /\ E' c).
Proof.
  intros H H' c r c' [HP HP'] Hrun.
  specialize (H _ _ _ HP Hrun). specialize (H' _ _ _ HP' Hrun). by destruct r.
Qed.

Lemma intact_PART line source k :
  triple prototypes_intact (handle_PART line source k)
         (fun _ => prototypes_intact) prototypes_intact.
Proof.
  unfold handle_PART. cbv beta iota zeta delta [consumePart].
  eapply triple_bind; [apply triple_the_user|intros user].
  eapply triple_bind;
    [eapply triple_pre; [|apply intact_leave]; by intros ? [? _]|intros ?].
  eapply triple_bind; [apply triple_emit, prototypes_intact_events|intros ?]. by apply triple_ret.
Qed.

Lemma intact_KICK line source k :
  triple prototypes_intact (handle_KICK line source k)
         (fun _ => prototypes_intact) prototypes_intact.
Proof.
  unfold handle_KICK. cbv beta iota zeta delta [consumePart].
  eapply triple_bind; [apply triple_the_user|intros user].
  eapply triple_bind;
    [eapply triple_pre; [|apply intact_leave]; by intros ? [? _]|intros ?].
  eapply triple_bind; [apply triple_emit, prototypes_intact_events|intros ?]. by apply triple_ret.
Qed.

Lemma intact_SAPART line k :
  triple prototypes_intact (handle_SAPART line k)
         (fun _ => prototypes_intact) prototypes_intact.
Proof.
  unfold handle_SAPART. cbv beta iota zeta delta [consumePart].
  eapply triple_bind; [apply triple_the_user|intros user].
  eapply triple_bind;
    [eapply triple_pre; [|apply intact_leave]; by intros ? [? _]|intros ?].
  eapply triple_bind; [apply triple_writeRaw, prototypes_intact_writebuffer|intros ?].
  by apply triple_ret.
Qed.

Lemma show_word (ps : list string) n :
  (forall w, w ∈ ps -> w ≠ "__proto__") -> Js.show (ps !! n) ≠ "__proto__".
Proof.
  intros H. destruct (ps !! n) as [w|] eqn:E; [|done].
  apply H. by eapply list_elem_of_lookup_2.
Qed.

Lemma intact_SJOIN line source k :
  (forall w, w ∈ parts k -> w ≠ "__proto__") ->
  triple (fun c => coherent c /\ prototypes_intact c) (handle_SJOIN line source k)
         (fun _ => prototypes_intact) (fun _ => True).
Proof.
  intros Hw c r c' [Hc Hp] Hrun. destruct r as [k'|]; [|done].
  unfold handle_SJOIN in Hrun. revert Hrun. cbv beta iota zeta delta [consumePart]. intros Hrun.
  apply bind_inv_ok in Hrun as (next & c1 & H1 & Hrun).
  assert (c1 = c) as ->.
  { revert H1. unfold defined. by destruct (_ !! _); intros [= <- <-]. }
  clear H1. destruct (Js.startsWith "+" next).
  - apply bind_inv_ok in Hrun as ([] & c2 & H2 & Hrun). injection Hrun as _ <-.
    eapply sjoin_intact; [|done|done|exact H2]. by apply show_word.
  - apply bind_inv_ok in Hrun as ([] & c2 & H2 & Hrun). injection Hrun as _ <-.
    eapply sjoin_intact; [|done|done|exact H2]. by apply show_word.
Qed.

(** The five commands that change memberships keep coherent tables with
    their prototypes in place as they are when they return. *)
Lemma sourced_membership_intact now line ps cmd :
  (forall w, w ∈ ps -> w ≠ "__proto__") ->
  ps !! 1%nat = Some cmd -> cmd ∈ ["QUIT"; "PART"; "KICK"; "SAPART"; "SJOIN"] ->
  triple (fun c => coherent c /\ prototypes_intact c) (sourced now line (mkCursor ps [] 0))
         (fun _ c => coherent c /\ prototypes_intact c) (fun _ => True).
Proof.
  intros Hw E Hcmd. unfold sourced.
  cbv beta iota zeta delta [consumePart parts consumed partsConsumed]. rewrite E.
  cases_of Hcmd; cbv beta iota.
  all: apply triple_bind with (Q := fun _ c => coherent c /\ prototypes_intact c);
    [|intros [k|];
      [apply triple_modify; intros ? [? ?];
         split; [by apply coherent_events|by apply prototypes_intact_events]
      | by apply triple_ret]].
  all: apply triple_bind with (Q := fun _ c => coherent c /\ prototypes_intact c);
    [|intros k; by apply triple_ret].
  - eapply triple_weaken; [|apply triple_both; [apply triple_QUIT|apply intact_QUIT]]. done.
  - eapply triple_weaken; [|apply triple_both; [apply triple_PART|apply intact_PART]]. done.
  - eapply triple_weaken; [|apply triple_both; [apply triple_KICK|apply intact_KICK]]. done.
  - eapply triple_weaken; [|apply triple_both; [apply triple_SAPART|apply intact_SAPART]]. done.
  - eapply triple_weaken with (E := fun c => True /\ True); [done|].
    eapply triple_pre; [|apply triple_both; [apply triple_SJOIN|by apply intact_SJOIN]].
    by intros c [? ?].
Qed.

Lemma quiet_intact {A} (m : M A) :
  quiet m ->
  triple (fun c => coherent c /\ prototypes_intact c) m
         (fun _ c => coherent c /\ prototypes_intact c) (fun _ => True).
Proof.
  intros Hm c r c' [Hc Hp] Hrun. pose proof (Hm _ _ _ Hc Hrun) as Hs.
  destruct r; [|done]. split; [by eapply same_tables_coherent|by eapply same_tables_intact].
Qed.

(** X11.  Every line without the name of an inherited property in it that
    [_lineHandler] handles to the end keeps the tables coherent and gives
    no dictionary of the tables the key [__proto__], unless its command is
    UID, NICK or SAJOIN; the dictionaries are taken with the prototypes
    they were made with. *)
Theorem coherence_kept now line c c' :
  coherent c ->
  prototypes_intact c ->
  ordinary line ->
  (Js.startsWith ":" (first_word line) = true ->
   forall s, second_word line = Some s -> s ∉ ["UID"; "NICK"; "SAJOIN"]) ->
  _lineHandler now line c = (Ok tt, c') ->
  coherent c' /\ prototypes_intact c'.
Proof.
  intros Hc Hp Hord Hcmd Hrun.
  assert (Ht : triple (fun c => coherent c /\ prototypes_intact c) (_lineHandler now line)
                 (fun _ c => coherent c /\ prototypes_intact c) (fun _ => True)).
  { apply lineHandler_invariant; [intros A m; by apply quiet_intact|].
    intros Hsrc. specialize (Hcmd Hsrc). unfold second_word in Hcmd.
    destruct (Js.split " " line !! 1%nat) as [s|] eqn:E.
    - destruct (decide (s ∈ ["QUIT"; "PART"; "KICK"; "SAPART"; "SJOIN"])) as [Hin|Hout].
      + apply (sourced_membership_intact now line _ s); [|done..].
        intros w Hw ->. apply (ordinary_word _ _ Hord Hw). not_inherited.
      + apply quiet_intact, quiet_sourced.
        intros s' Hs'. rewrite E in Hs'. injection Hs' as <-.
        specialize (Hcmd s eq_refl). unfold membership_commands.
        rewrite !not_elem_of_cons in *. tauto.
    - apply quiet_intact, quiet_sourced.
      intros s' Hs'. by rewrite E in Hs'. }
  exact (Ht _ _ _ (conj Hc Hp) Hrun).
Qed.

Lemma coherence_kept_witness :
  coherent (_lineHandler 0 ":001 SJOIN 100 #b +nt :@001AAAAAA" alice_in_channel).2 /\
  prototypes_intact (_lineHandler 0 ":001 SJOIN 100 #b +nt :@001AAAAAA" alice_in_channel).2.
Proof.
  apply (coherence_kept 0 ":001 SJOIN 100 #b +nt :@001AAAAAA" alice_in_channel).
  - apply alice_in_channel_coherent.
  - apply alice_in_channel_intact.
  - ordinary_line.
  - intros _ s H. vm_compute in H. injection H as <-.
    apply (bool_decide_unpack _). vm_compute. exact I.
  - vm_compute. reflexivity.
Defined.

(** X12.  From coherent tables with the prototypes they were made with, a
    line without the name of an inherited property in it, whose command is
    none of UID, NICK, QUIT, SJOIN, PART, KICK, SAJOIN and SAPART, leaves
    the tables as they are, whether it returns or throws: the same users
    under the same UIDs and nicknames, the same channels with the same
    members, and no key [__proto__]. *)
Theorem tables_untouched now line c r c' :
  coherent c ->
  prototypes_intact c ->
  ordinary line ->
  (Js.startsWith ":" (first_word line) = true ->
   forall s, second_word line = Some s -> s ∉ membership_commands) ->
  _lineHandler now line c = (r, c') ->
  same_tables c c' /\ prototypes_intact c'.
Proof.
  intros Hc Hp _ Hcmd Hrun.
  assert (Hsame : same_tables c c'); [|split; [done|by eapply same_tables_intact]].
  clear Hp. revert c r c' Hc Hrun. change (quiet (_lineHandler now line)).
  unfold _lineHandler.
  apply quiet_bind; [apply quiet_get|]. intros c0. destruct (destroyed c0); [apply quiet_ret|].
  apply quiet_bind; [apply quiet_emit|]. intros ?. cbv zeta.
  cbv beta iota delta [parts]. fold (first_word line).
  repeat (apply quiet_bind; [|intros ?]).
  - case_bool_decide; [apply quiet_PING | apply quiet_ret].
  - case_bool_decide; [apply quiet_PROTOCTL | apply quiet_ret].
  - case_bool_decide; [apply quiet_TOPIC | apply quiet_ret].
  - case_bool_decide; [apply quiet_NETINFO | apply quiet_ret].
  - case_bool_decide; [apply quiet_SERVER | apply quiet_ret].
  - destruct (Js.startsWith ":" (first_word line)); [|apply quiet_ret].
    apply quiet_sourced. by apply Hcmd.
Qed.

Lemma tables_untouched_witness :
  same_tables alice_in_channel
    (_lineHandler 0 ":001AAAAAA MODE #a +m" alice_in_channel).2 /\
  prototypes_intact (_lineHandler 0 ":001AAAAAA MODE #a +m" alice_in_channel).2.
Proof.
  apply (tables_untouched 0 ":001AAAAAA MODE #a +m" alice_in_channel
           (_lineHandler 0 ":001AAAAAA MODE #a +m" alice_in_channel).1).
  - apply alice_in_channel_coherent.
  - apply alice_in_channel_intact.
  - ordinary_line.
  - intros _ s H. vm_compute in H. injection H as <-. unfold membership_commands.
    apply (bool_decide_unpack _). vm_compute. exact I.
  - apply surjective_pairing.
Defined.

(** ** [disconnect] *)

Lemma farewell_loop uids c :
  foldr (fun uid rest => writeRaw (":" +:+ uid +:+ " QUIT :Server Shutting Down.");; rest)
        (ret tt) uids c
  = (Ok tt, set_writebuffer
              (_writebuffer c ++
               ((fun uid => (":" +:+ uid +:+ " QUIT :Server Shutting Down.") +:+ CRLF) <$> uids)) c).
Proof.
  revert c. induction uids as [|uid uids IH]; intros c.
  - destruct c. cbn. by rewrite app_nil_r.
  - cbn [foldr]. unfold bind at 1, writeRaw at 1, modify at 1.
    rewrite IH. destruct c. cbn. by rewrite <- app_assoc.
Qed.

Lemma append_inj_l a b d : a +:+ b = a +:+ d -> b = d.
Proof. induction a as [|x a IH]; [done|]. intros [= H]. by apply IH. Qed.

Lemma append_inj_r a b d : a +:+ d = b +:+ d -> a = b.
Proof.
  intros H. apply (f_equal Js.chars) in H. rewrite !chars_append in H.
  apply app_inv_tail in H. unfold Js.chars in H.
  rewrite <- (string_of_list_ascii_of_string a), <- (string_of_list_ascii_of_string b).
  by rewrite H.
Qed.

(** X13.  With [uids] the keys of [users], none of them [__proto__],
    [disconnect] queues a QUIT for every user of the client's own (the keys
    that start with its SID) when it is graceful, then the SQUIT line, and
    leaves users and channels in place.  On a client
    that [connect] has given a socket it then returns with the client
    destroyed, after which [_dataHandler] and [_lineHandler] do nothing and
    [connect] throws.  On a client that never connected it throws a
    TypeError once the lines are queued, and the client is not destroyed. *)
Theorem disconnect_makes_inert o uids reason (graceful : bool) c :
  NoDup uids ->
  (forall uid, uid ∈ uids <-> is_Some (users c !! uid)) ->
  users c !! "__proto__" = None ->
  exists c1,
    c1 = set_writebuffer
           (_writebuffer c
            ++ (if graceful then farewells (sid c) uids else [])
            ++ [(":" +:+ sid c +:+ " SQUIT " +:+ hostname o +:+ " :"
                 +:+ default "Software Requested Disconnect" reason) +:+ CRLF]) c /\
    (forall uid,
       (":" +:+ uid +:+ " QUIT :Server Shutting Down.") +:+ CRLF ∈ farewells (sid c) uids <->
       is_Some (users c !! uid) /\ Js.startsWith (sid c) uid = true) /\
    (_socket c = false ->
     disconnect o uids reason graceful c = (Throw TypeError, c1) /\
     destroyed c1 = destroyed c) /\
    (_socket c = true ->
     disconnect o uids reason graceful c
       = (Ok [socket_end; onDisconnected], set_destroyed true c1) /\
     (forall now data,
        _dataHandler now data (set_destroyed true c1) = (Ok tt, set_destroyed true c1)) /\
     (forall now line,
        _lineHandler now line (set_destroyed true c1) = (Ok tt, set_destroyed true c1)) /\
     (forall o',
        connect o' (set_destroyed true c1)
          = (Throw (Error "Client is destroyed"), set_destroyed true c1))).
Proof.
  intros _ Hkeys _. eexists. split; [reflexivity|].
  assert (Hrun : forall A (k : M A),
            bind (if graceful then
                    foldr (fun uid rest =>
                             writeRaw (":" +:+ uid +:+ " QUIT :Server Shutting Down.");; rest)
                          (ret tt) (filter (fun uid => Js.startsWith (sid c) uid = true) uids)
                  else ret tt) (fun _ => k) c
            = k (set_writebuffer
                   (_writebuffer c ++ (if graceful then farewells (sid c) uids else [])) c)).
  { intros A k. unfold bind at 1. destruct graceful.
    - by rewrite farewell_loop.
    - unfold ret. rewrite app_nil_r. by destruct c. }
  split; [|split].
  - intros uid. unfold farewells. rewrite list_elem_of_fmap. split.
    + intros (uid' & Heq & Hin). apply append_inj_r, append_inj_l, append_inj_r in Heq.
      subst uid'. apply list_elem_of_filter in Hin as [Hs Hin]. split; [by apply Hkeys|done].
    + intros [Hin Hs]. exists uid. split; [done|]. apply list_elem_of_filter.
      split; [done|by apply Hkeys].
  - intros Hk. unfold disconnect. unfold bind at 1, get at 1. rewrite Hrun.
    rewrite Hk. destruct c. cbn. by rewrite <- !app_assoc.
  - intros Hk. split; [|by repeat split].
    unfold disconnect. unfold bind at 1, get at 1. rewrite Hrun.
    rewrite Hk. destruct c. cbn. by rewrite <- !app_assoc.
Qed.

Lemma disconnect_makes_inert_witness :
  exists c',
    disconnect password_options ["999AAAAAA"] None true bot_connected
      = (Ok [socket_end; onDisconnected], c') /\
    destroyed c' = true /\
    _writebuffer c' =
      _writebuffer bot_connected
      ++ [":999AAAAAA QUIT :Server Shutting Down." +:+ CRLF;
          ":999 SQUIT bots.example :Software Requested Disconnect" +:+ CRLF] /\
    _lineHandler 0 "PING :irc.example" c' = (Ok tt, c').
Proof.
  destruct (disconnect_makes_inert password_options ["999AAAAAA"] None true bot_connected)
    as (c1 & -> & _ & _ & Hon).
  - apply NoDup_singleton.
  - intros uid. rewrite list_elem_of_singleton. split.
    + intros ->. by eexists.
    + intros [r Hr]. apply elem_of_map_to_list in Hr. vm_compute in Hr.
      apply list_elem_of_singleton in Hr. by injection Hr as -> ->.
  - vm_compute. reflexivity.
  - destruct (Hon eq_refl) as (Hrun & _ & Hline & _).
    eexists. split; [exact Hrun|]. split; [reflexivity|]. split; [reflexivity|].
    apply Hline.
Defined.

(** ** SAJOIN *)




(** ** NETINFO: from [endOfSync] to a peer *)

Lemma endOfSync_run now c :
  endOfSync now c =
  (Ok tt, set_writebuffer
            (_writebuffer c ++ [(":" +:+ sid c +:+ " EOS") +:+ CRLF;
                                netinfo_line now (networkname c) +:+ CRLF]) c).
Proof. destruct c. unfold endOfSync, write, writeRaw. run. by rewrite <- app_assoc. Qed.

Lemma lineHandler_NETINFO now line a b d e f g h more c :
  destroyed c = false ->
  Js.split " " line = "NETINFO" :: a :: b :: d :: e :: f :: g :: h :: more ->
  _lineHandler now line c =
  (let name :=
     Js.slice (String.length (String.concat " " ["NETINFO"; a; b; d; e; f; g; h]) + 2) line in
   let c1 :=
     set_linkinfo (<["NETWORKNAME" := LStr name]>
                  (<["CLOAKHASH" := LStr e]>
                  (<["VERSION" := LStr d]>
                  (<["TIMESTAMP" := LStr b]>
                  (<["MAXUSERS" := LStr a]> (_linkinfo c))))))
       (set_events (events c ++ [onRaw line]) c) in
   let c2 :=
     if _blockEOS c then c1
     else set_writebuffer
            (_writebuffer c ++ [(":" +:+ sid c +:+ " EOS") +:+ CRLF;
                                netinfo_line now name +:+ CRLF]) c1 in
   (Ok tt, set_events (events c ++ [onRaw line; onSync]) c2)).
Proof.
  intros Hd Hs. unfold _lineHandler. unfold bind at 1, get at 1. rewrite Hd.
  unfold bind at 1, emit at 1, modify at 1. rewrite Hs.
  cbn [parts lookup list_lookup default from_option id].
  rewrite (bool_decide_eq_true_2 ("NETINFO" = "NETINFO")) by done.
  rewrite !bool_decide_eq_false_2 by done.
  change (Js.startsWith ":" "NETINFO") with false.
  unfold handle_NETINFO. consume. unfold tail_of, reconstruct. cbn [consumed link_val].
  match goal with
  | |- context [Js.join_vals " " ?l] =>
      change (Js.join_vals " " l) with (String.concat " " ["NETINFO"; a; b; d; e; f; g; h])
  end.
  cbv zeta.
  set (name := Js.slice _ line).
  unfold bind, ret, modify, get, emit. cbv beta iota.
  cbn [_blockEOS set_linkinfo set_events].
  destruct (_blockEOS c) eqn:Hb.
  - destruct c. cbn in Hb. subst. cbn. by rewrite <- !app_assoc.
  - rewrite endOfSync_run.
    destruct c. cbn in Hb. subst. unfold networkname. cbn.
    rewrite lookup_insert_eq. by rewrite <- !app_assoc.
Qed.

(** X15.  The NETINFO line of [endOfSync] is read back by a peer: the peer
    records the network name and the time of the sender and, unless
    [onRegistered] has asked it to hold the reply, answers with EOS and a
    NETINFO line of its own that carries the same network name. *)
Theorem netinfo_round_trip now c now' peer :
  destroyed peer = false ->
  exists c1 p1,
    endOfSync now c = (Ok tt, c1) /\
    _writebuffer c1 =
      _writebuffer c ++ [(":" +:+ sid c +:+ " EOS") +:+ CRLF;
                         netinfo_line now (networkname c) +:+ CRLF] /\
    _lineHandler now' (netinfo_line now (networkname c)) peer = (Ok tt, p1) /\
    networkname p1 = networkname c /\
    _linkinfo p1 !! "TIMESTAMP" = Some (LStr (Js.Z_to_string now)) /\
    _writebuffer p1 =
      _writebuffer peer ++
      (if _blockEOS peer then []
       else [(":" +:+ sid peer +:+ " EOS") +:+ CRLF;
             netinfo_line now' (networkname c) +:+ CRLF]).
Proof.
  intros Hd. eexists _, _. split; [apply endOfSync_run|]. split; [done|].
  set (name := networkname c).
  assert (Hs : Js.split " " (netinfo_line now name)
               = ["NETINFO"; "0"; Js.Z_to_string now; "6100"; "*"; "0"; "0"; "0"]
                 ++ Js.split " " (String ":" name)).
  { rewrite <- split_words.
    - reflexivity.
    - repeat apply Forall_cons_2; try apply Forall_nil_2;
        try apply (spacefree_num (Js.Num now));
        unfold spacefree; by apply (bool_decide_unpack _). }
  assert (Ht : Js.slice
                 (String.length
                    (String.concat " "
                       ["NETINFO"; "0"; Js.Z_to_string now; "6100"; "*"; "0"; "0"; "0"]) + 2)
                 (netinfo_line now name) = name).
  { replace (netinfo_line now name)
      with (String.concat " " ["NETINFO"; "0"; Js.Z_to_string now; "6100"; "*"; "0"; "0"; "0"]
            +:+ " " +:+ ":" +:+ name); [apply slice_tail|].
    unfold netinfo_line. cbn [String.concat]. by rewrite !append_assoc. }
  erewrite lineHandler_NETINFO; [|done|exact Hs].
  cbv zeta. rewrite Ht. split; [reflexivity|].
  unfold networkname at 1.
  destruct (_blockEOS peer);
    cbn [_linkinfo set_linkinfo set_events set_writebuffer _writebuffer sid].
  - rewrite lookup_insert_eq. split; [done|]. split; [|by rewrite app_nil_r].
    by rewrite !lookup_insert_ne, lookup_insert_eq by done.
  - rewrite lookup_insert_eq. split; [done|]. split; [|done].
    by rewrite !lookup_insert_ne, lookup_insert_eq by done.
Qed.

Lemma netinfo_round_trip_witness :
  exists c1 p1,
    endOfSync 9 in_network = (Ok tt, c1) /\
    _writebuffer c1 =
      _writebuffer in_network ++ [":999 EOS" +:+ CRLF;
                                  "NETINFO 0 9 6100 * 0 0 0 :ExampleNet" +:+ CRLF] /\
    _lineHandler 11 "NETINFO 0 9 6100 * 0 0 0 :ExampleNet" (newClient "001") = (Ok tt, p1) /\
    networkname p1 = "ExampleNet" /\
    _linkinfo p1 !! "TIMESTAMP" = Some (LStr "9") /\
    _writebuffer p1 = [":001 EOS" +:+ CRLF; "NETINFO 0 11 6100 * 0 0 0 :ExampleNet" +:+ CRLF].
Proof.
  apply (netinfo_round_trip 9 in_network 11 (newClient "001")). reflexivity.
Defined.

(** ** UMODE2 *)






(** ** [sendNumeric] *)

Lemma padStart3_length numeric :
  String.length (String.substring 0 3 (padStart3 3 numeric)) = 3%nat.
Proof.
  destruct numeric as [|a [|b [|d s]]]; try reflexivity.
  cbn [padStart3 String.length]. rewrite bool_decide_eq_false_2 by lia.
  cbn. by destruct s.
Qed.

Lemma padStart3_long numeric :
  (3 <= String.length numeric)%nat ->
  String.substring 0 3 (padStart3 3 numeric) = String.substring 0 3 numeric.
Proof.
  intros H. cbn [padStart3]. by rewrite bool_decide_eq_false_2 by lia.
Qed.

Lemma padStart3_small n :
  0 <= n < 1000 ->
  Js.parseInt (Some (String.substring 0 3 (padStart3 3 (Js.Z_to_string n)))) = Js.Num n.
Proof.
  intros Hn.
  assert (Hall : forallb (fun k : nat =>
                   Js.num_eq (Js.parseInt (Some (String.substring 0 3
                                (padStart3 3 (Js.Z_to_string (Z.of_nat k))))))
                             (Js.Num (Z.of_nat k)))
                   (seq 0 1000) = true) by (vm_compute; reflexivity).
  rewrite forallb_forall in Hall.
  specialize (Hall (Z.to_nat n)). rewrite Z2Nat.id in Hall by lia.
  assert (Hin : In (Z.to_nat n) (seq 0 1000)) by (apply in_seq; lia).
  specialize (Hall Hin).
  destruct (Js.parseInt _) as [|z]; [done|].
  cbn in Hall. apply bool_decide_eq_true_1 in Hall. by subst.
Qed.

(** X17.  [sendNumeric] always sends three characters for the numeric: a
    shorter one is padded with zeros on the left, so that a number from 0 to
    999 reads back as itself, and a longer one is cut down to its first
    three characters. *)
Theorem sendNumeric_three_characters target numeric message c :
  exists code c1,
    sendNumeric target numeric message c = (Ok tt, c1) /\
    _writebuffer c1 =
      _writebuffer c ++
      [(":" +:+ sid c +:+ " " +:+ code +:+ " " +:+ target +:+ " " +:+ message) +:+ CRLF] /\
    String.length code = 3%nat /\
    ((3 <= String.length numeric)%nat -> code = String.substring 0 3 numeric) /\
    (forall n, 0 <= n < 1000 -> numeric = Js.Z_to_string n ->
               Js.parseInt (Some code) = Js.Num n).
Proof.
  exists (String.substring 0 3 (padStart3 3 numeric)). eexists.
  split; [unfold sendNumeric; apply write_queued|].
  split; [reflexivity|]. split; [apply padStart3_length|].
  split; [apply padStart3_long|].
  intros n Hn ->. by apply padStart3_small.
Qed.

(** ** MD *)




(** ** A line that throws in the middle of a chunk *)

Section KeepsBuffer.
Context {A B : Type}.

Lemma keeps_buffer_bind (m : M A) (k : A -> M B) :
  keeps_buffer m -> (forall a, keeps_buffer (k a)) -> keeps_buffer (bind m k).
Proof.
  intros Hm Hk c r c' H. apply bind_inv in H as [(a & c1 & H1 & H2)|(e & H1 & _)].
  - rewrite (Hk a _ _ _ H2). by eapply Hm.
  - by eapply Hm.
Qed.

Lemma keeps_buffer_ret (a : A) : keeps_buffer (ret a).
Proof. by intros c r c' [= _ <-]. Qed.

Lemma keeps_buffer_throw e : keeps_buffer (@throw A e).
Proof. by intros c r c' [= _ <-]. Qed.

Lemma keeps_buffer_defined (o : option A) : keeps_buffer (defined o).
Proof. destruct o; [apply keeps_buffer_ret|apply keeps_buffer_throw]. Qed.
End KeepsBuffer.

Lemma keeps_buffer_get : keeps_buffer get.
Proof. by intros c r c' [= _ <-]. Qed.

Lemma keeps_buffer_modify f :
  (forall c, _buffer (f c) = _buffer c) -> keeps_buffer (modify f).
Proof. intros Hf c r c' [= _ <-]. apply Hf. Qed.

Lemma keeps_buffer_new_user u : keeps_buffer (new_user u).
Proof. intros c r c' [= _ <-]. by destruct c. Qed.

Lemma keeps_buffer_new_channel o : keeps_buffer (new_channel o).
Proof. intros c r c' [= _ <-]. by destruct c. Qed.

Lemma keeps_buffer_new_member m : keeps_buffer (new_member m).
Proof. intros c r c' [= _ <-]. by destruct c. Qed.

Ltac keeps_buffer_step :=
  first
    [ apply keeps_buffer_ret | apply keeps_buffer_throw | apply keeps_buffer_get
    | apply keeps_buffer_defined
    | apply keeps_buffer_new_user | apply keeps_buffer_new_channel
    | apply keeps_buffer_new_member
    | apply keeps_buffer_modify; intros []; reflexivity
    | apply keeps_buffer_bind; [|intros ?]
    | match goal with
      | |- keeps_buffer (match ?x with _ => _ end) => destruct x
      | |- keeps_buffer (if ?b then _ else _) => destruct b
      | |- keeps_buffer (let '(_, _) := ?x in _) => destruct x
      end ].

Ltac keeps_buffer_auto := repeat keeps_buffer_step.

Lemma keeps_buffer_primitives :
  (forall e, keeps_buffer (emit e)) /\
  (forall raw, keeps_buffer (writeRaw raw)) /\
  (forall message, keeps_buffer (write message)) /\
  (forall r, keeps_buffer (read_user r)) /\
  (forall r, keeps_buffer (read_channel r)) /\
  (forall r, keeps_buffer (read_member r)) /\
  (forall r f, keeps_buffer (update_user r f)) /\
  (forall r f, keeps_buffer (update_channel r f)) /\
  (forall r f, keeps_buffer (update_member r f)) /\
  (forall key, keeps_buffer (the_user key)) /\
  (forall key, keeps_buffer (the_channel key)).
Proof.
  split_and!; intros;
    unfold emit, writeRaw, write, read_user, read_channel, read_member,
           update_user, update_channel, update_member, read_user, read_channel,
           read_member, the_user, the_channel, writeRaw;
    keeps_buffer_auto.
Qed.

Ltac keeps_buffer_handler :=
  cbv beta iota zeta delta [consumePart parts consumed partsConsumed];
  repeat first
    [ apply keeps_buffer_primitives
    | keeps_buffer_step ].

Lemma keeps_buffer_endOfSync now : keeps_buffer (endOfSync now).
Proof. unfold endOfSync. keeps_buffer_handler. Qed.

Lemma keeps_buffer_leave user channel : keeps_buffer (leave user channel).
Proof. unfold leave. keeps_buffer_handler. Qed.

Lemma keeps_buffer_sjoin_tokens name channel unsafe sjoinbuffer :
  keeps_buffer (sjoin_tokens name channel unsafe sjoinbuffer).
Proof.
  induction sjoinbuffer as [|i rest IH]; [apply keeps_buffer_ret|].
  cbn [sjoin_tokens]. apply keeps_buffer_bind; [|intros _; apply IH].
  unfold sjoin_token. keeps_buffer_handler.
Qed.

Lemma keeps_buffer_mode_loop step modes :
  (forall mode st, keeps_buffer (step mode st)) ->
  forall st, keeps_buffer (mode_loop step modes st).
Proof.
  intros Hstep. induction modes as [|mode rest IH]; intros st; [apply keeps_buffer_ret|].
  cbn [mode_loop]. apply keeps_buffer_bind; [apply Hstep|apply IH].
Qed.

Lemma keeps_buffer_mode source target modes args :
  keeps_buffer (mode source target modes args).
Proof.
  unfold mode, mode_finish.
  repeat first
    [ apply keeps_buffer_mode_loop; intros ? ?; unfold mode_add, mode_remove
    | apply keeps_buffer_primitives
    | keeps_buffer_step ].
Qed.

Lemma keeps_buffer_sourced now line ps :
  keeps_buffer (sourced now line (mkCursor ps [] 0)).
Proof.
  unfold sourced.
  cbv beta iota zeta delta [consumePart parts consumed partsConsumed].
  assert (Hafter : forall (after : option Cursor),
            keeps_buffer (match after with
                   | Some k => emit (onCommand (Js.slice 1 (Js.show (ps !! 0%nat)))
                                               (ps !! 1%nat) (rest_of k))
                   | None => ret tt
                   end)).
  { intros [k|]; [apply keeps_buffer_primitives|apply keeps_buffer_ret]. }
  assert (Hcase : (exists s, ps !! 1%nat = Some s /\ s ∈ dispatched) \/
                  (forall s, ps !! 1%nat = Some s -> bool_decide (s ∈ dispatched) = false)).
  { destruct (ps !! 1%nat) as [s|]; [|by right].
    destruct (decide (s ∈ dispatched)); [left; eauto|right].
    intros ? [= <-]. by apply bool_decide_eq_false_2. }
  destruct Hcase as [(s & E & Hin)|Hout].
  - rewrite E in *. clear E. unfold dispatched in Hin.
    cases_of Hin.
    all: cbv beta iota.
    all: apply keeps_buffer_bind; [|intros a; apply Hafter].
    all: try (apply keeps_buffer_bind; [|intros ?; apply keeps_buffer_ret]).
    all: unfold handle_UID, handle_SID, handle_NICK, handle_QUIT, handle_KILL, handle_MD,
           handle_SETHOST, handle_SETIDENT, handle_SETNAME, handle_CHGHOST, handle_CHGIDENT,
           handle_CHGNAME, handle_SJOIN, handle_PART, handle_KICK, handle_SAJOIN,
           handle_SAPART, handle_MODE, handle_UMODE2, handle_PRIVMSG, handle_NOTICE,
           handle_VERSION, sjoin, sjoin_resolve.
    all: cbv beta iota zeta delta [consumePart parts consumed partsConsumed].
    all: repeat first
           [ apply keeps_buffer_primitives
           | apply keeps_buffer_leave
           | apply keeps_buffer_sjoin_tokens
           | apply keeps_buffer_mode
           | keeps_buffer_step ].
  - erewrite dispatch_default by exact Hout.
    apply keeps_buffer_bind; [apply keeps_buffer_ret|]. intros a. apply Hafter.
Qed.

Lemma keeps_buffer_lineHandler now line : keeps_buffer (_lineHandler now line).
Proof.
  unfold _lineHandler, handle_PING, handle_PROTOCTL, handle_TOPIC, handle_NETINFO,
         handle_SERVER.
  cbv beta iota zeta delta [consumePart parts consumed partsConsumed].
  repeat first
    [ apply keeps_buffer_sourced
    | apply keeps_buffer_endOfSync
    | apply keeps_buffer_primitives
    | keeps_buffer_step ].
Qed.

Lemma keeps_buffer_deliver now lines : keeps_buffer (deliver now lines).
Proof.
  induction lines as [|line rest IH]; [apply keeps_buffer_ret|].
  cbn [deliver]. apply keeps_buffer_bind; [apply keeps_buffer_lineHandler|intros _; apply IH].
Qed.

Lemma deliver_app now pre post c :
  deliver now (pre ++ post) c = bind (deliver now pre) (fun _ => deliver now post) c.
Proof.
  revert c. induction pre as [|line pre IH]; intros c; [done|].
  cbn [deliver app]. rewrite bind_assoc. apply bind_ext. intros _ c1. apply IH.
Qed.

(** X19.  When a line of a chunk makes [_lineHandler] throw, [_dataHandler]
    throws too: the lines of the chunk after it are not handled, and they
    are not kept either, since the buffer holds the incomplete tail of the
    chunk only. *)
Theorem chunk_lost_after_exception now data c pre bad post rest c1 e c2 :
  destroyed c = false ->
  frame (_buffer c) data = (pre ++ bad :: post, rest) ->
  deliver now pre (set_buffer rest c) = (Ok tt, c1) ->
  _lineHandler now bad c1 = (Throw e, c2) ->
  _dataHandler now data c = (Throw e, c2) /\ _buffer c2 = rest.
Proof.
  intros Hd Hf Hpre Hbad. split.
  - unfold _dataHandler. unfold bind at 1, get at 1. rewrite Hd, Hf.
    unfold bind at 1, modify at 1. rewrite deliver_app.
    erewrite bind_ok by exact Hpre. cbn [deliver]. by erewrite bind_throw by exact Hbad.
  - rewrite (keeps_buffer_lineHandler _ _ _ _ _ Hbad).
    rewrite (keeps_buffer_deliver _ _ _ _ _ Hpre). by destruct c.
Qed.

Lemma chunk_lost_after_exception_witness :
  _dataHandler 0 (":001 NICK bob 200" +:+ CRLF +:+ ":001 SJOIN 100 #a +nt :" +:+ CRLF)
               (newClient "999")
  = (Throw TypeError, (_lineHandler 0 ":001 NICK bob 200" (newClient "999")).2) /\
  _buffer (_lineHandler 0 ":001 NICK bob 200" (newClient "999")).2 = EmptyString.
Proof.
  apply (chunk_lost_after_exception 0 _ (newClient "999") [] ":001 NICK bob 200"
           [":001 SJOIN 100 #a +nt :"; EmptyString] EmptyString (newClient "999"));
    vm_compute; reflexivity.
Defined.
